(** * The ICE agent facade of libnice (agent/agent.c)

    A shallow embedding of the functions of [agent/agent.c] and the
    properties the specification states about them.

    The C code works on heap objects through pointers ([Stream *],
    [Component *], [CandidateDiscovery *], [NiceCandidate *]) that are linked
    from several places at once, so the embedding keeps one typed store per
    struct and represents a [GSList] of objects as the list of their
    addresses.  Functions of [agent.c] are computations in a state-and-fault
    monad: a fault is what the C program does when it dereferences a NULL,
    dangling or indeterminate pointer, overflows a signed integer, or when a
    [g_assert] fails.  The
    functions of the other modules (discovery, conncheck, stun, udp, random,
    candidate) are the methods of the class [Collaborators]. *)

From stdpp Require Import base gmap list strings.
From Stdlib Require Import ZArith Lia.

Local Open Scope Z_scope.

(** ** Machine integers *)

(** [guint] and [guint32] are 32-bit unsigned, [gint] and [int] are 32-bit
    signed, [gchar] is a signed 8-bit char. *)
Definition guint_modulus : Z := 2 ^ 32.
Definition G_MAXINT : Z := 2 ^ 31 - 1.
Definition G_MININT : Z := - 2 ^ 31.

(** Arithmetic on [guint] wraps around. *)
Definition to_guint (z : Z) : Z := z mod guint_modulus.

(** Conversion of a value to [gint]: reduction modulo 2^32 into the signed
    range (what gcc documents for out-of-range conversions). *)
Definition to_gint (z : Z) : Z := (z + 2 ^ 31) mod guint_modulus - 2 ^ 31.

(** A raw byte (0..255) read through a [gchar *]. *)
Definition to_gchar (b : Z) : Z := if b <? 128 then b else b - 256.

(** [gboolean] is an [int]; some tests in the source compare against [TRUE]
    itself. *)
Definition gboolean := Z.
Definition TRUE : gboolean := 1.
Definition FALSE : gboolean := 0.

(** ** Pointers *)

Definition addr := positive.
(** A pointer value is NULL ([None]) or an address. *)
Abbreviation pointer := (option addr).
(** A local pointer variable may also be indeterminate (declared, never
    assigned). *)
Inductive local_ptr :=
| Indeterminate
| Assigned (p : pointer).

(** ** The structs, with the fields agent.c reads or writes *)

Record NiceAddress := {
  addr_ipv4 : Z;
  port : Z;
}.

Record NiceUDPSocket := {
  fileno : Z;
}.

Inductive NiceCandidateType :=
| NICE_CANDIDATE_TYPE_HOST
| NICE_CANDIDATE_TYPE_SERVER_REFLEXIVE
| NICE_CANDIDATE_TYPE_PEER_REFLEXIVE
| NICE_CANDIDATE_TYPE_RELAYED.

Inductive NiceCandidateTransport :=
| NICE_CANDIDATE_TRANSPORT_UDP.

Inductive NiceComponentState :=
| NICE_COMPONENT_STATE_DISCONNECTED
| NICE_COMPONENT_STATE_GATHERING
| NICE_COMPONENT_STATE_CONNECTING
| NICE_COMPONENT_STATE_CONNECTED
| NICE_COMPONENT_STATE_READY
| NICE_COMPONENT_STATE_FAILED.

Record NiceCandidate := {
  cand_type : NiceCandidateType;
  cand_transport : NiceCandidateTransport;
  cand_addr : NiceAddress;
  cand_base_addr : NiceAddress;
  cand_priority : Z;
  cand_stream_id : Z;
  cand_component_id : Z;
  cand_foundation : list Z;
  cand_sockptr : option NiceUDPSocket;
  cand_username : option (list Z);
  cand_password : option (list Z);
}.

(** The descriptor of a remote candidate handed in by the signalling layer. *)
Record NiceCandidateDesc := {
  desc_foundation : option (list Z);
  desc_component_id : Z;
  desc_transport : NiceCandidateTransport;
  desc_priority : Z;
  desc_addr : option NiceAddress;
  desc_type : NiceCandidateType;
  desc_related_addr : option NiceAddress;
}.

(** A [GSource] watching a socket for input, by the descriptor it watches. *)
Record GSource := {
  source_fd : Z;
}.

(** [component->selected_pair]: two [NiceCandidate *]. *)
Record CandidatePair := {
  pair_local : pointer;
  pair_remote : pointer;
}.

Record Component := {
  comp_id : Z;
  comp_state : NiceComponentState;
  local_candidates : list addr;
  remote_candidates : list addr;
  sockets : list NiceUDPSocket;
  gsources : list GSource;
  selected_pair : CandidatePair;
  media_after_tick : gboolean;
}.

Record Stream := {
  stream_id : Z;
  components : list addr;
  local_ufrag : list Z;
  local_password : list Z;
  remote_ufrag : list Z;
  remote_password : list Z;
  initial_binding_request_received : gboolean;
}.

Record CandidateDiscovery := {
  disc_type : NiceCandidateType;
  disc_socket : Z;
  disc_nicesock : option NiceUDPSocket;
  disc_server_addr : option string;
  disc_server_port : Z;
  disc_interface : option NiceAddress;
  disc_stream : pointer;
  disc_component : pointer;
  disc_pending : gboolean;
  disc_done : gboolean;
}.

Record NiceAgent := {
  full_mode : bool;
  next_candidate_id : Z;
  next_stream_id : Z;
  local_addresses : list NiceAddress;
  streams : list addr;
  main_context_set : bool;
  stun_server_ip : option string;
  stun_server_port : Z;
  turn_server_port : Z;
  controlling_mode : bool;
  discovery_list : list addr;
  discovery_unsched_items : Z;
  discovery_timer_id : Z;
  conncheck_timer_id : Z;
  keepalive_timer_id : Z;
  rng : Z;
  timer_ta : Z;
}.

(** ** The program state *)

(** The agent object, one store per struct type, and the decisions of the
    allocator for the allocations still to come ([true]: the allocation
    succeeds; an exhausted plan means every further allocation succeeds). *)
Record State := {
  agent : NiceAgent;
  stream_mem : gmap addr Stream;
  component_mem : gmap addr Component;
  discovery_mem : gmap addr CandidateDiscovery;
  candidate_mem : gmap addr NiceCandidate;
  alloc_plan : list bool;
}.

(** What a function of agent.c does at its boundary: the signals it emits
    and the calls it makes into GLib's main loop, the sockets and the other
    modules. *)
Inductive event :=
| Emit_candidate_gathering_done
| Emit_initial_binding_request_received (id : Z)
| Udp_send (sock : NiceUDPSocket) (to : NiceAddress) (len : Z) (buf : list Z)
| Udp_recv (sock : NiceUDPSocket) (buf_len : Z)
| Call_discovery_add_local_host_candidate (sid cid : Z) (a : NiceAddress)
| Call_discovery_schedule
| Call_discovery_prune_stream (id : Z)
| Call_conn_check_prune_stream (id : Z)
| Call_conn_check_add_for_candidate (sid : Z) (comp cand : addr)
| Call_conn_check_schedule_next
| Call_conn_check_handle_inbound_stun (s c : addr) (sock : NiceUDPSocket)
    (from : NiceAddress) (buf : list Z) (len : Z)
| Call_stream_free (s : addr)
| Call_nice_candidate_free (c : addr)
| Source_attach (src : GSource)
| Source_destroy (src : GSource)
| Source_remove (timer : Z).

Record World := {
  st : State;
  log : list event;
}.

(** ** Faults and the monad *)

Inductive fault :=
| NullDereference
| IndeterminateRead
| DanglingPointer
| OutOfBounds
| SignedOverflow
| AssertionFailed.

Inductive outcome (A : Type) :=
| Done (a : A) (w : World)
| Crash (f : fault).
Arguments Done {A} a w.
Arguments Crash {A} f.

Definition M (A : Type) : Type := World -> outcome A.

Definition ret {A} (a : A) : M A := fun w => Done a w.

Definition bind {A B} (m : M A) (k : A -> M B) : M B :=
  fun w => match m w with
           | Done a w' => k a w'
           | Crash f => Crash f
           end.

Definition crash {A} (f : fault) : M A := fun _ => Crash f.

Declare Scope agent_scope.
Delimit Scope agent_scope with agent.
Notation "x <- m ;; k" := (bind m (fun x => k))
  (at level 100, m at next level, k at level 200, right associativity)
  : agent_scope.
Notation "m ;; k" := (bind m (fun _ => k))
  (at level 100, k at level 200, right associativity) : agent_scope.
Local Open Scope agent_scope.

Definition get_state : M State := fun w => Done (st w) w.
Definition put_state (s : State) : M unit :=
  fun w => Done tt {| st := s; log := log w |}.
Definition emit (e : event) : M unit :=
  fun w => Done tt {| st := st w; log := log w ++ [e] |}.

(** A call into another module: the event is recorded, then the callee
    transforms the state and hands back its result. *)
Definition call {R} (e : event) (f : State -> R * State) : M R :=
  fun w => let (r, s') := f (st w) in
           Done r {| st := s'; log := log w ++ [e] |}.

(** ** Field updates and memory access *)

Definition set_agent (f : NiceAgent -> NiceAgent) (s : State) : State :=
  {| agent := f (agent s); stream_mem := stream_mem s;
     component_mem := component_mem s; discovery_mem := discovery_mem s;
     candidate_mem := candidate_mem s; alloc_plan := alloc_plan s |}.

Definition set_stream_mem (f : gmap addr Stream -> gmap addr Stream)
    (s : State) : State :=
  {| agent := agent s; stream_mem := f (stream_mem s);
     component_mem := component_mem s; discovery_mem := discovery_mem s;
     candidate_mem := candidate_mem s; alloc_plan := alloc_plan s |}.

Definition set_component_mem (f : gmap addr Component -> gmap addr Component)
    (s : State) : State :=
  {| agent := agent s; stream_mem := stream_mem s;
     component_mem := f (component_mem s); discovery_mem := discovery_mem s;
     candidate_mem := candidate_mem s; alloc_plan := alloc_plan s |}.

Definition set_discovery_mem
    (f : gmap addr CandidateDiscovery -> gmap addr CandidateDiscovery)
    (s : State) : State :=
  {| agent := agent s; stream_mem := stream_mem s;
     component_mem := component_mem s; discovery_mem := f (discovery_mem s);
     candidate_mem := candidate_mem s; alloc_plan := alloc_plan s |}.

Definition set_candidate_mem
    (f : gmap addr NiceCandidate -> gmap addr NiceCandidate)
    (s : State) : State :=
  {| agent := agent s; stream_mem := stream_mem s;
     component_mem := component_mem s; discovery_mem := discovery_mem s;
     candidate_mem := f (candidate_mem s); alloc_plan := alloc_plan s |}.

Definition set_alloc_plan (p : list bool) (s : State) : State :=
  {| agent := agent s; stream_mem := stream_mem s;
     component_mem := component_mem s; discovery_mem := discovery_mem s;
     candidate_mem := candidate_mem s; alloc_plan := p |}.

Definition with_next_stream_id (v : Z) (a : NiceAgent) : NiceAgent :=
  {| full_mode := full_mode a; next_candidate_id := next_candidate_id a;
     next_stream_id := v; local_addresses := local_addresses a;
     streams := streams a; main_context_set := main_context_set a;
     stun_server_ip := stun_server_ip a; stun_server_port := stun_server_port a;
     turn_server_port := turn_server_port a;
     controlling_mode := controlling_mode a;
     discovery_list := discovery_list a;
     discovery_unsched_items := discovery_unsched_items a;
     discovery_timer_id := discovery_timer_id a;
     conncheck_timer_id := conncheck_timer_id a;
     keepalive_timer_id := keepalive_timer_id a; rng := rng a;
     timer_ta := timer_ta a |}.

Definition with_local_addresses (v : list NiceAddress) (a : NiceAgent)
    : NiceAgent :=
  {| full_mode := full_mode a; next_candidate_id := next_candidate_id a;
     next_stream_id := next_stream_id a; local_addresses := v;
     streams := streams a; main_context_set := main_context_set a;
     stun_server_ip := stun_server_ip a; stun_server_port := stun_server_port a;
     turn_server_port := turn_server_port a;
     controlling_mode := controlling_mode a;
     discovery_list := discovery_list a;
     discovery_unsched_items := discovery_unsched_items a;
     discovery_timer_id := discovery_timer_id a;
     conncheck_timer_id := conncheck_timer_id a;
     keepalive_timer_id := keepalive_timer_id a; rng := rng a;
     timer_ta := timer_ta a |}.

Definition with_streams (v : list addr) (a : NiceAgent) : NiceAgent :=
  {| full_mode := full_mode a; next_candidate_id := next_candidate_id a;
     next_stream_id := next_stream_id a; local_addresses := local_addresses a;
     streams := v; main_context_set := main_context_set a;
     stun_server_ip := stun_server_ip a; stun_server_port := stun_server_port a;
     turn_server_port := turn_server_port a;
     controlling_mode := controlling_mode a;
     discovery_list := discovery_list a;
     discovery_unsched_items := discovery_unsched_items a;
     discovery_timer_id := discovery_timer_id a;
     conncheck_timer_id := conncheck_timer_id a;
     keepalive_timer_id := keepalive_timer_id a; rng := rng a;
     timer_ta := timer_ta a |}.

Definition with_discovery_list (v : list addr) (a : NiceAgent) : NiceAgent :=
  {| full_mode := full_mode a; next_candidate_id := next_candidate_id a;
     next_stream_id := next_stream_id a; local_addresses := local_addresses a;
     streams := streams a; main_context_set := main_context_set a;
     stun_server_ip := stun_server_ip a; stun_server_port := stun_server_port a;
     turn_server_port := turn_server_port a;
     controlling_mode := controlling_mode a;
     discovery_list := v;
     discovery_unsched_items := discovery_unsched_items a;
     discovery_timer_id := discovery_timer_id a;
     conncheck_timer_id := conncheck_timer_id a;
     keepalive_timer_id := keepalive_timer_id a; rng := rng a;
     timer_ta := timer_ta a |}.

Definition with_discovery_unsched_items (v : Z) (a : NiceAgent) : NiceAgent :=
  {| full_mode := full_mode a; next_candidate_id := next_candidate_id a;
     next_stream_id := next_stream_id a; local_addresses := local_addresses a;
     streams := streams a; main_context_set := main_context_set a;
     stun_server_ip := stun_server_ip a; stun_server_port := stun_server_port a;
     turn_server_port := turn_server_port a;
     controlling_mode := controlling_mode a;
     discovery_list := discovery_list a;
     discovery_unsched_items := v;
     discovery_timer_id := discovery_timer_id a;
     conncheck_timer_id := conncheck_timer_id a;
     keepalive_timer_id := keepalive_timer_id a; rng := rng a;
     timer_ta := timer_ta a |}.

Definition with_keepalive_timer_id (v : Z) (a : NiceAgent) : NiceAgent :=
  {| full_mode := full_mode a; next_candidate_id := next_candidate_id a;
     next_stream_id := next_stream_id a; local_addresses := local_addresses a;
     streams := streams a; main_context_set := main_context_set a;
     stun_server_ip := stun_server_ip a; stun_server_port := stun_server_port a;
     turn_server_port := turn_server_port a;
     controlling_mode := controlling_mode a;
     discovery_list := discovery_list a;
     discovery_unsched_items := discovery_unsched_items a;
     discovery_timer_id := discovery_timer_id a;
     conncheck_timer_id := conncheck_timer_id a;
     keepalive_timer_id := v; rng := rng a;
     timer_ta := timer_ta a |}.

Definition with_rng (v : Z) (a : NiceAgent) : NiceAgent :=
  {| full_mode := full_mode a; next_candidate_id := next_candidate_id a;
     next_stream_id := next_stream_id a; local_addresses := local_addresses a;
     streams := streams a; main_context_set := main_context_set a;
     stun_server_ip := stun_server_ip a; stun_server_port := stun_server_port a;
     turn_server_port := turn_server_port a;
     controlling_mode := controlling_mode a;
     discovery_list := discovery_list a;
     discovery_unsched_items := discovery_unsched_items a;
     discovery_timer_id := discovery_timer_id a;
     conncheck_timer_id := conncheck_timer_id a;
     keepalive_timer_id := keepalive_timer_id a; rng := v;
     timer_ta := timer_ta a |}.

Definition with_stun_server_ip (v : option string) (a : NiceAgent) : NiceAgent :=
  {| full_mode := full_mode a; next_candidate_id := next_candidate_id a;
     next_stream_id := next_stream_id a; local_addresses := local_addresses a;
     streams := streams a; main_context_set := main_context_set a;
     stun_server_ip := v; stun_server_port := stun_server_port a;
     turn_server_port := turn_server_port a;
     controlling_mode := controlling_mode a;
     discovery_list := discovery_list a;
     discovery_unsched_items := discovery_unsched_items a;
     discovery_timer_id := discovery_timer_id a;
     conncheck_timer_id := conncheck_timer_id a;
     keepalive_timer_id := keepalive_timer_id a; rng := rng a;
     timer_ta := timer_ta a |}.

Definition with_selected_pair (v : CandidatePair) (c : Component) : Component :=
  {| comp_id := comp_id c; comp_state := comp_state c;
     local_candidates := local_candidates c;
     remote_candidates := remote_candidates c; sockets := sockets c;
     gsources := gsources c; selected_pair := v;
     media_after_tick := media_after_tick c |}.

Definition with_stream_id (v : Z) (s : Stream) : Stream :=
  {| stream_id := v; components := components s;
     local_ufrag := local_ufrag s; local_password := local_password s;
     remote_ufrag := remote_ufrag s; remote_password := remote_password s;
     initial_binding_request_received := initial_binding_request_received s |}.

Definition with_local_ufrag (v : list Z) (s : Stream) : Stream :=
  {| stream_id := stream_id s; components := components s;
     local_ufrag := v; local_password := local_password s;
     remote_ufrag := remote_ufrag s; remote_password := remote_password s;
     initial_binding_request_received := initial_binding_request_received s |}.

Definition with_local_password (v : list Z) (s : Stream) : Stream :=
  {| stream_id := stream_id s; components := components s;
     local_ufrag := local_ufrag s; local_password := v;
     remote_ufrag := remote_ufrag s; remote_password := remote_password s;
     initial_binding_request_received := initial_binding_request_received s |}.

Definition with_initial_binding_request_received (v : gboolean) (s : Stream)
    : Stream :=
  {| stream_id := stream_id s; components := components s;
     local_ufrag := local_ufrag s; local_password := local_password s;
     remote_ufrag := remote_ufrag s; remote_password := remote_password s;
     initial_binding_request_received := v |}.

Definition with_media_after_tick (v : gboolean) (c : Component) : Component :=
  {| comp_id := comp_id c; comp_state := comp_state c;
     local_candidates := local_candidates c;
     remote_candidates := remote_candidates c; sockets := sockets c;
     gsources := gsources c; selected_pair := selected_pair c;
     media_after_tick := v |}.

Definition with_gsources (v : list GSource) (c : Component) : Component :=
  {| comp_id := comp_id c; comp_state := comp_state c;
     local_candidates := local_candidates c;
     remote_candidates := remote_candidates c; sockets := sockets c;
     gsources := v; selected_pair := selected_pair c;
     media_after_tick := media_after_tick c |}.

Definition with_sockets (v : list NiceUDPSocket) (c : Component) : Component :=
  {| comp_id := comp_id c; comp_state := comp_state c;
     local_candidates := local_candidates c;
     remote_candidates := remote_candidates c; sockets := v;
     gsources := gsources c; selected_pair := selected_pair c;
     media_after_tick := media_after_tick c |}.

Definition with_remote_candidates (v : list addr) (c : Component) : Component :=
  {| comp_id := comp_id c; comp_state := comp_state c;
     local_candidates := local_candidates c;
     remote_candidates := v; sockets := sockets c;
     gsources := gsources c; selected_pair := selected_pair c;
     media_after_tick := media_after_tick c |}.

(** Reading through a pointer faults when nothing lives at the address. *)
Definition load {A} (mem : State -> gmap addr A) (p : addr) : M A :=
  fun w => match mem (st w) !! p with
           | Some v => Done v w
           | None => Crash DanglingPointer
           end.

Definition load_stream : addr -> M Stream := load stream_mem.
Definition load_component : addr -> M Component := load component_mem.
Definition load_discovery : addr -> M CandidateDiscovery := load discovery_mem.
Definition load_candidate : addr -> M NiceCandidate := load candidate_mem.

(** [p->field = v] on a stream, a component, a discovery, a candidate. *)
Definition modify_stream (p : addr) (f : Stream -> Stream) : M unit :=
  s <- load_stream p ;;
  x <- get_state ;;
  put_state (set_stream_mem (fun m => <[p := f s]> m) x).

Definition modify_component (p : addr) (f : Component -> Component) : M unit :=
  c <- load_component p ;;
  x <- get_state ;;
  put_state (set_component_mem (fun m => <[p := f c]> m) x).

Definition modify_discovery (p : addr)
    (f : CandidateDiscovery -> CandidateDiscovery) : M unit :=
  d <- load_discovery p ;;
  x <- get_state ;;
  put_state (set_discovery_mem (fun m => <[p := f d]> m) x).

Definition modify_candidate (p : addr) (f : NiceCandidate -> NiceCandidate)
    : M unit :=
  c <- load_candidate p ;;
  x <- get_state ;;
  put_state (set_candidate_mem (fun m => <[p := f c]> m) x).

Definition get_agent : M NiceAgent := fun w => Done (agent (st w)) w.
Definition modify_agent (f : NiceAgent -> NiceAgent) : M unit :=
  x <- get_state ;; put_state (set_agent f x).

(** Dereferencing a pointer variable of the C function. *)
Definition deref (v : local_ptr) : M addr :=
  match v with
  | Indeterminate => crash IndeterminateRead
  | Assigned None => crash NullDereference
  | Assigned (Some p) => ret p
  end.

(** ** GLib *)

(** The allocator's next decision. *)
Definition allocate : M bool :=
  fun w : World => match alloc_plan (st w) with
           | [] => Done true w
           | b :: plan =>
               Done b {| st := set_alloc_plan plan (st w); log := log w |}
           end.

(** [g_slist_append (list, data)]: the list with a new last node for
    [data], or NULL when the node cannot be allocated.  ([None] is that
    NULL; an empty [GSList] is never the result of an append.) *)
Definition g_slist_append {A} (l : list A) (data : A) : M (option (list A)) :=
  ok <- allocate ;;
  ret (if ok then Some (l ++ [data]) else None).

(** [g_slist_remove (list, data)]: unlinks the first node holding [data]. *)
Fixpoint g_slist_remove (l : list addr) (data : addr) : list addr :=
  match l with
  | [] => []
  | x :: rest => if decide (x = data) then rest else x :: g_slist_remove rest data
  end.

(** [g_slice_new0 (T)] for the structs agent.c allocates itself: a zeroed
    object at an address where none lives, or NULL. *)
Definition zeroed_address : NiceAddress := {| addr_ipv4 := 0; port := 0 |}.

Definition zeroed_discovery : CandidateDiscovery :=
  {| disc_type := NICE_CANDIDATE_TYPE_HOST; disc_socket := 0;
     disc_nicesock := None; disc_server_addr := None; disc_server_port := 0;
     disc_interface := None; disc_stream := None; disc_component := None;
     disc_pending := FALSE; disc_done := FALSE |}.

Definition g_slice_new0_CandidateDiscovery : M pointer :=
  ok <- allocate ;;
  if ok : bool then
    x <- get_state ;;
    let p := fresh (dom (discovery_mem x)) in
    put_state (set_discovery_mem (fun m => <[p := zeroed_discovery]> m) x) ;;
    ret (Some p)
  else ret None.

(** ** The other modules *)

(** Constants of the headers and the functions of the modules whose source
    is kept elsewhere.  A function that is handed the agent may change any
    part of the state; the others are typed by what they are handed. *)
Class Collaborators := {
  (* the build: whether NDEBUG is defined *)
  NDEBUG : bool;
  (* stream.h *)
  NICE_STREAM_DEF_UFRAG : Z;
  NICE_STREAM_DEF_PWD : Z;
  NICE_STREAM_MAX_UFRAG : Z;
  NICE_STREAM_MAX_PWD : Z;
  (* candidate.h *)
  NICE_CANDIDATE_MAX_FOUNDATION : Z;
  (* random.h: [nice_rng_generate_bytes_print (rng, len, buf)], as the
     characters stored into [buf] and the generator's next state *)
  nice_rng_generate_bytes_print : Z -> Z -> list Z * Z;
  (* stun: [stun_validate (msg, len)] *)
  stun_validate : list Z -> Z -> Z;
  (* udp.h: [nice_udp_socket_recv (sock, &from, len, buf)], as the returned
     length, the sender and the buffer afterwards *)
  nice_udp_socket_recv : NiceUDPSocket -> Z -> list Z -> Z * NiceAddress * list Z;
  (* discovery.h *)
  discovery_add_local_host_candidate :
    Z -> Z -> NiceAddress -> State -> pointer * State;
  discovery_schedule : State -> unit * State;
  (* whether [discovery_schedule], called in this state, raises the
     gathering-done signal, through [agent_signal_gathering_done], before
     it returns *)
  discovery_schedule_signals_done : State -> bool;
  discovery_prune_stream : Z -> State -> unit * State;
  (* conncheck.h *)
  conn_check_add_for_candidate : Z -> addr -> addr -> State -> Z * State;
  conn_check_schedule_next : State -> unit * State;
  conn_check_prune_stream : Z -> State -> unit * State;
  conn_check_handle_inbound_stun :
    addr -> addr -> NiceUDPSocket -> NiceAddress -> list Z -> Z ->
    State -> unit * State;
}.

(** *** stream.c and candidate.c *)

(** Modelled from the spec: [component_new] of component.c, which is not in
    the sources at hand.  A component starts disconnected, with no socket, no
    candidate and no selected pair. *)
Definition component_new (id : Z) : M addr :=
  x <- get_state ;;
  let p := fresh (dom (component_mem x)) in
  put_state (set_component_mem (fun m => <[p :=
    {| comp_id := id; comp_state := NICE_COMPONENT_STATE_DISCONNECTED;
       local_candidates := []; remote_candidates := []; sockets := [];
       gsources := [];
       selected_pair := {| pair_local := None; pair_remote := None |};
       media_after_tick := FALSE |} ]> m) x) ;;
  ret p.

Fixpoint components_new (n : nat) (id : Z) : M (list addr) :=
  match n with
  | O => ret []
  | S n' =>
      p <- component_new id ;;
      rest <- components_new n' (id + 1) ;;
      ret (p :: rest)
  end.

Section WithCollaborators.
Context `{Collaborators}.

(** Modelled from the spec: [stream_new] of stream.c, which is not in the
    sources at hand.  A stream is created zeroed (id 0, empty credential
    buffers of the maximal sizes, no initial binding request seen) with
    components numbered from 1; NULL when memory is short. *)
Definition stream_new (n_components : Z) : M pointer :=
  ok <- allocate ;;
  if ok : bool then
    cs <- components_new (Z.to_nat n_components) 1 ;;
    x <- get_state ;;
    let p := fresh (dom (stream_mem x)) in
    put_state (set_stream_mem (fun m => <[p :=
      {| stream_id := 0; components := cs;
         local_ufrag := replicate (Z.to_nat NICE_STREAM_MAX_UFRAG) 0;
         local_password := replicate (Z.to_nat NICE_STREAM_MAX_PWD) 0;
         remote_ufrag := replicate (Z.to_nat NICE_STREAM_MAX_UFRAG) 0;
         remote_password := replicate (Z.to_nat NICE_STREAM_MAX_PWD) 0;
         initial_binding_request_received := FALSE |} ]> m) x) ;;
    ret (Some p)
  else ret None.

(** Modelled from the spec: [stream_free] of stream.c; the stream and its
    components are destroyed. *)
Definition stream_free (stream : addr) : M unit :=
  s <- load_stream stream ;;
  emit (Call_stream_free stream) ;;
  x <- get_state ;;
  put_state
    (set_stream_mem (fun m => delete stream m)
       (set_component_mem
          (fun m => foldr (fun c m' => delete c m') m (components s)) x)).

(** Modelled from the spec: [stream_find_component_by_id] of stream.c; the
    first component of the stream with the given id, or NULL. *)
Fixpoint find_component_by_id_from (i : list addr) (id : Z) : M pointer :=
  match i with
  | [] => ret None
  | p :: next =>
      c <- load_component p ;;
      if comp_id c =? id then ret (Some p)
      else find_component_by_id_from next id
  end.

Definition stream_find_component_by_id (stream : addr) (id : Z) : M pointer :=
  s <- load_stream stream ;;
  find_component_by_id_from (components s) id.

(** ** agent.c *)

(** [agent_find_stream]: the loop over [agent->streams]. *)
Fixpoint agent_find_stream_from (i : list addr) (stream_id' : Z) : M pointer :=
  match i with
  | [] => ret None
  | p :: next =>
      s <- load_stream p ;;
      if stream_id s =? stream_id' then ret (Some p)
      else agent_find_stream_from next stream_id'
  end.

Definition agent_find_stream (stream_id' : Z) : M pointer :=
  a <- get_agent ;;
  agent_find_stream_from (streams a) stream_id'.

(** [agent_find_component]: the result, and what the caller's [stream] and
    [component] variables hold afterwards (every caller declares them without
    an initial value; a caller that passes NULL for [stream] has no such
    variable and drops that part). *)
Definition agent_find_component (stream_id' component_id : Z)
    : M (bool * local_ptr * local_ptr) :=
  s <- agent_find_stream stream_id' ;;
  match s with
  | None => ret (false, Indeterminate, Indeterminate)
  | Some sp =>
      c <- stream_find_component_by_id sp component_id ;;
      ret (true, Assigned (Some sp), Assigned c)
  end.

Definition agent_signal_gathering_done : M unit :=
  emit Emit_candidate_gathering_done.

Definition agent_signal_initial_binding_request_received (stream : addr)
    : M unit :=
  s <- load_stream stream ;;
  if negb (initial_binding_request_received s =? TRUE) then
    modify_stream stream (with_initial_binding_request_received TRUE) ;;
    emit (Emit_initial_binding_request_received (stream_id s))
  else ret tt.

(** [nice_agent_send].  The result of [agent_find_component] is not
    looked at; the debug message reads the remote candidate's address before
    the socket is fetched. *)
Definition nice_agent_send (stream_id' component_id len : Z) (buf : list Z)
    : M Z :=
  r <- agent_find_component stream_id' component_id ;;
  let '(_, stream, component) := r in
  cp <- deref component ;;
  c <- load_component cp ;;
  match pair_local (selected_pair c) with
  | Some local =>
      rp <- deref (Assigned (pair_remote (selected_pair c))) ;;
      remote <- load_candidate rp ;;
      l <- load_candidate local ;;
      match cand_sockptr l with
      | None => crash NullDereference
      | Some sock =>
          emit (Udp_send sock (cand_addr remote) len buf) ;;
          modify_component cp (with_media_after_tick TRUE) ;;
          ret (to_gint len)
      end
  | None => ret (-1)
  end.


(** [nice_agent_init], on the zero-filled object GObject hands over with the
    construct properties ([socket-factory], [full-mode],
    [stun-pacing-timer]) set.  The generator starts from [seed]; the
    tie-breaker drawn from it is not modelled. *)
Definition IPPORT_STUN : Z := 3478.

Definition nice_agent_init (full_mode' : bool) (timer_ta' seed : Z) : NiceAgent :=
  {| full_mode := full_mode'; next_candidate_id := 1; next_stream_id := 1;
     local_addresses := []; streams := []; main_context_set := false;
     stun_server_ip := None; stun_server_port := IPPORT_STUN;
     turn_server_port := IPPORT_STUN; controlling_mode := true;
     discovery_list := []; discovery_unsched_items := 0;
     discovery_timer_id := 0; conncheck_timer_id := 0;
     keepalive_timer_id := 0; rng := seed; timer_ta := timer_ta' |}.

(** [nice_agent_set_property], case [PROP_STUN_SERVER]. *)
Definition nice_agent_set_stun_server (ip : string) : M unit :=
  modify_agent (with_stun_server_ip (Some ip)).

(** [priv_add_srv_rfx_candidate_discovery]. *)
Definition priv_add_srv_rfx_candidate_discovery (host_candidate : addr)
    (stun_server_ip' : string) (stun_server_port' : Z) (stream : addr)
    (component_id : Z) (address : NiceAddress) : M bool :=
  cdisco <- g_slice_new0_CandidateDiscovery ;;
  match cdisco with
  | Some cd =>
      a <- get_agent ;;
      modified_list <- g_slist_append (discovery_list a) cd ;;
      match modified_list with
      | Some l =>
          modify_agent (with_discovery_list l) ;;
          hc <- load_candidate host_candidate ;;
          sock <- match cand_sockptr hc with
                  | Some sock => ret sock
                  | None => crash NullDereference
                  end ;;
          comp <- stream_find_component_by_id stream component_id ;;
          modify_discovery cd (fun d =>
            {| disc_type := NICE_CANDIDATE_TYPE_SERVER_REFLEXIVE;
               disc_socket := fileno sock; disc_nicesock := Some sock;
               disc_server_addr := Some stun_server_ip';
               disc_server_port := stun_server_port';
               disc_interface := Some address; disc_stream := Some stream;
               disc_component := comp;
               disc_pending := disc_pending d; disc_done := disc_done d |}) ;;
          a' <- get_agent ;;
          modified_list' <- g_slist_append (discovery_list a') cd ;;
          match modified_list' with
          | Some l' =>
              modify_agent (with_discovery_list l') ;;
              modify_agent (fun a'' => with_discovery_unsched_items
                (to_guint (discovery_unsched_items a'' + 1)) a'')
          | None => ret tt
          end
      | None => ret tt
      end ;;
      ret true
  | None => ret false
  end.

(** [priv_attach_new_stream]: one source per socket of each component. *)
Fixpoint attach_sockets (component : addr) (j : list NiceUDPSocket) : M bool :=
  match j with
  | [] => ret true
  | udp_socket :: next =>
      let source := {| source_fd := fileno udp_socket |} in
      emit (Source_attach source) ;;
      c <- load_component component ;;
      modified_list <- g_slist_append (gsources c) source ;;
      match modified_list with
      | None => emit (Source_destroy source) ;; ret false
      | Some l =>
          modify_component component (with_gsources l) ;;
          attach_sockets component next
      end
  end.

Fixpoint attach_components (i : list addr) : M bool :=
  match i with
  | [] => ret true
  | component :: next =>
      c <- load_component component ;;
      ok <- attach_sockets component (sockets c) ;;
      if ok : bool then attach_components next else ret false
  end.

Definition priv_attach_new_stream (stream : addr) : M bool :=
  s <- load_stream stream ;;
  attach_components (components s).

(** [priv_deattach_stream]. *)
Fixpoint destroy_sources (j : list GSource) : M unit :=
  match j with
  | [] => ret tt
  | source :: next => emit (Source_destroy source) ;; destroy_sources next
  end.

Fixpoint deattach_components (i : list addr) : M unit :=
  match i with
  | [] => ret tt
  | component :: next =>
      c <- load_component component ;;
      destroy_sources (gsources c) ;;
      modify_component component (with_gsources []) ;;
      deattach_components next
  end.

Definition priv_deattach_stream (stream : addr) : M unit :=
  s <- load_stream stream ;;
  deattach_components (components s).

(** [nice_agent_add_stream], in the three parts of its body.

    First part: the guard on the local addresses, the allocation of the
    stream, its id and its credentials.  [None] stands for the two
    [return 0]: nothing allocated. *)
Definition store_bytes (data buf : list Z) : list Z :=
  data ++ drop (length data) buf.

Definition add_stream_allocate (n_components : Z) : M pointer :=
  a <- get_agent ;;
  match local_addresses a with
  | [] => ret None
  | _ :: _ =>
      stream <- stream_new n_components ;;
      match stream with
      | None => ret None
      | Some sp =>
          modified_list <- g_slist_append (streams a) sp ;;
          match modified_list with
          | Some l =>
              modify_stream sp (with_stream_id (next_stream_id a)) ;;
              modify_agent
                (with_next_stream_id (to_guint (next_stream_id a + 1))) ;;
              let '(ufrag, rng1) :=
                nice_rng_generate_bytes_print (rng a)
                  (NICE_STREAM_DEF_UFRAG - 1) in
              modify_stream sp
                (fun s => with_local_ufrag (store_bytes ufrag (local_ufrag s)) s) ;;
              let '(pwd, rng2) :=
                nice_rng_generate_bytes_print rng1 (NICE_STREAM_DEF_PWD - 1) in
              modify_stream sp
                (fun s => with_local_password
                            (store_bytes pwd (local_password s)) s) ;;
              modify_agent (with_rng rng2) ;;
              modify_agent (with_streams l) ;;
              ret (Some sp)
          | None => stream_free sp ;; ret None
          end
      end
  end.

(** Second part: the loops.  The inner loop runs [n] from [n_components -
    count] to [n_components - 1]; a [break] leaves it with the stream's id
    zeroed, and the outer loop goes on with the next address. *)
Fixpoint add_stream_components (count : nat) (n : Z) (stream : addr)
    (address : NiceAddress) : M unit :=
  match count with
  | O => ret tt
  | S count' =>
      s <- load_stream stream ;;
      host_candidate <-
        call (Call_discovery_add_local_host_candidate (stream_id s) (n + 1) address)
          (discovery_add_local_host_candidate (stream_id s) (n + 1) address) ;;
      match host_candidate with
      | None => modify_stream stream (with_stream_id 0)
      | Some hc =>
          a <- get_agent ;;
          match full_mode a, stun_server_ip a with
          | true, Some ip =>
              res <- priv_add_srv_rfx_candidate_discovery hc ip
                       (stun_server_port a) stream (n + 1) address ;;
              if res : bool
              then add_stream_components count' (n + 1) stream address
              else modify_stream stream (with_stream_id 0)
          | _, _ => add_stream_components count' (n + 1) stream address
          end
      end
  end.

Fixpoint add_stream_addresses (i : list NiceAddress) (n_components : Z)
    (stream : addr) : M unit :=
  match i with
  | [] => ret tt
  | address :: next =>
      add_stream_components (Z.to_nat n_components) 0 stream address ;;
      add_stream_addresses next n_components stream
  end.

(** Third part: attaching the sockets, the gathering-done decision and the
    result. *)
Definition add_stream_attach (stream : addr) : M unit :=
  a <- get_agent ;;
  s <- load_stream stream ;;
  if main_context_set a && (0 <? stream_id s)
  then priv_attach_new_stream stream ;; ret tt
  else ret tt.

(** The call of [discovery_schedule]: the call itself and, when the
    discovery module raises it while it runs, the gathering-done signal. *)
Definition discovery_schedule_call : M unit :=
  x <- get_state ;;
  call Call_discovery_schedule discovery_schedule ;;
  if discovery_schedule_signals_done x then agent_signal_gathering_done
  else ret tt.

Definition add_stream_conclude (stream : addr) : M Z :=
  a <- get_agent ;;
  (if discovery_unsched_items a =? 0 then agent_signal_gathering_done
   else
     match discovery_list a with
     | [] => crash AssertionFailed
     | _ :: _ => discovery_schedule_call
     end) ;;
  s <- load_stream stream ;;
  ret (stream_id s).

(** Everything of [nice_agent_add_stream] before the gathering-done
    decision. *)
Definition add_stream_gather (n_components : Z) : M pointer :=
  stream <- add_stream_allocate n_components ;;
  match stream with
  | None => ret None
  | Some sp =>
      a <- get_agent ;;
      add_stream_addresses (local_addresses a) n_components sp ;;
      add_stream_attach sp ;;
      ret (Some sp)
  end.

Definition nice_agent_add_stream (n_components : Z) : M Z :=
  stream <- add_stream_gather n_components ;;
  match stream with
  | None => ret 0
  | Some sp => add_stream_conclude sp
  end.

(** [priv_remove_keepalive_timer]. *)
Definition priv_remove_keepalive_timer : M unit :=
  a <- get_agent ;;
  if negb (keepalive_timer_id a =? 0) then
    emit (Source_remove (keepalive_timer_id a)) ;;
    modify_agent (with_keepalive_timer_id 0)
  else ret tt.

(** [nice_agent_remove_stream]. *)
Definition nice_agent_remove_stream (stream_id' : Z) : M unit :=
  stream <- agent_find_stream stream_id' ;;
  match stream with
  | None => ret tt
  | Some sp =>
      call (Call_conn_check_prune_stream stream_id')
        (conn_check_prune_stream stream_id') ;;
      call (Call_discovery_prune_stream stream_id')
        (discovery_prune_stream stream_id') ;;
      priv_deattach_stream sp ;;
      modify_agent (fun a => with_streams (g_slist_remove (streams a) sp) a) ;;
      stream_free sp ;;
      a <- get_agent ;;
      match streams a with
      | [] => priv_remove_keepalive_timer
      | _ :: _ => ret tt
      end
  end.

(** [nice_agent_add_local_address]; [nice_address_dup] copies the address. *)
Definition nice_agent_add_local_address (address : NiceAddress) : M bool :=
  let dup := {| addr_ipv4 := addr_ipv4 address; port := 0 |} in
  a <- get_agent ;;
  modified_list <- g_slist_append (local_addresses a) dup ;;
  match modified_list with
  | Some l => modify_agent (with_local_addresses l) ;; ret true
  | None => ret false
  end.

(** Modelled from the spec: [nice_candidate_new] and [nice_candidate_free]
    of candidate.c, which is not in the sources at hand.  A candidate is
    created zeroed but for its type; NULL when memory is short. *)
Definition nice_candidate_new (type : NiceCandidateType) : M pointer :=
  ok <- allocate ;;
  if ok : bool then
    x <- get_state ;;
    let p := fresh (dom (candidate_mem x)) in
    put_state (set_candidate_mem (fun m => <[p :=
      {| cand_type := type; cand_transport := NICE_CANDIDATE_TRANSPORT_UDP;
         cand_addr := zeroed_address; cand_base_addr := zeroed_address;
         cand_priority := 0; cand_stream_id := 0; cand_component_id := 0;
         cand_foundation := []; cand_sockptr := None;
         cand_username := None; cand_password := None |} ]> m) x) ;;
    ret (Some p)
  else ret None.

Definition nice_candidate_free (candidate : addr) : M unit :=
  emit (Call_nice_candidate_free candidate) ;;
  x <- get_state ;;
  put_state (set_candidate_mem (fun m => delete candidate m) x).

(** [g_strlcpy (dest, src, size)] on strings kept without their NUL. *)
Definition g_strlcpy (src : list Z) (dest_size : Z) : list Z :=
  take (Z.to_nat (dest_size - 1)) src.

(** [priv_add_remote_candidate]. *)
Definition priv_add_remote_candidate (stream_id' component_id : Z)
    (type : NiceCandidateType) (address related_addr : option NiceAddress)
    (transport : NiceCandidateTransport) (priority : Z)
    (username password foundation : option (list Z)) : M bool :=
  r <- agent_find_component stream_id' component_id ;;
  let '(found, _, component) := r in
  if negb found then ret false
  else
    let username_dup := username in
    let password_dup := password in
    candidate <- nice_candidate_new type ;;
    error_flag <-
      match candidate with
      | Some cand =>
          cp <- deref component ;;
          c <- load_component cp ;;
          modified_list <- g_slist_append (remote_candidates c) cand ;;
          match modified_list with
          | Some l =>
              modify_component cp (with_remote_candidates l) ;;
              (if NDEBUG then ret tt
               else match address with
                    | Some _ => ret tt
                    | None => crash NullDereference
                    end) ;;
              modify_candidate cand (fun k =>
                {| cand_type := type; cand_transport := transport;
                   cand_addr := default (cand_addr k) address;
                   cand_base_addr := default (cand_base_addr k) related_addr;
                   cand_priority := priority;
                   cand_stream_id := stream_id';
                   cand_component_id := component_id;
                   cand_foundation :=
                     match foundation with
                     | Some f => g_strlcpy f NICE_CANDIDATE_MAX_FOUNDATION
                     | None => cand_foundation k
                     end;
                   cand_sockptr := cand_sockptr k;
                   cand_username := username_dup;
                   cand_password := password_dup |}) ;;
              res <- call (Call_conn_check_add_for_candidate stream_id' cp cand)
                       (conn_check_add_for_candidate stream_id' cp cand) ;;
              ret (res <? 0)
          | None => ret true
          end
      | None => ret true
      end ;;
    if error_flag : bool then
      match candidate with
      | Some cand => nice_candidate_free cand
      | None => ret tt
      end ;;
      ret false
    else ret true.

(** [nice_agent_set_remote_candidates]: the loop, with [added] as it stands
    when the loop condition is evaluated, then the scheduling.  The count is
    an [int], and [++added] at [G_MAXINT] overflows it. *)
Fixpoint set_remote_candidates_from (stream_id' component_id : Z)
    (i : list NiceCandidateDesc) (added : Z) : M Z :=
  match i with
  | [] => ret added
  | d :: next =>
      if 0 <=? added then
        res <- priv_add_remote_candidate stream_id' component_id
                 (desc_type d) (desc_addr d) (desc_related_addr d)
                 (desc_transport d) (desc_priority d) None None
                 (desc_foundation d) ;;
        if res : bool then
          if added =? G_MAXINT then crash SignedOverflow
          else set_remote_candidates_from stream_id' component_id next
                 (added + 1)
        else set_remote_candidates_from stream_id' component_id next (-1)
      else ret added
  end.

Definition nice_agent_set_remote_candidates (stream_id' component_id : Z)
    (candidates : list NiceCandidateDesc) : M Z :=
  added <- set_remote_candidates_from stream_id' component_id candidates 0 ;;
  (if 0 <? added
   then call Call_conn_check_schedule_next conn_check_schedule_next
   else ret tt) ;;
  ret added.

(** [nice_agent_get_local_credentials]; [ufrag] and [pwd] tell whether the
    out-pointers are non-NULL, and the result carries the two buffers of
    the stream the out-pointers are set to. *)
Definition nice_agent_get_local_credentials (stream_id' : Z) (ufrag pwd : bool)
    : M (bool * option (list Z * list Z)) :=
  stream <- agent_find_stream stream_id' ;;
  match stream with
  | None => ret (false, None)
  | Some sp =>
      if negb ufrag || negb pwd then ret (false, None)
      else
        s <- load_stream sp ;;
        ret (true, Some (local_ufrag s, local_password s))
  end.

(** The C string a [gchar] buffer holds: the bytes before the first NUL. *)
Fixpoint c_string (buf : list Z) : list Z :=
  match buf with
  | [] => []
  | b :: rest => if b =? 0 then [] else b :: c_string rest
  end.

(** [_nice_agent_recv]: the number of octets handed to the caller, and the
    buffer.  The result of [nice_udp_socket_recv] is stored in [guint len]:
    a negative result wraps around. *)
Definition _nice_agent_recv (stream component : addr)
    (udp_socket : NiceUDPSocket) (buf_len : Z) (buf : list Z)
    : M (Z * list Z) :=
  let '(result, from, buf') := nice_udp_socket_recv udp_socket buf_len buf in
  let len := to_guint result in
  emit (Udp_recv udp_socket buf_len) ;;
  if len =? 0 then ret (0, buf')
  else if buf_len <? len then ret (0, buf')
  else
    match buf' with
    | [] => crash OutOfBounds
    | b0 :: _ =>
        if Z.land (to_gchar b0) 0xc0 =? 0x80 then ret (len, buf')
        else if 0 <? stun_validate buf' len then
          call (Call_conn_check_handle_inbound_stun stream component
                  udp_socket from buf' len)
            (conn_check_handle_inbound_stun stream component udp_socket
               from buf' len) ;;
          ret (0, buf')
        else ret (len, buf')
    end.

End WithCollaborators.

(** ** agent.c, the functions beside the ones above *)

(** *** More field updates *)

Definition with_stun_server_port (v : Z) (a : NiceAgent) : NiceAgent :=
  {| full_mode := full_mode a; next_candidate_id := next_candidate_id a;
     next_stream_id := next_stream_id a;
     local_addresses := local_addresses a; streams := streams a;
     main_context_set := main_context_set a;
     stun_server_ip := stun_server_ip a; stun_server_port := v;
     turn_server_port := turn_server_port a;
     controlling_mode := controlling_mode a;
     discovery_list := discovery_list a;
     discovery_unsched_items := discovery_unsched_items a;
     discovery_timer_id := discovery_timer_id a;
     conncheck_timer_id := conncheck_timer_id a;
     keepalive_timer_id := keepalive_timer_id a; rng := rng a;
     timer_ta := timer_ta a |}.

Definition with_controlling_mode (v : bool) (a : NiceAgent) : NiceAgent :=
  {| full_mode := full_mode a; next_candidate_id := next_candidate_id a;
     next_stream_id := next_stream_id a;
     local_addresses := local_addresses a; streams := streams a;
     main_context_set := main_context_set a;
     stun_server_ip := stun_server_ip a;
     stun_server_port := stun_server_port a;
     turn_server_port := turn_server_port a; controlling_mode := v;
     discovery_list := discovery_list a;
     discovery_unsched_items := discovery_unsched_items a;
     discovery_timer_id := discovery_timer_id a;
     conncheck_timer_id := conncheck_timer_id a;
     keepalive_timer_id := keepalive_timer_id a; rng := rng a;
     timer_ta := timer_ta a |}.

Definition with_full_mode (v : bool) (a : NiceAgent) : NiceAgent :=
  {| full_mode := v; next_candidate_id := next_candidate_id a;
     next_stream_id := next_stream_id a;
     local_addresses := local_addresses a; streams := streams a;
     main_context_set := main_context_set a;
     stun_server_ip := stun_server_ip a;
     stun_server_port := stun_server_port a;
     turn_server_port := turn_server_port a;
     controlling_mode := controlling_mode a;
     discovery_list := discovery_list a;
     discovery_unsched_items := discovery_unsched_items a;
     discovery_timer_id := discovery_timer_id a;
     conncheck_timer_id := conncheck_timer_id a;
     keepalive_timer_id := keepalive_timer_id a; rng := rng a;
     timer_ta := timer_ta a |}.

Definition with_timer_ta (v : Z) (a : NiceAgent) : NiceAgent :=
  {| full_mode := full_mode a; next_candidate_id := next_candidate_id a;
     next_stream_id := next_stream_id a;
     local_addresses := local_addresses a; streams := streams a;
     main_context_set := main_context_set a;
     stun_server_ip := stun_server_ip a;
     stun_server_port := stun_server_port a;
     turn_server_port := turn_server_port a;
     controlling_mode := controlling_mode a;
     discovery_list := discovery_list a;
     discovery_unsched_items := discovery_unsched_items a;
     discovery_timer_id := discovery_timer_id a;
     conncheck_timer_id := conncheck_timer_id a;
     keepalive_timer_id := keepalive_timer_id a; rng := rng a;
     timer_ta := v |}.

Definition with_main_context_set (v : bool) (a : NiceAgent) : NiceAgent :=
  {| full_mode := full_mode a; next_candidate_id := next_candidate_id a;
     next_stream_id := next_stream_id a;
     local_addresses := local_addresses a; streams := streams a;
     main_context_set := v; stun_server_ip := stun_server_ip a;
     stun_server_port := stun_server_port a;
     turn_server_port := turn_server_port a;
     controlling_mode := controlling_mode a;
     discovery_list := discovery_list a;
     discovery_unsched_items := discovery_unsched_items a;
     discovery_timer_id := discovery_timer_id a;
     conncheck_timer_id := conncheck_timer_id a;
     keepalive_timer_id := keepalive_timer_id a; rng := rng a;
     timer_ta := timer_ta a |}.

Definition with_comp_state (v : NiceComponentState) (c : Component) : Component :=
  {| comp_id := comp_id c; comp_state := v;
     local_candidates := local_candidates c;
     remote_candidates := remote_candidates c; sockets := sockets c;
     gsources := gsources c; selected_pair := selected_pair c;
     media_after_tick := media_after_tick c |}.

Definition with_remote_ufrag (v : list Z) (s : Stream) : Stream :=
  {| stream_id := stream_id s; components := components s;
     local_ufrag := local_ufrag s; local_password := local_password s;
     remote_ufrag := v; remote_password := remote_password s;
     initial_binding_request_received := initial_binding_request_received s |}.

Definition with_remote_password (v : list Z) (s : Stream) : Stream :=
  {| stream_id := stream_id s; components := components s;
     local_ufrag := local_ufrag s; local_password := local_password s;
     remote_ufrag := remote_ufrag s; remote_password := v;
     initial_binding_request_received := initial_binding_request_received s |}.

(** The fields of the agent object that only the properties and
    [nice_agent_main_context_attach] read or write, kept beside
    [NiceAgent]; the two together are the agent object.  A function pointer
    and the user data are pointers like the others. *)
Record NiceAgentRest := {
  socket_factory : pointer;
  turn_server_ip : option string;
  main_context : pointer;
  read_func : pointer;
  read_func_data : pointer;
}.

(** *** GObject properties *)

(** A [GValue] of one of the types the agent's properties have.  The
    getters of GLib hand back the zero of their type for a value of another
    type ([g_return_val_if_fail]). *)
Inductive GValue :=
| G_pointer (p : pointer)
| G_string (s : option string)
| G_uint (n : Z)
| G_boolean (b : bool).

Definition g_value_get_pointer (v : GValue) : pointer :=
  match v with G_pointer p => p | _ => None end.

Definition g_value_dup_string (v : GValue) : option string :=
  match v with G_string s => s | _ => None end.

Definition g_value_get_uint (v : GValue) : Z :=
  match v with G_uint n => n | _ => 0 end.

Definition g_value_get_boolean (v : GValue) : bool :=
  match v with G_boolean b => b | _ => false end.

(** The property ids, [PROP_SOCKET_FACTORY = 1] onwards. *)
Definition PROP_SOCKET_FACTORY : Z := 1.
Definition PROP_STUN_SERVER : Z := 2.
Definition PROP_STUN_SERVER_PORT : Z := 3.
Definition PROP_TURN_SERVER : Z := 4.
Definition PROP_TURN_SERVER_PORT : Z := 5.
Definition PROP_CONTROLLING_MODE : Z := 6.
Definition PROP_FULL_MODE : Z := 7.
Definition PROP_STUN_PACING_TIMER : Z := 8.

(** [nice_agent_get_property]: the value the [GValue] is set to; [None]
    stands for the [default] case, which warns about the id and sets
    nothing. *)
Definition nice_agent_get_property (property_id : Z) (a : NiceAgent)
    (r : NiceAgentRest) : option GValue :=
  if property_id =? PROP_SOCKET_FACTORY then
    Some (G_pointer (socket_factory r))
  else if property_id =? PROP_STUN_SERVER then
    Some (G_string (stun_server_ip a))
  else if property_id =? PROP_STUN_SERVER_PORT then
    Some (G_uint (stun_server_port a))
  else if property_id =? PROP_TURN_SERVER then
    Some (G_string (turn_server_ip r))
  else if property_id =? PROP_TURN_SERVER_PORT then
    Some (G_uint (turn_server_port a))
  else if property_id =? PROP_CONTROLLING_MODE then
    Some (G_boolean (controlling_mode a))
  else if property_id =? PROP_FULL_MODE then
    Some (G_boolean (full_mode a))
  else if property_id =? PROP_STUN_PACING_TIMER then
    Some (G_uint (timer_ta a))
  else None.

(** [nice_agent_set_property]: the agent object afterwards; [None] stands
    for the [default] case, which warns about the id and writes nothing.
    The switch has no case for [PROP_TURN_SERVER_PORT]. *)
Definition nice_agent_set_property (property_id : Z) (value : GValue)
    (a : NiceAgent) (r : NiceAgentRest) : option (NiceAgent * NiceAgentRest) :=
  if property_id =? PROP_SOCKET_FACTORY then
    Some (a, {| socket_factory := g_value_get_pointer value;
                turn_server_ip := turn_server_ip r;
                main_context := main_context r; read_func := read_func r;
                read_func_data := read_func_data r |})
  else if property_id =? PROP_STUN_SERVER then
    Some (with_stun_server_ip (g_value_dup_string value) a, r)
  else if property_id =? PROP_STUN_SERVER_PORT then
    Some (with_stun_server_port (g_value_get_uint value) a, r)
  else if property_id =? PROP_TURN_SERVER then
    Some (a, {| socket_factory := socket_factory r;
                turn_server_ip := g_value_dup_string value;
                main_context := main_context r; read_func := read_func r;
                read_func_data := read_func_data r |})
  else if property_id =? PROP_CONTROLLING_MODE then
    Some (with_controlling_mode (g_value_get_boolean value) a, r)
  else if property_id =? PROP_FULL_MODE then
    Some (with_full_mode (g_value_get_boolean value) a, r)
  else if property_id =? PROP_STUN_PACING_TIMER then
    Some (with_timer_ta (g_value_get_uint value) a, r)
  else None.

(** The type a property's [GParamSpec] is installed with in
    [nice_agent_class_init]; GObject hands [nice_agent_set_property] values
    of that type only. *)
Definition holds_type_of (property_id : Z) (value : GValue) : Prop :=
  match value with
  | G_pointer _ => property_id = PROP_SOCKET_FACTORY
  | G_string _ =>
      property_id = PROP_STUN_SERVER \/ property_id = PROP_TURN_SERVER
  | G_uint _ =>
      property_id = PROP_STUN_SERVER_PORT \/
      property_id = PROP_TURN_SERVER_PORT \/
      property_id = PROP_STUN_PACING_TIMER
  | G_boolean _ =>
      property_id = PROP_CONTROLLING_MODE \/ property_id = PROP_FULL_MODE
  end.

(** *** Signals *)

(** The signals of the four functions below have no constructor in
    [event]; such a function hands back the signal it emits, if any, as
    its result. *)
Inductive signal :=
| Signal_component_state_changed (stream_id' component_id : Z)
    (state : NiceComponentState)
| Signal_new_selected_pair (stream_id' component_id : Z)
    (local_foundation remote_foundation : list Z)
| Signal_new_candidate (stream_id' component_id : Z) (foundation : list Z)
| Signal_new_remote_candidate (stream_id' component_id : Z)
    (foundation : list Z).

(** Modelled from the spec: the values of [NiceComponentState] in agent.h,
    in the order the states are listed, [NICE_COMPONENT_STATE_LAST] after
    them. *)
Definition component_state_value (s : NiceComponentState) : Z :=
  match s with
  | NICE_COMPONENT_STATE_DISCONNECTED => 0
  | NICE_COMPONENT_STATE_GATHERING => 1
  | NICE_COMPONENT_STATE_CONNECTING => 2
  | NICE_COMPONENT_STATE_CONNECTED => 3
  | NICE_COMPONENT_STATE_READY => 4
  | NICE_COMPONENT_STATE_FAILED => 5
  end.

Definition NICE_COMPONENT_STATE_LAST : Z := 6.

(** The state a value below [NICE_COMPONENT_STATE_LAST] stands for. *)
Definition component_state_of (z : Z) : NiceComponentState :=
  if z =? 0 then NICE_COMPONENT_STATE_DISCONNECTED
  else if z =? 1 then NICE_COMPONENT_STATE_GATHERING
  else if z =? 2 then NICE_COMPONENT_STATE_CONNECTING
  else if z =? 3 then NICE_COMPONENT_STATE_CONNECTED
  else if z =? 4 then NICE_COMPONENT_STATE_READY
  else NICE_COMPONENT_STATE_FAILED.

(** [g_slist_copy]: a list of new nodes with the same data; GLib does not
    hand back NULL for a list that is not empty. *)
Definition g_slist_copy {A} (l : list A) : list A := l.

(** [g_strlcpy (dest, src, dest_size)] into a buffer: at most
    [dest_size - 1] characters of the string, then a NUL; the rest of the
    buffer stays. *)
Definition g_strlcpy_into (dest src : list Z) (dest_size : Z) : list Z :=
  if dest_size <=? 0 then dest
  else store_bytes (take (Z.to_nat (dest_size - 1)) src ++ [0]) dest.

Section RestOfAgent.
Context `{Collaborators}.

(** [agent_signal_new_selected_pair]: the component is looked up and not
    looked at. *)
Definition agent_signal_new_selected_pair (stream_id' component_id : Z)
    (local_foundation remote_foundation : list Z) : M (option signal) :=
  r <- agent_find_component stream_id' component_id ;;
  let '(found, _, _) := r in
  if negb found then ret None
  else ret (Some (Signal_new_selected_pair stream_id' component_id
                    local_foundation remote_foundation)).

(** [agent_signal_new_candidate] and [agent_signal_new_remote_candidate]. *)
Definition agent_signal_new_candidate (candidate : addr) : M signal :=
  c <- load_candidate candidate ;;
  ret (Signal_new_candidate (cand_stream_id c) (cand_component_id c)
         (cand_foundation c)).

Definition agent_signal_new_remote_candidate (candidate : addr) : M signal :=
  c <- load_candidate candidate ;;
  ret (Signal_new_remote_candidate (cand_stream_id c) (cand_component_id c)
         (cand_foundation c)).

(** [agent_signal_component_state_change]; [state] is the value passed for
    the enum, an unsigned one. *)
Definition agent_signal_component_state_change (stream_id' component_id : Z)
    (state : Z) : M (option signal) :=
  r <- agent_find_component stream_id' component_id ;;
  let '(found, _, component) := r in
  if negb found then ret None
  else
    cp <- deref component ;;
    c <- load_component cp ;;
    if negb (component_state_value (comp_state c) =? state)
       && (state <? NICE_COMPONENT_STATE_LAST)
    then
      modify_component cp (with_comp_state (component_state_of state)) ;;
      c' <- load_component cp ;;
      ret (Some (Signal_component_state_changed stream_id' component_id
                   (comp_state c')))
    else ret None.

(** [nice_agent_set_remote_credentials]; a string argument is the
    characters before its NUL, [None] a NULL pointer. *)
Definition nice_agent_set_remote_credentials (stream_id' : Z)
    (ufrag pwd : option (list Z)) : M bool :=
  stream <- agent_find_stream stream_id' ;;
  match stream, ufrag, pwd with
  | Some sp, Some u, Some p =>
      modify_stream sp (fun s =>
        with_remote_ufrag
          (g_strlcpy_into (remote_ufrag s) u NICE_STREAM_MAX_UFRAG) s) ;;
      modify_stream sp (fun s =>
        with_remote_password
          (g_strlcpy_into (remote_password s) p NICE_STREAM_MAX_PWD) s) ;;
      ret true
  | _, _, _ => ret false
  end.

(** [nice_agent_add_remote_candidate]. *)
Definition nice_agent_add_remote_candidate (stream_id' component_id : Z)
    (type : NiceCandidateType) (address : option NiceAddress)
    (username password : option (list Z)) : M bool :=
  priv_add_remote_candidate stream_id' component_id type address None
    NICE_CANDIDATE_TRANSPORT_UDP 0 username password None.

(** [nice_agent_get_local_candidates] and
    [nice_agent_get_remote_candidates]; the empty list is NULL. *)
Definition nice_agent_get_local_candidates (stream_id' component_id : Z)
    : M (list addr) :=
  r <- agent_find_component stream_id' component_id ;;
  let '(found, _, component) := r in
  if negb found then ret []
  else
    cp <- deref component ;;
    c <- load_component cp ;;
    ret (g_slist_copy (local_candidates c)).

Definition nice_agent_get_remote_candidates (stream_id' component_id : Z)
    : M (list addr) :=
  r <- agent_find_component stream_id' component_id ;;
  let '(found, _, component) := r in
  if negb found then ret []
  else
    cp <- deref component ;;
    c <- load_component cp ;;
    ret (g_slist_copy (remote_candidates c)).

(** [nice_agent_main_context_attach]: the loop over the streams, then the
    four assignments; the result and the fields kept in [NiceAgentRest]. *)
Fixpoint attach_streams (i : list addr) : M bool :=
  match i with
  | [] => ret true
  | stream :: next =>
      res <- priv_attach_new_stream stream ;;
      if res : bool then attach_streams next else ret false
  end.

Definition nice_agent_main_context_attach (ctx func data : pointer)
    (r : NiceAgentRest) : M (bool * NiceAgentRest) :=
  a <- get_agent ;;
  if main_context_set a then ret (false, r)
  else
    ok <- attach_streams (streams a) ;;
    if ok : bool then
      modify_agent (with_main_context_set true) ;;
      ret (true, {| socket_factory := socket_factory r;
                    turn_server_ip := turn_server_ip r;
                    main_context := ctx; read_func := func;
                    read_func_data := data |})
    else ret (false, r).

End RestOfAgent.

(** ** A loopback environment

    An instance of the other modules small enough to run the agent on:
    one fixed datagram per descriptor, a generator that walks through the
    upper-case letters, a discovery module that creates a host candidate on a
    socket of its own and a connectivity-check module that accepts every
    candidate.  The examples below are evaluated in it. *)
Module Loopback.

Definition datagram_on (fd : Z) : list Z :=
  if fd =? 1 then [0x80; 0x01; 0x02; 0x03]
  else if fd =? 2 then [0x00; 0x01; 0x00; 0x00]
  else if fd =? 3 then [0x42; 0x43]
  else [].

Definition sender : NiceAddress := {| addr_ipv4 := 0x7f000001; port := 5000 |}.

Definition recv (sock : NiceUDPSocket) (buf_len : Z) (buf : list Z)
    : Z * NiceAddress * list Z :=
  let d := datagram_on (fileno sock) in
  (Z.of_nat (length d), sender, store_bytes (take (Z.to_nat buf_len) d) buf).

Definition letters (seed len : Z) : list Z * Z :=
  (map (fun i => 65 + (seed + Z.of_nat i) mod 26) (seq 0 (Z.to_nat len)),
   seed + len).

Definition validate (msg : list Z) (len : Z) : Z :=
  match msg with
  | b :: _ => if (Z.land b 0xc0 =? 0) && (4 <=? len) then len else 0
  | [] => 0
  end.

Definition add_local_host_candidate (sid cid : Z) (a : NiceAddress)
    (s : State) : pointer * State :=
  let p := fresh (dom (candidate_mem s)) in
  (Some p,
   set_candidate_mem (fun m => <[p :=
     {| cand_type := NICE_CANDIDATE_TYPE_HOST;
        cand_transport := NICE_CANDIDATE_TRANSPORT_UDP;
        cand_addr := a; cand_base_addr := a; cand_priority := 0;
        cand_stream_id := sid; cand_component_id := cid;
        cand_foundation := []; 
        cand_sockptr := Some {| fileno := Zpos p |};
        cand_username := None; cand_password := None |} ]> m) s).

#[export] Instance env : Collaborators := {|
  NDEBUG := false;
  NICE_STREAM_DEF_UFRAG := 8 + 1;
  NICE_STREAM_DEF_PWD := 32 + 1;
  NICE_STREAM_MAX_UFRAG := 256 + 1;
  NICE_STREAM_MAX_PWD := 256 + 1;
  NICE_CANDIDATE_MAX_FOUNDATION := 32 + 1;
  nice_rng_generate_bytes_print := letters;
  stun_validate := validate;
  nice_udp_socket_recv := recv;
  discovery_add_local_host_candidate := add_local_host_candidate;
  discovery_schedule := fun s => (tt, s);
  discovery_schedule_signals_done := fun _ => false;
  discovery_prune_stream := fun _ s => (tt, s);
  conn_check_add_for_candidate := fun _ _ _ s => (0, s);
  conn_check_schedule_next := fun s => (tt, s);
  conn_check_prune_stream := fun _ s => (tt, s);
  conn_check_handle_inbound_stun := fun _ _ _ _ _ _ s => (tt, s);
|}.

(** A freshly constructed agent, and the world after some calls. *)
Definition new_world (full : bool) : World :=
  {| st := {| agent := nice_agent_init full 20 0; stream_mem := ∅;
              component_mem := ∅; discovery_mem := ∅; candidate_mem := ∅;
              alloc_plan := [] |};
     log := [] |}.

Definition world_after {A} (m : M A) (w : World) : World :=
  match m w with
  | Done _ w' => w'
  | Crash _ => w
  end.

Definition loopback_address : NiceAddress :=
  {| addr_ipv4 := 0x7f000001; port := 4000 |}.

(** One local address, one stream of one component. *)
Definition one_stream : World :=
  world_after (nice_agent_add_local_address loopback_address ;;
               nice_agent_add_stream 1) (new_world false).

(** The same with a STUN server configured on a full-mode agent. *)
Definition one_stream_with_stun : World :=
  world_after (nice_agent_add_local_address loopback_address ;;
               nice_agent_set_stun_server "192.0.2.1" ;;
               nice_agent_add_stream 1) (new_world true).

Definition remote_desc : NiceCandidateDesc :=
  {| desc_foundation := Some [49]; desc_component_id := 1;
     desc_transport := NICE_CANDIDATE_TRANSPORT_UDP; desc_priority := 100;
     desc_addr := Some {| addr_ipv4 := 0x0a000002; port := 6000 |};
     desc_type := NICE_CANDIDATE_TYPE_HOST; desc_related_addr := None |}.

(** What the connectivity checks do once a pair is nominated: the
    component's selected pair is set. *)
Definition select_pair (component local remote : addr) : M unit :=
  modify_component component
    (with_selected_pair {| pair_local := Some local; pair_remote := Some remote |}).

(** One remote candidate installed, and the pair (host candidate, remote
    candidate) selected on the component. *)
Definition paired : World :=
  world_after (nice_agent_set_remote_candidates 1 1 [remote_desc] ;;
               select_pair 1%positive 1%positive 2%positive) one_stream.

(** The objects of [paired]: its component, its host candidate and its
    remote candidate. *)
Definition paired_component : Component :=
  {| comp_id := 1; comp_state := NICE_COMPONENT_STATE_DISCONNECTED;
     local_candidates := []; remote_candidates := [2%positive];
     sockets := []; gsources := [];
     selected_pair := {| pair_local := Some 1%positive;
                         pair_remote := Some 2%positive |};
     media_after_tick := FALSE |}.

Definition paired_local : NiceCandidate :=
  {| cand_type := NICE_CANDIDATE_TYPE_HOST;
     cand_transport := NICE_CANDIDATE_TRANSPORT_UDP;
     cand_addr := {| addr_ipv4 := 0x7f000001; port := 0 |};
     cand_base_addr := {| addr_ipv4 := 0x7f000001; port := 0 |};
     cand_priority := 0; cand_stream_id := 1; cand_component_id := 1;
     cand_foundation := []; cand_sockptr := Some {| fileno := 1 |};
     cand_username := None; cand_password := None |}.

Definition paired_remote : NiceCandidate :=
  {| cand_type := NICE_CANDIDATE_TYPE_HOST;
     cand_transport := NICE_CANDIDATE_TRANSPORT_UDP;
     cand_addr := {| addr_ipv4 := 0x0a000002; port := 6000 |};
     cand_base_addr := zeroed_address;
     cand_priority := 100; cand_stream_id := 1; cand_component_id := 1;
     cand_foundation := [49]; cand_sockptr := None;
     cand_username := None; cand_password := None |}.

(** The agent with its local address, before any stream: in lite mode, and
    in full mode with a STUN server. *)
Definition with_address : World :=
  world_after (nice_agent_add_local_address loopback_address) (new_world false).

Definition with_address_and_stun : World :=
  world_after (nice_agent_add_local_address loopback_address ;;
               nice_agent_set_stun_server "192.0.2.1") (new_world true).

(** The stream object at an address (an empty one where nothing lives). *)
Definition stream_at (w : World) (p : addr) : Stream :=
  default {| stream_id := 0; components := []; local_ufrag := [];
             local_password := []; remote_ufrag := []; remote_password := [];
             initial_binding_request_received := FALSE |}
    (stream_mem (st w) !! p).

(** A world of the loopback agent in which a remote candidate can be
    installed on component 1 of stream 1: both exist and the allocator has
    nothing against it. *)
Definition installable (w : World) : Prop :=
  alloc_plan (st w) = [] /\
  streams (agent (st w)) = [1%positive] /\
  (exists s, stream_mem (st w) !! 1%positive = Some s /\
             stream_id s = 1 /\ components s = [1%positive]) /\
  (exists c, component_mem (st w) !! 1%positive = Some c /\ comp_id c = 1).



(** [one_stream] once two sockets have been opened for its component. *)
Definition listening : World :=
  world_after
    (modify_component 1%positive
       (with_sockets [{| fileno := 4 |}; {| fileno := 5 |}]))
    one_stream.

End Loopback.

(** ** An environment in which nothing gets through

    The loopback environment with a discovery module that cannot create a
    host candidate, a connectivity-check module that refuses every
    candidate and sockets on which every receive fails with -1. *)
Module Offline.

#[export] Instance env : Collaborators := {|
  NDEBUG := false;
  NICE_STREAM_DEF_UFRAG := 8 + 1;
  NICE_STREAM_DEF_PWD := 32 + 1;
  NICE_STREAM_MAX_UFRAG := 256 + 1;
  NICE_STREAM_MAX_PWD := 256 + 1;
  NICE_CANDIDATE_MAX_FOUNDATION := 32 + 1;
  nice_rng_generate_bytes_print := Loopback.letters;
  stun_validate := Loopback.validate;
  nice_udp_socket_recv := fun _ _ buf => (-1, Loopback.sender, buf);
  discovery_add_local_host_candidate := fun _ _ _ s => (None, s);
  discovery_schedule := fun s => (tt, s);
  discovery_schedule_signals_done := fun _ => false;
  discovery_prune_stream := fun _ s => (tt, s);
  conn_check_add_for_candidate := fun _ _ _ s => (-1, s);
  conn_check_schedule_next := fun s => (tt, s);
  conn_check_prune_stream := fun _ s => (tt, s);
  conn_check_handle_inbound_stun := fun _ _ _ _ _ _ s => (tt, s);
|}.

End Offline.

(** ** An environment that signals early

    The loopback environment with a discovery module that raises the
    gathering-done signal from inside [discovery_schedule]. *)
Module Eager.

Definition env : Collaborators := {|
  NDEBUG := false;
  NICE_STREAM_DEF_UFRAG := 8 + 1;
  NICE_STREAM_DEF_PWD := 32 + 1;
  NICE_STREAM_MAX_UFRAG := 256 + 1;
  NICE_STREAM_MAX_PWD := 256 + 1;
  NICE_CANDIDATE_MAX_FOUNDATION := 32 + 1;
  nice_rng_generate_bytes_print := Loopback.letters;
  stun_validate := Loopback.validate;
  nice_udp_socket_recv := Loopback.recv;
  discovery_add_local_host_candidate := Loopback.add_local_host_candidate;
  discovery_schedule := fun s => (tt, s);
  discovery_schedule_signals_done := fun _ => true;
  discovery_prune_stream := fun _ s => (tt, s);
  conn_check_add_for_candidate := fun _ _ _ s => (0, s);
  conn_check_schedule_next := fun s => (tt, s);
  conn_check_prune_stream := fun _ s => (tt, s);
  conn_check_handle_inbound_stun := fun _ _ _ _ _ _ s => (tt, s);
|}.

End Eager.

(** A world in which the allocator goes by the given plan. *)
Definition planned (plan : list bool) (w : World) : World :=
  {| st := set_alloc_plan plan (st w); log := log w |}.

(** ** Vocabulary of the properties *)

(** The events a computation added to the log. *)
Definition new_events (w w' : World) : list event :=
  drop (length (log w)) (log w').

(** The stream's [initial_binding_request_received] flag is TRUE. *)
Definition flag_raised (stream : addr) (w : World) : Prop :=
  exists s, stream_mem (st w) !! stream = Some s /\
            initial_binding_request_received s = TRUE.

(** The life of a stream as its flag sees it, from one world to a later
    one: a step is either a call of
    [agent_signal_initial_binding_request_received] for the stream, counted
    with the signals it emitted, or anything else, which leaves a raised
    flag raised (nothing in the agent clears it).  The number is the count
    of signals emitted for the stream on the way. *)
Inductive stream_life (stream : addr) : World -> nat -> World -> Prop :=
| life_end w : stream_life stream w 0 w
| life_signal w w1 w2 n :
    agent_signal_initial_binding_request_received stream w = Done tt w1 ->
    stream_life stream w1 n w2 ->
    stream_life stream w (length (new_events w w1) + n) w2
| life_other w w1 w2 n :
    (flag_raised stream w -> flag_raised stream w1) ->
    stream_life stream w1 n w2 ->
    stream_life stream w n w2.


(** The component store after [priv_deattach_stream] went through the
    components [cs], and the events it logged on the way. *)
Fixpoint detached (cs : list addr) (m : gmap addr Component)
    : gmap addr Component :=
  match cs with
  | [] => m
  | c :: rest =>
      match m !! c with
      | Some k => detached rest (<[c := with_gsources [] k]> m)
      | None => m
      end
  end.

Fixpoint detach_events (cs : list addr) (m : gmap addr Component)
    : list event :=
  match cs with
  | [] => []
  | c :: rest =>
      match m !! c with
      | Some k =>
          map Source_destroy (gsources k)
          ++ detach_events rest (<[c := with_gsources [] k]> m)
      | None => []
      end
  end.

(** A function of another module that leaves the streams, their components
    and the keepalive timer as they are. *)
Definition leaves_streams {R} (f : State -> R * State) : Prop :=
  forall x,
    streams (agent (f x).2) = streams (agent x) /\
    keepalive_timer_id (agent (f x).2) = keepalive_timer_id (agent x) /\
    stream_mem (f x).2 = stream_mem x /\
    component_mem (f x).2 = component_mem x.

(** A function of another module that leaves the agent's streams, the
    components and the candidates as they are. *)
Definition leaves_candidates {R} (f : State -> R * State) : Prop :=
  forall x,
    streams (agent (f x).2) = streams (agent x) /\
    stream_mem (f x).2 = stream_mem x /\
    component_mem (f x).2 = component_mem x /\
    candidate_mem (f x).2 = candidate_mem x.

(** The remote candidate [nice_agent_add_remote_candidate] makes. *)
Definition added_remote_candidate (stream_id' component_id : Z)
    (type : NiceCandidateType) (address : option NiceAddress)
    (username password : option (list Z)) : NiceCandidate :=
  {| cand_type := type; cand_transport := NICE_CANDIDATE_TRANSPORT_UDP;
     cand_addr := default zeroed_address address;
     cand_base_addr := zeroed_address; cand_priority := 0;
     cand_stream_id := stream_id'; cand_component_id := component_id;
     cand_foundation := []; cand_sockptr := None;
     cand_username := username; cand_password := password |}.

(** The source [priv_attach_new_stream] makes for a socket, and the
    sockets of a list of components and of all the streams of the agent,
    in the order of the lists. *)
Definition watch (s : NiceUDPSocket) : GSource := {| source_fd := fileno s |}.

Definition component_sockets (m : gmap addr Component) (cs : list addr)
    : list NiceUDPSocket :=
  flat_map (fun c => from_option sockets [] (m !! c)) cs.

Definition streams_sockets (x : State) (l : list addr) : list NiceUDPSocket :=
  flat_map
    (fun sp => from_option
                 (fun s => component_sockets (component_mem x) (components s))
                 [] (stream_mem x !! sp))
    l.

Definition agent_sockets (x : State) : list NiceUDPSocket :=
  streams_sockets x (streams (agent x)).

(** Attaching touches the sources of the components and nothing else. *)
Definition only_sources_differ (x x' : State) : Prop :=
  agent x' = agent x /\
  stream_mem x' = stream_mem x /\
  alloc_plan x' = alloc_plan x /\
  (forall q, sockets <$> component_mem x' !! q
             = sockets <$> component_mem x !! q).

(** The streams of the agent are alive, and so are their components. *)
Definition alive (x : State) (l : list addr) : Prop :=
  Forall (fun sp => exists s,
            stream_mem x !! sp = Some s /\
            Forall (fun c => is_Some (component_mem x !! c)) (components s))
    l.

Definition streams_alive (x : State) : Prop := alive x (streams (agent x)).

(** The components of the streams [l], stream by stream, and those of the
    agent's streams. *)
Definition streams_components (x : State) (l : list addr) : list addr :=
  flat_map (fun sp => from_option components [] (stream_mem x !! sp)) l.

Definition agent_components (x : State) : list addr :=
  streams_components x (streams (agent x)).

(** No component of the agent's streams has a source. *)
Definition no_sources (x : State) : Prop :=
  Forall (fun c => forall k, component_mem x !! c = Some k -> gsources k = [])
    (agent_components x).

(** The requests for host candidates [nice_agent_add_stream] makes for a
    stream id, a number of components and a list of addresses: address by
    address, for the components from 1 upwards. *)
Definition host_candidate_requests (id n_components : Z)
    (addresses : list NiceAddress) : list event :=
  flat_map
    (fun a => map (fun k => Call_discovery_add_local_host_candidate id
                              (Z.of_nat k + 1) a)
                (seq 0 (Z.to_nat n_components)))
    addresses.

(** An event that is not such a request. *)
Definition not_request (e : event) : Prop :=
  match e with
  | Call_discovery_add_local_host_candidate _ _ _ => False
  | _ => True
  end.

(** The discovery bookkeeping [nice_agent_add_stream] asserts: with
    unscheduled items counted, the discovery list is not empty. *)
Definition discovery_consistent (x : State) : Prop :=
  discovery_unsched_items (agent x) = 0 \/ discovery_list (agent x) <> [].

(** What a function of the connectivity-check module may not do: touch the
    stream id counter or break the discovery bookkeeping. *)
Definition settled (x x' : State) : Prop :=
  next_stream_id (agent x') = next_stream_id (agent x) /\
  (discovery_consistent x -> discovery_consistent x').

(** What the discovery functions called while a stream is added may not
    do besides: touch the agent's lists of streams and of local addresses
    or a stream object, decide for the allocator, or free a component. *)
Definition fenced (x x' : State) : Prop :=
  streams (agent x') = streams (agent x) /\
  local_addresses (agent x') = local_addresses (agent x) /\
  next_stream_id (agent x') = next_stream_id (agent x) /\
  stream_mem x' = stream_mem x /\
  alloc_plan x' = alloc_plan x /\
  (discovery_consistent x -> discovery_consistent x') /\
  (forall c, is_Some (component_mem x !! c) -> is_Some (component_mem x' !! c)).

(** What the rest of [nice_agent_add_stream] does to the streams once the
    new stream [sp] is allocated: nothing but, on a failure, zeroing the id
    of [sp]. *)
Definition stays (sp : addr) (x x' : State) : Prop :=
  streams (agent x') = streams (agent x) /\
  local_addresses (agent x') = local_addresses (agent x) /\
  next_stream_id (agent x') = next_stream_id (agent x) /\
  (discovery_consistent x -> discovery_consistent x') /\
  (forall q, stream_mem x' !! q = stream_mem x !! q \/
             (q = sp /\
              stream_mem x' !! q = with_stream_id 0 <$> stream_mem x !! q)).

(** The state in which the gathering loops of [nice_agent_add_stream] run
    to their end without a failure: the allocator has nothing against it,
    the new stream [sp] is the object [s], its components are alive and the
    discovery bookkeeping is consistent. *)
Definition ready (sp : addr) (s : Stream) (x : State) : Prop :=
  alloc_plan x = [] /\
  stream_mem x !! sp = Some s /\
  Forall (fun c => is_Some (component_mem x !! c)) (components s) /\
  discovery_consistent x.

(** The stream ids along a history of calls: [k] streams were linked so
    far, the agent's next id is the one after them, and every value
    [nice_agent_add_stream] returned is 0 or the id of one of them. *)
Definition counted (k : nat) (ids : list Z) (x : State) : Prop :=
  discovery_consistent x /\
  next_stream_id (agent x) = to_guint (1 + Z.of_nat k) /\
  (k <= length ids)%nat /\
  Forall (fun i => i = 0 \/
                   exists j, (j < k)%nat /\ i = to_guint (1 + Z.of_nat j)) ids.

(** A printable character: what [nice_rng_generate_bytes_print] is for. *)
Definition printable (c : Z) : Prop := 0x20 <= c < 0x7f.

(** A computation that, when it returns, has added to the log only events
    that satisfy [P]. *)
Definition logs {A} (P : event -> Prop) (m : M A) : Prop :=
  forall w a w', m w = Done a w' ->
    exists evs, log w' = log w ++ evs /\ Forall P evs.

(** A computation that, when it returns, has taken the state to one that
    [R] relates it to. *)
Definition keeps {A} (R : State -> State -> Prop) (m : M A) : Prop :=
  forall w a w', m w = Done a w' -> R (st w) (st w').

(** A computation that only reads. *)
Definition reads {A} (m : M A) : Prop :=
  forall w a w', m w = Done a w' -> w' = w.

Section Vocabulary.
Context `{Collaborators}.

(** [priv_add_remote_candidate] on a descriptor, as
    [nice_agent_set_remote_candidates] calls it. *)
Definition add_remote_desc (stream_id' component_id : Z)
    (d : NiceCandidateDesc) : M bool :=
  priv_add_remote_candidate stream_id' component_id
    (desc_type d) (desc_addr d) (desc_related_addr d)
    (desc_transport d) (desc_priority d) None None (desc_foundation d).

(** The remote candidate [priv_add_remote_candidate] makes of its
    arguments, and of a descriptor as [nice_agent_set_remote_candidates]
    hands it over. *)
Definition remote_candidate_of (stream_id' component_id : Z)
    (type : NiceCandidateType) (address related_addr : option NiceAddress)
    (transport : NiceCandidateTransport) (priority : Z)
    (username password foundation : option (list Z)) : NiceCandidate :=
  {| cand_type := type; cand_transport := transport;
     cand_addr := default zeroed_address address;
     cand_base_addr := default zeroed_address related_addr;
     cand_priority := priority;
     cand_stream_id := stream_id'; cand_component_id := component_id;
     cand_foundation :=
       match foundation with
       | Some f => g_strlcpy f NICE_CANDIDATE_MAX_FOUNDATION
       | None => []
       end;
     cand_sockptr := None;
     cand_username := username; cand_password := password |}.

Definition described_candidate (stream_id' component_id : Z)
    (d : NiceCandidateDesc) : NiceCandidate :=
  remote_candidate_of stream_id' component_id (desc_type d) (desc_addr d)
    (desc_related_addr d) (desc_transport d) (desc_priority d) None None
    (desc_foundation d).

(** A connectivity-check module that takes every candidate of a component
    and leaves the streams, the components, the candidates and the
    allocator alone. *)
Definition takes_candidates (stream_id' : Z) (component : addr) : Prop :=
  forall cand,
    leaves_candidates (conn_check_add_for_candidate stream_id' component cand) /\
    forall x,
      0 <= (conn_check_add_for_candidate stream_id' component cand x).1 /\
      alloc_plan (conn_check_add_for_candidate stream_id' component cand x).2
      = alloc_plan x.

(** The state the two pruning calls of [nice_agent_remove_stream] leave. *)
Definition pruned (stream_id' : Z) (x : State) : State :=
  (discovery_prune_stream stream_id' (conn_check_prune_stream stream_id' x).2).2.

(** Every descriptor of the list is added successfully, one after the
    other, from the first world to the second. *)
Inductive all_added (stream_id' component_id : Z)
    : list NiceCandidateDesc -> World -> World -> Prop :=
| all_added_nil w : all_added stream_id' component_id [] w w
| all_added_cons d ds w w1 w2 :
    add_remote_desc stream_id' component_id d w = Done true w1 ->
    all_added stream_id' component_id ds w1 w2 ->
    all_added stream_id' component_id (d :: ds) w w2.

(** The other modules keep to their side: the properties of their state
    transformers the facade relies on. *)
Class Cooperative : Prop := {
  host_candidate_fenced sid cid a x :
    fenced x (discovery_add_local_host_candidate sid cid a x).2;
  host_candidate_valid sid cid a x hc :
    (discovery_add_local_host_candidate sid cid a x).1 = Some hc ->
    exists c sock,
      candidate_mem (discovery_add_local_host_candidate sid cid a x).2 !! hc
        = Some c /\
      cand_sockptr c = Some sock;
  discovery_schedule_fenced x : fenced x (discovery_schedule x).2;
  discovery_prune_settled id x : settled x (discovery_prune_stream id x).2;
  conn_check_prune_settled id x : settled x (conn_check_prune_stream id x).2;
  conn_check_add_settled sid comp cand x :
    settled x (conn_check_add_for_candidate sid comp cand x).2;
  conn_check_schedule_settled x : settled x (conn_check_schedule_next x).2;
  inbound_stun_settled s c sock from buf len x :
    settled x (conn_check_handle_inbound_stun s c sock from buf len x).2;
}.

(** The credentials of a stream are what the generator produced: the
    strings in its two buffers are outputs of
    [nice_rng_generate_bytes_print] for the default lengths. *)
Definition generated_credentials (s : Stream) : Prop :=
  (exists r, c_string (local_ufrag s)
             = (nice_rng_generate_bytes_print r (NICE_STREAM_DEF_UFRAG - 1)).1) /\
  (exists r, c_string (local_password s)
             = (nice_rng_generate_bytes_print r (NICE_STREAM_DEF_PWD - 1)).1).

(** Every stream of the agent's list is alive and has generated
    credentials. *)
Definition credentials_invariant (w : World) : Prop :=
  Forall (fun q => exists s, stream_mem (st w) !! q = Some s /\
                             generated_credentials s)
    (streams (agent (st w))).

(** The generator's contract: as many characters as asked for, all of them
    printable. *)
Definition generates_printable : Prop :=
  forall r len,
    0 <= len ->
    length (nice_rng_generate_bytes_print r len).1 = Z.to_nat len /\
    Forall printable (nice_rng_generate_bytes_print r len).1.

(** The header's constants: the default lengths fit the buffers. *)
Definition credential_sizes_fit : Prop :=
  1 <= NICE_STREAM_DEF_UFRAG <= NICE_STREAM_MAX_UFRAG /\
  1 <= NICE_STREAM_DEF_PWD <= NICE_STREAM_MAX_PWD.

(** The stream object [nice_agent_add_stream] has made once the stream is
    linked: the id is the agent's next one, the credentials are generated
    one after the other into the zeroed buffers. *)
Definition linked_stream (a : NiceAgent) (cs : list addr) : Stream :=
  let ufrag :=
    nice_rng_generate_bytes_print (rng a) (NICE_STREAM_DEF_UFRAG - 1) in
  let pwd :=
    nice_rng_generate_bytes_print ufrag.2 (NICE_STREAM_DEF_PWD - 1) in
  {| stream_id := next_stream_id a; components := cs;
     local_ufrag :=
       store_bytes ufrag.1 (replicate (Z.to_nat NICE_STREAM_MAX_UFRAG) 0);
     local_password :=
       store_bytes pwd.1 (replicate (Z.to_nat NICE_STREAM_MAX_PWD) 0);
     remote_ufrag := replicate (Z.to_nat NICE_STREAM_MAX_UFRAG) 0;
     remote_password := replicate (Z.to_nat NICE_STREAM_MAX_PWD) 0;
     initial_binding_request_received := FALSE |}.

(** The agent once the stream at [sp] is linked. *)
Definition linked_agent (a : NiceAgent) (sp : addr) : NiceAgent :=
  let ufrag :=
    nice_rng_generate_bytes_print (rng a) (NICE_STREAM_DEF_UFRAG - 1) in
  let pwd :=
    nice_rng_generate_bytes_print ufrag.2 (NICE_STREAM_DEF_PWD - 1) in
  with_streams (streams a ++ [sp])
    (with_rng pwd.2
       (with_next_stream_id (to_guint (next_stream_id a + 1)) a)).

(** The calls a client makes on the agent. *)
Inductive api_call :=
| Api_add_local_address (a : NiceAddress)
| Api_set_stun_server (ip : string)
| Api_add_stream (n_components : Z)
| Api_remove_stream (id : Z)
| Api_set_remote_candidates (sid cid : Z) (ds : list NiceCandidateDesc)
| Api_get_local_credentials (sid : Z)
| Api_send (sid cid len : Z) (buf : list Z)
| Api_recv (stream component : addr) (sock : NiceUDPSocket) (buf_len : Z)
    (buf : list Z).

(** A history of calls; the result is the list of the values
    [nice_agent_add_stream] returned, the latest first. *)
Fixpoint run_calls (cs : list api_call) (returned : list Z) : M (list Z) :=
  match cs with
  | [] => ret returned
  | Api_add_local_address a :: rest =>
      nice_agent_add_local_address a ;; run_calls rest returned
  | Api_set_stun_server ip :: rest =>
      nice_agent_set_stun_server ip ;; run_calls rest returned
  | Api_add_stream n :: rest =>
      id <- nice_agent_add_stream n ;; run_calls rest (id :: returned)
  | Api_remove_stream id :: rest =>
      nice_agent_remove_stream id ;; run_calls rest returned
  | Api_set_remote_candidates sid cid ds :: rest =>
      nice_agent_set_remote_candidates sid cid ds ;; run_calls rest returned
  | Api_get_local_credentials sid :: rest =>
      nice_agent_get_local_credentials sid true true ;; run_calls rest returned
  | Api_send sid cid len buf :: rest =>
      nice_agent_send sid cid len buf ;; run_calls rest returned
  | Api_recv stream component sock buf_len buf :: rest =>
      _nice_agent_recv stream component sock buf_len buf ;;
      run_calls rest returned
  end.

(** A newly constructed agent: [nice_agent_init] on empty stores, whatever
    the allocator is going to decide. *)
Definition created (w : World) : Prop :=
  (exists full ta seed, agent (st w) = nice_agent_init full ta seed) /\
  stream_mem (st w) = ∅ /\ component_mem (st w) = ∅ /\
  discovery_mem (st w) = ∅ /\ candidate_mem (st w) = ∅ /\ log w = [].

(** Creating a host candidate never fails. *)
Definition host_candidates_succeed : Prop :=
  forall sid cid a x,
    (discovery_add_local_host_candidate sid cid a x).1 <> None.

End Vocabulary.

(** A client that adds a stream of one component and removes it again,
    [k] times over, the ids going up from [start]. *)
Fixpoint churn (start : Z) (k : nat) : list api_call :=
  match k with
  | O => []
  | S k' =>
      Api_add_stream 1 :: Api_remove_stream (to_guint start)
        :: churn (start + 1) k'
  end.

(** The agent between two rounds of that client: no stream, a local
    address, nothing against an allocation. *)
Definition idle (w : World) : Prop :=
  alloc_plan (st w) = [] /\
  local_addresses (agent (st w)) <> [] /\
  discovery_consistent (st w) /\
  streams (agent (st w)) = [].

(** ** Proof automation *)

(** Unfolds the primitive computations at the head of the goal. *)
Ltac run :=
  repeat (progress (unfold bind, ret, crash, emit, call, get_state, put_state,
    get_agent, modify_agent, modify_stream, modify_component,
    modify_discovery, modify_candidate, load_stream, load_component,
    load_discovery, load_candidate, load; cbn [st log])).

Create HintDb agent_run.
Create HintDb agent_logs.
Create HintDb agent_reads.
Create HintDb agent_keeps.

(** * Properties *)

Section Facts.
Context `{Collaborators}.

(** ** Machine integers *)

Lemma to_gint_small (z : Z) : 0 <= z <= G_MAXINT -> to_gint z = z.
Proof.
  unfold to_gint, G_MAXINT, guint_modulus. intros Hz.
  rewrite Z.mod_small; lia.
Qed.

Lemma to_gint_large (z : Z) :
  G_MAXINT < z < guint_modulus -> to_gint z = z - guint_modulus.
Proof.
  unfold to_gint, G_MAXINT, guint_modulus. intros Hz.
  replace (z + 2 ^ 31) with ((z - 2 ^ 31) + 1 * 2 ^ 32) by lia.
  rewrite Z.mod_add by lia. rewrite Z.mod_small; lia.
Qed.

(** Reading a byte through [gchar *] or through [uint8_t *] makes no
    difference to its two top bits. *)
Lemma gchar_top_bits (b : Z) :
  0 <= b < 256 -> Z.land (to_gchar b) 0xc0 = Z.land b 0xc0.
Proof.
  intros Hb. unfold to_gchar. destruct (b <? 128) eqn:E; [reflexivity|].
  change 0xc0 with (Z.land (Z.ones 8) 0xc0).
  rewrite !Z.land_assoc, !Z.land_ones by lia.
  replace (b - 256) with (b + (-1) * 2 ^ 8) by lia.
  rewrite Z.mod_add by lia. reflexivity.
Qed.

(** ** Running the monad *)

Lemma bind_done {A B} (m : M A) (k : A -> M B) w a w' :
  m w = Done a w' -> bind m k w = k a w'.
Proof. unfold bind. intros ->. reflexivity. Qed.

Lemma bind_assoc {A B C} (m : M A) (k1 : A -> M B) (k2 : B -> M C) w :
  bind (bind m k1) k2 w = bind m (fun x => bind (k1 x) k2) w.
Proof. unfold bind. destruct (m w); reflexivity. Qed.

Lemma bind_crash {A B} (m : M A) (k : A -> M B) w f :
  m w = Crash f -> bind m k w = Crash f.
Proof. unfold bind. intros ->. reflexivity. Qed.

Lemma load_done {A} (mem : State -> gmap addr A) p v w :
  mem (st w) !! p = Some v -> load mem p w = Done v w.
Proof. unfold load. intros ->. reflexivity. Qed.

Lemma run_ret {A} (a : A) w : ret a w = Done a w.
Proof. reflexivity. Qed.

Lemma run_get_agent w : get_agent w = Done (agent (st w)) w.
Proof. reflexivity. Qed.

Lemma run_get_state w : get_state w = Done (st w) w.
Proof. reflexivity. Qed.

Lemma run_put_state s w : put_state s w = Done tt {| st := s; log := log w |}.
Proof. reflexivity. Qed.

Lemma run_emit e w :
  emit e w = Done tt {| st := st w; log := log w ++ [e] |}.
Proof. reflexivity. Qed.

Lemma run_call {R} e (f : State -> R * State) w :
  call e f w = Done (f (st w)).1 {| st := (f (st w)).2; log := log w ++ [e] |}.
Proof. unfold call. destruct (f (st w)). reflexivity. Qed.

Lemma run_modify_agent f w :
  modify_agent f w = Done tt {| st := set_agent f (st w); log := log w |}.
Proof. reflexivity. Qed.

Lemma run_load_stream p s w :
  stream_mem (st w) !! p = Some s -> load_stream p w = Done s w.
Proof. apply load_done. Qed.

Lemma run_load_component p c w :
  component_mem (st w) !! p = Some c -> load_component p w = Done c w.
Proof. apply load_done. Qed.

Lemma run_load_discovery p d w :
  discovery_mem (st w) !! p = Some d -> load_discovery p w = Done d w.
Proof. apply load_done. Qed.

Lemma run_load_candidate p c w :
  candidate_mem (st w) !! p = Some c -> load_candidate p w = Done c w.
Proof. apply load_done. Qed.

Lemma run_modify_stream p f s w :
  stream_mem (st w) !! p = Some s ->
  modify_stream p f w
  = Done tt {| st := set_stream_mem (fun m => <[p := f s]> m) (st w);
               log := log w |}.
Proof.
  intros Hs. unfold modify_stream.
  rewrite (bind_done _ _ _ _ _ (run_load_stream p s w Hs)). reflexivity.
Qed.

Lemma run_modify_component p f c w :
  component_mem (st w) !! p = Some c ->
  modify_component p f w
  = Done tt {| st := set_component_mem (fun m => <[p := f c]> m) (st w);
               log := log w |}.
Proof.
  intros Hc. unfold modify_component.
  rewrite (bind_done _ _ _ _ _ (run_load_component p c w Hc)). reflexivity.
Qed.

Lemma run_modify_discovery p f d w :
  discovery_mem (st w) !! p = Some d ->
  modify_discovery p f w
  = Done tt {| st := set_discovery_mem (fun m => <[p := f d]> m) (st w);
               log := log w |}.
Proof.
  intros Hd. unfold modify_discovery.
  rewrite (bind_done _ _ _ _ _ (run_load_discovery p d w Hd)). reflexivity.
Qed.

Lemma run_modify_candidate p f c w :
  candidate_mem (st w) !! p = Some c ->
  modify_candidate p f w
  = Done tt {| st := set_candidate_mem (fun m => <[p := f c]> m) (st w);
               log := log w |}.
Proof.
  intros Hc. unfold modify_candidate.
  rewrite (bind_done _ _ _ _ _ (run_load_candidate p c w Hc)). reflexivity.
Qed.

(** With nothing left in the allocator's plan every allocation succeeds. *)
Lemma run_allocate w : alloc_plan (st w) = [] -> allocate w = Done true w.
Proof. unfold allocate. intros ->. reflexivity. Qed.

Lemma run_g_slist_append {A} (l : list A) x w :
  alloc_plan (st w) = [] -> g_slist_append l x w = Done (Some (l ++ [x])) w.
Proof.
  intros Hp. unfold g_slist_append.
  rewrite (bind_done _ _ _ _ _ (run_allocate w Hp)). reflexivity.
Qed.

Lemma run_g_slice_new0_CandidateDiscovery w :
  alloc_plan (st w) = [] ->
  g_slice_new0_CandidateDiscovery w
  = Done (Some (fresh (dom (discovery_mem (st w)))))
      {| st := set_discovery_mem
                 (fun m => <[fresh (dom (discovery_mem (st w)))
                               := zeroed_discovery]> m) (st w);
         log := log w |}.
Proof.
  intros Hp. unfold g_slice_new0_CandidateDiscovery.
  rewrite (bind_done _ _ _ _ _ (run_allocate w Hp)). reflexivity.
Qed.

End Facts.

(** One step of a computation: the first action of the [bind] at the head
    of the goal is run by [tac], and the goal goes on with the rest. *)
Ltac step_by tac :=
  lazymatch goal with
  | |- context [bind (bind ?m ?k1) ?k2 ?w] => rewrite (bind_assoc m k1 k2 w)
  | |- context [bind ?m ?k ?w] =>
      erewrite (bind_done m k w) by tac; cbn [st log]
  end.

#[local] Hint Resolve run_ret run_get_agent run_get_state run_put_state
  run_emit run_call run_modify_agent run_load_stream run_load_component
  run_load_discovery run_load_candidate run_modify_stream
  run_modify_component run_modify_discovery run_modify_candidate
  run_allocate run_g_slist_append run_g_slice_new0_CandidateDiscovery
  : agent_run.

(** Projections out of explicit states. *)
Ltac state_simpl :=
  cbn [st log agent stream_mem component_mem discovery_mem candidate_mem
       alloc_plan set_agent set_stream_mem set_component_mem
       set_discovery_mem set_candidate_mem set_alloc_plan].

#[local] Hint Extern 2 (_ !! _ = Some _) =>
  state_simpl; first [eassumption | apply lookup_insert_eq] : agent_run.
#[local] Hint Extern 2 (alloc_plan _ = []) =>
  state_simpl; eassumption : agent_run.

Ltac step := step_by ltac:(eauto with agent_run); state_simpl.

Section Sending.
Context `{Collaborators}.

(** ** Sending *)

(** What [nice_agent_send] does on a component that exists: without a
    selected pair nothing is sent and the result is -1; with one, the
    payload goes to the socket of the local candidate for the address of
    the remote one, [media_after_tick] is set and the length comes back
    converted to [gint]. *)
Lemma nice_agent_send_found sid cid len buf w sp cp c :
  agent_find_component sid cid w
    = Done (true, Assigned (Some sp), Assigned (Some cp)) w ->
  component_mem (st w) !! cp = Some c ->
  (pair_local (selected_pair c) = None ->
   nice_agent_send sid cid len buf w = Done (-1) w) /\
  (forall l r lc rc sock,
     pair_local (selected_pair c) = Some l ->
     pair_remote (selected_pair c) = Some r ->
     candidate_mem (st w) !! l = Some lc ->
     candidate_mem (st w) !! r = Some rc ->
     cand_sockptr lc = Some sock ->
     nice_agent_send sid cid len buf w
       = Done (to_gint len)
           {| st := set_component_mem
                      (fun m => <[cp := with_media_after_tick TRUE c]> m) (st w);
              log := log w ++ [Udp_send sock (cand_addr rc) len buf] |}).
Proof.
  intros Hfind Hc. split.
  - intros Hnone. unfold nice_agent_send.
    rewrite (bind_done _ _ _ _ _ Hfind). cbn.
    rewrite (bind_done _ _ w c w) by (apply load_done; exact Hc).
    rewrite Hnone. reflexivity.
  - intros l r lc rc sock Hl Hr Hlc Hrc Hsock. unfold nice_agent_send.
    rewrite (bind_done _ _ _ _ _ Hfind). cbn.
    rewrite (bind_done _ _ w c w) by (apply load_done; exact Hc).
    rewrite Hl, Hr. cbn.
    rewrite (bind_done _ _ w rc w) by (apply load_done; exact Hrc).
    rewrite (bind_done _ _ w lc w) by (apply load_done; exact Hlc).
    rewrite Hsock.
    run. rewrite Hc. reflexivity.
Qed.

(** C1 (as amended).  On a component without a selected pair
    [nice_agent_send] sends nothing, changes nothing and returns -1.  On a
    component with a selected pair it hands the payload to the socket of
    the selected local candidate for the address of the selected remote
    candidate, sets [media_after_tick] to TRUE, and returns the payload
    length, provided the length fits the [gint] result (at most
    [G_MAXINT]). *)
Theorem nice_agent_send_selected_pair sid cid len buf w sp cp c :
  agent_find_component sid cid w
    = Done (true, Assigned (Some sp), Assigned (Some cp)) w ->
  component_mem (st w) !! cp = Some c ->
  0 <= len <= G_MAXINT ->
  (pair_local (selected_pair c) = None ->
   nice_agent_send sid cid len buf w = Done (-1) w) /\
  (forall l r lc rc sock,
     pair_local (selected_pair c) = Some l ->
     pair_remote (selected_pair c) = Some r ->
     candidate_mem (st w) !! l = Some lc ->
     candidate_mem (st w) !! r = Some rc ->
     cand_sockptr lc = Some sock ->
     nice_agent_send sid cid len buf w
       = Done len
           {| st := set_component_mem
                      (fun m => <[cp := with_media_after_tick TRUE c]> m) (st w);
              log := log w ++ [Udp_send sock (cand_addr rc) len buf] |}).
Proof.
  intros Hfind Hc Hlen.
  destruct (nice_agent_send_found sid cid len buf w sp cp c Hfind Hc)
    as [Hnone Hsome].
  split; [exact Hnone|].
  intros l r lc rc sock Hl Hr Hlc Hrc Hsock.
  rewrite (Hsome l r lc rc sock Hl Hr Hlc Hrc Hsock).
  rewrite to_gint_small by exact Hlen. reflexivity.
Qed.

End Sending.

(** A payload of 2^31 octets. *)
Lemma big_payload_length :
  Z.of_nat (length (replicate (Z.to_nat 2147483648) 0)) = 2147483648.
Proof. rewrite length_replicate. apply Z2Nat.id. lia. Qed.

(** C1, witness: a five-octet payload on the paired loopback component. *)
Lemma nice_agent_send_selected_pair_witness :
  nice_agent_send 1 1 5 [1; 2; 3; 4; 5] Loopback.paired
  = Done 5
      {| st := set_component_mem
                 (fun m => <[1%positive := with_media_after_tick TRUE
                                             Loopback.paired_component]> m)
                 (st Loopback.paired);
         log := log Loopback.paired
                ++ [Udp_send {| fileno := 1 |}
                      (cand_addr Loopback.paired_remote) 5 [1; 2; 3; 4; 5]] |}.
Proof.
  apply (proj2 (nice_agent_send_selected_pair 1 1 5 [1; 2; 3; 4; 5]
           Loopback.paired 1%positive 1%positive Loopback.paired_component
           ltac:(vm_compute; reflexivity) ltac:(vm_compute; reflexivity)
           ltac:(unfold G_MAXINT; lia))
           1%positive 2%positive Loopback.paired_local Loopback.paired_remote
           {| fileno := 1 |});
    vm_compute; reflexivity.
Defined.

(** C1, counterexample: on the paired loopback component a payload of 2^31
    octets is sent, and the value returned is -2^31, not the length. *)
Lemma nice_agent_send_length_wraps :
  nice_agent_send 1 1 2147483648 (replicate (Z.to_nat 2147483648) 0)
    Loopback.paired
  = Done (-2147483648)
      {| st := set_component_mem
                 (fun m => <[1%positive := with_media_after_tick TRUE
                                             Loopback.paired_component]> m)
                 (st Loopback.paired);
         log := log Loopback.paired
                ++ [Udp_send {| fileno := 1 |}
                      (cand_addr Loopback.paired_remote) 2147483648
                      (replicate (Z.to_nat 2147483648) 0)] |}.
Proof.
  apply (proj2 (nice_agent_send_found 1 1 2147483648
           (replicate (Z.to_nat 2147483648) 0)
           Loopback.paired 1%positive 1%positive Loopback.paired_component
           ltac:(vm_compute; reflexivity) ltac:(vm_compute; reflexivity))
           1%positive 2%positive Loopback.paired_local Loopback.paired_remote
           {| fileno := 1 |});
    vm_compute; reflexivity.
Qed.

Section Lookup.
Context `{Collaborators}.

(** ** Lookups *)

(** The lookups read the stores and change nothing. *)
Lemma find_component_by_id_from_pure i id w r w' :
  find_component_by_id_from i id w = Done r w' -> w' = w.
Proof.
  revert w. induction i as [|p next IH]; intros w; cbn.
  - unfold ret. congruence.
  - unfold bind, load_component, load.
    destruct (component_mem (st w) !! p) as [c|]; [|discriminate].
    destruct (comp_id c =? id); [unfold ret; congruence | apply IH].
Qed.

Lemma stream_find_component_by_id_pure stream id w r w' :
  stream_find_component_by_id stream id w = Done r w' -> w' = w.
Proof.
  unfold stream_find_component_by_id, bind, load_stream, load.
  destruct (stream_mem (st w) !! stream) as [s|]; [|discriminate].
  apply find_component_by_id_from_pure.
Qed.

Lemma agent_find_stream_from_pure i id w r w' :
  agent_find_stream_from i id w = Done r w' -> w' = w.
Proof.
  revert w. induction i as [|p next IH]; intros w; cbn.
  - unfold ret. congruence.
  - unfold bind, load_stream, load.
    destruct (stream_mem (st w) !! p) as [s|]; [|discriminate].
    destruct (stream_id s =? id); [unfold ret; congruence | apply IH].
Qed.

Lemma agent_find_stream_pure id w r w' :
  agent_find_stream id w = Done r w' -> w' = w.
Proof.
  unfold agent_find_stream, bind, get_agent. apply agent_find_stream_from_pure.
Qed.

(** What they find depends on the stream and component stores alone. *)
Lemma find_component_by_id_from_frame i id w1 w2 :
  component_mem (st w1) = component_mem (st w2) ->
  forall r, find_component_by_id_from i id w1 = Done r w1 ->
            find_component_by_id_from i id w2 = Done r w2.
Proof.
  intros Hc. induction i as [|p next IH]; intros r; cbn.
  - unfold ret. congruence.
  - unfold bind, load_component, load. rewrite <- Hc.
    destruct (component_mem (st w1) !! p) as [c|]; [|discriminate].
    destruct (comp_id c =? id); [unfold ret; congruence | apply IH].
Qed.

Lemma stream_find_component_by_id_frame stream id w1 w2 r :
  stream_mem (st w1) = stream_mem (st w2) ->
  component_mem (st w1) = component_mem (st w2) ->
  stream_find_component_by_id stream id w1 = Done r w1 ->
  stream_find_component_by_id stream id w2 = Done r w2.
Proof.
  intros Hs Hc. unfold stream_find_component_by_id, bind, load_stream, load.
  rewrite <- Hs.
  destruct (stream_mem (st w1) !! stream) as [s|]; [|discriminate].
  apply find_component_by_id_from_frame. exact Hc.
Qed.

Lemma agent_find_stream_from_frame i id w1 w2 :
  stream_mem (st w1) = stream_mem (st w2) ->
  forall r, agent_find_stream_from i id w1 = Done r w1 ->
            agent_find_stream_from i id w2 = Done r w2.
Proof.
  intros Hs. induction i as [|p next IH]; intros r; cbn.
  - unfold ret. congruence.
  - unfold bind, load_stream, load. rewrite <- Hs.
    destruct (stream_mem (st w1) !! p) as [s|]; [|discriminate].
    destruct (stream_id s =? id); [unfold ret; congruence | apply IH].
Qed.

(** ** Sending to a stream or component that does not exist *)

(** With no stream of that id, [component] is never assigned and the
    test of [component->selected_pair.local] reads through it. *)
Lemma nice_agent_send_unknown_stream sid cid len buf w :
  agent_find_stream sid w = Done None w ->
  nice_agent_send sid cid len buf w = Crash IndeterminateRead.
Proof.
  intros Hfind. unfold nice_agent_send, agent_find_component.
  unfold bind at 1. unfold bind at 1. rewrite Hfind. reflexivity.
Qed.

(** With the stream but no component of that id, [component] is NULL. *)
Lemma nice_agent_send_unknown_component sid cid len buf w sp :
  agent_find_component sid cid w
    = Done (true, Assigned (Some sp), Assigned None) w ->
  nice_agent_send sid cid len buf w = Crash NullDereference.
Proof.
  intros Hfind. unfold nice_agent_send.
  rewrite (bind_done _ _ _ _ _ Hfind). reflexivity.
Qed.

End Lookup.

(** C10, on the code: a call of [nice_agent_send] for a stream the agent
    does not have reads the unassigned [component] pointer, and for a
    component the stream does not have it reads through NULL; neither
    returns -1. *)
Theorem nice_agent_send_lookup_unchecked :
  nice_agent_send 1 1 4 [1; 2; 3; 4] (Loopback.new_world false)
    = Crash IndeterminateRead /\
  nice_agent_send 1 2 4 [1; 2; 3; 4] Loopback.one_stream
    = Crash NullDereference.
Proof.
  split.
  - apply nice_agent_send_unknown_stream. vm_compute. reflexivity.
  - apply (nice_agent_send_unknown_component 1 2 _ _ _ 1%positive).
    vm_compute. reflexivity.
Qed.

Section Discovery.
Context `{Collaborators}.

(** ** Enqueuing a server-reflexive discovery *)

(** With every allocation succeeding, [priv_add_srv_rfx_candidate_discovery]
    links the new record into [agent->discovery_list] twice, once before
    and once after filling it in, and counts it once. *)
Lemma priv_add_srv_rfx_candidate_discovery_appends_twice
    hc ip server_port stream cid address w c sock comp :
  alloc_plan (st w) = [] ->
  candidate_mem (st w) !! hc = Some c ->
  cand_sockptr c = Some sock ->
  stream_find_component_by_id stream cid w = Done comp w ->
  let p := fresh (dom (discovery_mem (st w))) in
  exists w',
    priv_add_srv_rfx_candidate_discovery hc ip server_port stream cid address w
      = Done true w' /\
    discovery_list (agent (st w'))
      = discovery_list (agent (st w)) ++ [p; p] /\
    discovery_unsched_items (agent (st w'))
      = to_guint (discovery_unsched_items (agent (st w)) + 1) /\
    discovery_mem (st w') !! p
      = Some {| disc_type := NICE_CANDIDATE_TYPE_SERVER_REFLEXIVE;
                disc_socket := fileno sock; disc_nicesock := Some sock;
                disc_server_addr := Some ip; disc_server_port := server_port;
                disc_interface := Some address; disc_stream := Some stream;
                disc_component := comp;
                disc_pending := FALSE; disc_done := FALSE |} /\
    log w' = log w /\
    fenced (st w) (st w').
Proof.
  intros Hplan Hhc Hsock Hfind p.
  unfold priv_add_srv_rfx_candidate_discovery.
  repeat step. rewrite Hsock. repeat step.
  step_by ltac:(eapply stream_find_component_by_id_frame;
                [| | exact Hfind]; reflexivity).
  repeat step.
  eexists. split; [reflexivity|]. state_simpl.
  cbn [discovery_list discovery_unsched_items with_discovery_list
       with_discovery_unsched_items].
  rewrite <- app_assoc, lookup_insert_eq.
  repeat (split; [reflexivity|]).
  repeat (split; [reflexivity|]). split; [|auto].
  intros _. right. cbn.
  intros E. apply app_eq_nil in E as [_ E]. discriminate E.
Qed.

End Discovery.

(** C2, on the code: on a full-mode loopback agent with a STUN server and
    one local address, [nice_agent_add_stream] for one component leaves the
    one discovery record linked twice in the discovery list, with one
    unscheduled item counted. *)
Theorem discovery_record_linked_twice :
  discovery_list (agent (st Loopback.one_stream_with_stun))
    = [1%positive; 1%positive] /\
  discovery_unsched_items (agent (st Loopback.one_stream_with_stun)) = 1 /\
  size (dom (discovery_mem (st Loopback.one_stream_with_stun))) = 1%nat.
Proof. repeat split; vm_compute; reflexivity. Qed.

Section Receiving.
Context `{Collaborators}.

(** ** The inbound dispatcher *)

(** C3 (as amended).  The dispatcher keeps the result of
    [nice_udp_socket_recv] as a [guint] length.  A datagram of length 0, or
    longer than the caller's buffer, is dropped: 0 octets are returned and
    nothing else happens; so is a failed receive (a negative result) into a
    buffer of less than 2^31 octets, whose length wraps around to more than
    the buffer holds.  For every other datagram: if the top two bits of its
    first byte are 10 its length is returned as media; otherwise, if it
    validates as a STUN message, it is passed to the connectivity-check
    inbound handler and 0 is returned; otherwise its length is returned
    unchanged. *)
Theorem nice_agent_recv_dispatch stream component sock buf_len buf w
    result from buf' :
  nice_udp_socket_recv sock buf_len buf = (result, from, buf') ->
  let len := to_guint result in
  let received := {| st := st w; log := log w ++ [Udp_recv sock buf_len] |} in
  (len = 0 \/ buf_len < len ->
   _nice_agent_recv stream component sock buf_len buf w
     = Done (0, buf') received) /\
  (G_MININT <= result < 0 -> 0 <= buf_len <= G_MAXINT ->
   _nice_agent_recv stream component sock buf_len buf w
     = Done (0, buf') received) /\
  (len <> 0 -> len <= buf_len ->
   forall b0 rest, buf' = b0 :: rest -> 0 <= b0 < 256 ->
     (Z.land b0 0xc0 = 0x80 ->
      _nice_agent_recv stream component sock buf_len buf w
        = Done (len, buf') received) /\
     (Z.land b0 0xc0 <> 0x80 -> 0 < stun_validate buf' len ->
      _nice_agent_recv stream component sock buf_len buf w
        = Done (0, buf')
            {| st := (conn_check_handle_inbound_stun stream component sock
                        from buf' len (st w)).2;
               log := log received
                      ++ [Call_conn_check_handle_inbound_stun stream
                            component sock from buf' len] |}) /\
     (Z.land b0 0xc0 <> 0x80 -> stun_validate buf' len <= 0 ->
      _nice_agent_recv stream component sock buf_len buf w
        = Done (len, buf') received)).
Proof.
  intros Hrecv len received. unfold _nice_agent_recv. rewrite Hrecv.
  fold len.
  assert (Hwraps : G_MININT <= result < 0 -> 0 <= buf_len <= G_MAXINT ->
                   buf_len < len).
  { intros Hneg Hbuf. unfold len, to_guint.
    rewrite <- (Z_mod_plus_full result 1 guint_modulus).
    rewrite Z.mod_small;
      unfold guint_modulus, G_MININT, G_MAXINT in *; lia. }
  assert (Hlong : buf_len < len -> (buf_len <? len) = true)
    by (intros Hl; apply Z.ltb_lt; exact Hl).
  split; [|split].
  - intros [Hzero | Hl]; step.
    + rewrite Hzero. reflexivity.
    + destruct (len =? 0); [reflexivity|]. rewrite (Hlong Hl). reflexivity.
  - intros Hneg Hbuf. step.
    destruct (len =? 0); [reflexivity|].
    rewrite (Hlong (Hwraps Hneg Hbuf)). reflexivity.
  - intros Hlen Hfit b0 rest -> Hb0.
    replace (len =? 0) with false by (symmetry; apply Z.eqb_neq; lia).
    replace (buf_len <? len) with false by (symmetry; apply Z.ltb_ge; lia).
    rewrite gchar_top_bits by exact Hb0.
    repeat split.
    + intros Hrtp. step.
      replace (Z.land b0 192 =? 128) with true
        by (symmetry; apply Z.eqb_eq; exact Hrtp).
      reflexivity.
    + intros Hrtp Hstun. step.
      replace (Z.land b0 192 =? 128) with false
        by (symmetry; apply Z.eqb_neq; exact Hrtp).
      replace (0 <? stun_validate (b0 :: rest) len) with true
        by (symmetry; apply Z.ltb_lt; exact Hstun).
      step. reflexivity.
    + intros Hrtp Hstun. step.
      replace (Z.land b0 192 =? 128) with false
        by (symmetry; apply Z.eqb_neq; exact Hrtp).
      replace (0 <? stun_validate (b0 :: rest) len) with false
        by (symmetry; apply Z.ltb_ge; exact Hstun).
      reflexivity.
Qed.

End Receiving.

(** C3, witness: on the loopback socket 2 a four-octet STUN-like datagram
    arrives in a buffer of eight; it goes to the inbound handler and the
    caller gets 0 octets. *)
Lemma nice_agent_recv_dispatch_witness :
  _nice_agent_recv (H := Loopback.env) 1%positive 1%positive {| fileno := 2 |} 8 (replicate 8 0) Loopback.one_stream
  = Done (0, [0; 1; 0; 0; 0; 0; 0; 0])
      {| st := st Loopback.one_stream;
         log := (log Loopback.one_stream ++ [Udp_recv {| fileno := 2 |} 8])
                ++ [Call_conn_check_handle_inbound_stun 1%positive 1%positive {| fileno := 2 |}
                      Loopback.sender [0; 1; 0; 0; 0; 0; 0; 0] 4] |}.
Proof.
  refine (proj1 (proj2 (proj2 (proj2 (nice_agent_recv_dispatch
            (H := Loopback.env) 1%positive 1%positive {| fileno := 2 |}
            8 (replicate 8 0) Loopback.one_stream 4 Loopback.sender
            [0; 1; 0; 0; 0; 0; 0; 0] eq_refl)) _ _ 0 [1; 0; 0; 0; 0; 0; 0]
            eq_refl _)) _ _); vm_compute; intuition discriminate.
Defined.

(** C3, counterexample: on the loopback socket 1 a four-octet datagram whose
    first byte is 0x80 (top bits 10) arrives in a buffer of two; the caller
    gets 0 octets, not the payload length. *)
Lemma nice_agent_recv_drops_long_datagram :
  Z.land 0x80 0xc0 = 0x80 /\
  nice_udp_socket_recv (Collaborators := Loopback.env) {| fileno := 1 |} 2 [0; 0]
    = (4, Loopback.sender, [0x80; 0x01]) /\
  _nice_agent_recv (H := Loopback.env) 1%positive 1%positive {| fileno := 1 |} 2 [0; 0] Loopback.one_stream
    = Done (0, [0x80; 0x01])
        {| st := st Loopback.one_stream;
           log := log Loopback.one_stream ++ [Udp_recv {| fileno := 1 |} 2] |}.
Proof. repeat split; vm_compute; reflexivity. Qed.

(** A failed receive: the socket layer reports -1, the dispatcher's length
    is 4294967295, more than the eight octets of the buffer, and the caller
    gets 0. *)
Example nice_agent_recv_failed_receive :
  fst (fst (nice_udp_socket_recv (Collaborators := Offline.env)
              {| fileno := 1 |} 8 (replicate 8 0))) = -1 /\
  to_guint (-1) = 4294967295 /\
  _nice_agent_recv (H := Offline.env) 1%positive 1%positive {| fileno := 1 |}
    8 (replicate 8 0) Loopback.one_stream
  = Done (0, replicate 8 0)
      {| st := st Loopback.one_stream;
         log := log Loopback.one_stream ++ [Udp_recv {| fileno := 1 |} 8] |}.
Proof. repeat split; vm_compute; reflexivity. Qed.

Section Signals.

(** ** The initial-binding-request-received signal *)

Lemma agent_signal_initial_binding_request_received_first stream w s :
  stream_mem (st w) !! stream = Some s ->
  initial_binding_request_received s <> TRUE ->
  agent_signal_initial_binding_request_received stream w
  = Done tt
      {| st := set_stream_mem
                 (fun m => <[stream :=
                    with_initial_binding_request_received TRUE s]> m) (st w);
         log := log w ++ [Emit_initial_binding_request_received (stream_id s)] |}.
Proof.
  intros Hs Hflag. unfold agent_signal_initial_binding_request_received.
  step.
  replace (initial_binding_request_received s =? TRUE) with false
    by (symmetry; apply Z.eqb_neq; exact Hflag).
  cbn [negb]. step. reflexivity.
Qed.

Lemma agent_signal_initial_binding_request_received_again stream w :
  flag_raised stream w ->
  agent_signal_initial_binding_request_received stream w = Done tt w.
Proof.
  intros (s & Hs & Hflag).
  unfold agent_signal_initial_binding_request_received.
  step. rewrite Hflag. reflexivity.
Qed.

(** Whatever the flag was, after a call it is raised, and at most one signal
    was emitted: none when it was raised already. *)
Lemma agent_signal_initial_binding_request_received_step stream w w1 :
  agent_signal_initial_binding_request_received stream w = Done tt w1 ->
  flag_raised stream w1 /\
  (length (new_events w w1) <= 1)%nat /\
  (flag_raised stream w -> length (new_events w w1) = 0%nat).
Proof.
  intros Hcall.
  destruct (stream_mem (st w) !! stream) as [s|] eqn:Hs.
  - destruct (Z.eq_dec (initial_binding_request_received s) TRUE) as [Hset|Hclear].
    + assert (Hraised : flag_raised stream w) by (exists s; auto).
      rewrite (agent_signal_initial_binding_request_received_again _ _ Hraised)
        in Hcall.
      injection Hcall as <-. unfold new_events. rewrite drop_all.
      repeat split; auto.
    + rewrite (agent_signal_initial_binding_request_received_first _ _ _ Hs Hclear)
        in Hcall.
      injection Hcall as <-. unfold new_events. cbn [log st].
      rewrite drop_app_length. split; [|split].
      * eexists. split; [state_simpl; apply lookup_insert_eq | reflexivity].
      * cbn. lia.
      * intros (s' & Hs' & Hflag'). congruence.
  - unfold agent_signal_initial_binding_request_received, bind, load_stream,
      load in Hcall. rewrite Hs in Hcall. discriminate.
Qed.

(** C6.  The first call of [agent_signal_initial_binding_request_received]
    for a stream (its flag not yet TRUE) sets the flag and emits the signal
    with the stream's id; a call that finds the flag raised does nothing; and
    over any life of the stream at most one signal is emitted for it, none
    once the flag is raised. *)
Theorem initial_binding_request_received_once stream :
  (forall w s,
     stream_mem (st w) !! stream = Some s ->
     initial_binding_request_received s <> TRUE ->
     agent_signal_initial_binding_request_received stream w
     = Done tt
         {| st := set_stream_mem
                    (fun m => <[stream :=
                       with_initial_binding_request_received TRUE s]> m) (st w);
            log := log w
                   ++ [Emit_initial_binding_request_received (stream_id s)] |}) /\
  (forall w,
     flag_raised stream w ->
     agent_signal_initial_binding_request_received stream w = Done tt w) /\
  (forall w n w',
     stream_life stream w n w' ->
     (n <= 1)%nat /\ (flag_raised stream w -> n = 0%nat)).
Proof.
  split; [|split].
  - apply agent_signal_initial_binding_request_received_first.
  - apply agent_signal_initial_binding_request_received_again.
  - intros w n w' Hlife.
    induction Hlife as [w | w w1 w2 n Hcall Hlife [IHle IHzero]
                          | w w1 w2 n Hkeep Hlife [IHle IHzero]].
    + split; [lia | reflexivity].
    + destruct (agent_signal_initial_binding_request_received_step _ _ _ Hcall)
        as (Hraised & Hone & Hnone).
      specialize (IHzero Hraised). subst n. split; [lia|].
      intros Hw. rewrite (Hnone Hw). reflexivity.
    + split; [exact IHle|]. intros Hw. apply IHzero, Hkeep, Hw.
Qed.

End Signals.

(** Two inbound binding requests for the loopback stream: one signal. *)
Example initial_binding_request_received_twice :
  new_events Loopback.one_stream
    (Loopback.world_after
       (agent_signal_initial_binding_request_received 1%positive ;;
        agent_signal_initial_binding_request_received 1%positive)
       Loopback.one_stream)
  = [Emit_initial_binding_request_received 1].
Proof. vm_compute. reflexivity. Qed.

(** ** What a computation logs, keeps and reads *)

Section Effects.
Context {A B : Type}.

Lemma new_events_app w w' evs : log w' = log w ++ evs -> new_events w w' = evs.
Proof. unfold new_events. intros ->. apply drop_app_length. Qed.

Lemma logs_weaken (P Q : event -> Prop) (m : M A) :
  (forall e, P e -> Q e) -> logs P m -> logs Q m.
Proof.
  intros HPQ Hm w a w' Hrun. destruct (Hm w a w' Hrun) as (evs & Hlog & Hev).
  exists evs. split; [exact Hlog|]. eapply Forall_impl; eauto.
Qed.

Lemma reads_logs (P : event -> Prop) (m : M A) : reads m -> logs P m.
Proof.
  intros Hm w a w' Hrun. rewrite (Hm w a w' Hrun). exists [].
  split; [symmetry; apply app_nil_r | constructor].
Qed.

Lemma reads_keeps (R : State -> State -> Prop) (m : M A) :
  (forall s, R s s) -> reads m -> keeps R m.
Proof. intros Hrefl Hm w a w' Hrun. rewrite (Hm w a w' Hrun). apply Hrefl. Qed.

Lemma logs_bind (P : event -> Prop) (m : M A) (k : A -> M B) :
  logs P m -> (forall a, logs P (k a)) -> logs P (bind m k).
Proof.
  intros Hm Hk w b w' Hrun. unfold bind in Hrun.
  destruct (m w) as [a w1|] eqn:Hmw; [|discriminate].
  destruct (Hm w a w1 Hmw) as (evs1 & Hlog1 & Hev1).
  destruct (Hk a w1 b w' Hrun) as (evs2 & Hlog2 & Hev2).
  exists (evs1 ++ evs2). split.
  - rewrite Hlog2, Hlog1. symmetry. apply app_assoc.
  - apply Forall_app. auto.
Qed.

Lemma keeps_bind (R : State -> State -> Prop) (m : M A) (k : A -> M B) :
  (forall s1 s2 s3, R s1 s2 -> R s2 s3 -> R s1 s3) ->
  keeps R m -> (forall a, keeps R (k a)) -> keeps R (bind m k).
Proof.
  intros Htrans Hm Hk w b w' Hrun. unfold bind in Hrun.
  destruct (m w) as [a w1|] eqn:Hmw; [|discriminate].
  eapply Htrans; [eapply Hm | eapply Hk]; eauto.
Qed.

Lemma reads_bind (m : M A) (k : A -> M B) :
  reads m -> (forall a, reads (k a)) -> reads (bind m k).
Proof.
  intros Hm Hk w b w' Hrun. unfold bind in Hrun.
  destruct (m w) as [a w1|] eqn:Hmw; [|discriminate].
  rewrite (Hk a w1 b w' Hrun). exact (Hm w a w1 Hmw).
Qed.

Lemma reads_ret (a : A) : reads (ret a).
Proof. intros w a' w' Hrun. injection Hrun as _ <-. reflexivity. Qed.

Lemma reads_crash f : reads (@crash A f).
Proof. intros w a w' Hrun. discriminate. Qed.

Lemma reads_load (mem : State -> gmap addr A) p : reads (load mem p).
Proof.
  intros w a w' Hrun. unfold load in Hrun.
  destruct (mem (st w) !! p); [|discriminate]. injection Hrun as _ <-.
  reflexivity.
Qed.

Lemma logs_emit (P : event -> Prop) e : P e -> logs P (emit e).
Proof.
  intros He w a w' Hrun. injection Hrun as _ <-. exists [e].
  split; [reflexivity | repeat constructor; exact He].
Qed.

Lemma logs_call (P : event -> Prop) e (f : State -> A * State) :
  P e -> logs P (call e f).
Proof.
  intros He w a w' Hrun. unfold call in Hrun. destruct (f (st w)).
  injection Hrun as _ <-. exists [e].
  split; [reflexivity | repeat constructor; exact He].
Qed.

(** A computation that leaves the log alone. *)
Lemma logs_silent (P : event -> Prop) (m : M A) :
  (forall w a w', m w = Done a w' -> log w' = log w) -> logs P m.
Proof.
  intros Hm w a w' Hrun. exists []. rewrite app_nil_r.
  split; [eapply Hm; eauto | constructor].
Qed.

End Effects.

Lemma reads_get_agent : reads get_agent.
Proof. intros w a w' Hrun. injection Hrun as _ <-. reflexivity. Qed.

Lemma reads_get_state : reads get_state.
Proof. intros w a w' Hrun. injection Hrun as _ <-. reflexivity. Qed.

Lemma logs_put_state P s : logs P (put_state s).
Proof.
  apply logs_silent. intros w a w' Hrun. injection Hrun as _ <-. reflexivity.
Qed.

Lemma logs_allocate P : logs P allocate.
Proof.
  apply logs_silent. intros w a w' Hrun. unfold allocate in Hrun.
  destruct (alloc_plan (st w)); injection Hrun as _ <-; reflexivity.
Qed.

#[local] Hint Resolve reads_ret reads_crash reads_load reads_get_agent
  reads_get_state : agent_reads.
#[local] Hint Resolve logs_put_state logs_allocate : agent_logs.
#[local] Hint Extern 1 (reads (load_stream _)) => apply reads_load : agent_reads.
#[local] Hint Extern 1 (reads (load_component _)) => apply reads_load : agent_reads.
#[local] Hint Extern 1 (reads (load_candidate _)) => apply reads_load : agent_reads.
#[local] Hint Extern 1 (reads (load_discovery _)) => apply reads_load : agent_reads.
#[local] Hint Extern 5 (logs _ _) =>
  apply reads_logs; solve [auto with agent_reads] : agent_logs.

(** Goes through the structure of a computation for [logs]: binds are
    split, the scrutinee of a [match] or [if] is taken apart, an event is
    checked against the predicate by [tac], and the leaves are looked up in
    the hint database. *)
Ltac logs_walk tac :=
  repeat first
    [ solve [auto with agent_logs]
    | apply logs_bind; [| intros ?]
    | apply logs_emit; solve [tac]
    | apply logs_call; solve [tac]
    | lazymatch goal with
      | |- logs _ (match ?x with _ => _ end) => destruct x
      | |- logs _ (let '(_, _) := ?x in _) => destruct x
      end ].

Ltac reads_walk :=
  repeat first
    [ solve [auto with agent_reads]
    | apply reads_bind; [| intros ?]
    | lazymatch goal with
      | |- reads (match ?x with _ => _ end) => destruct x
      end ].

Section EffectsOfAgent.
Context `{Collaborators}.

Lemma reads_find_component_by_id_from i id :
  reads (find_component_by_id_from i id).
Proof. intros w a w'. apply find_component_by_id_from_pure. Qed.

Lemma reads_stream_find_component_by_id stream id :
  reads (stream_find_component_by_id stream id).
Proof. intros w a w'. apply stream_find_component_by_id_pure. Qed.

Lemma reads_agent_find_stream id : reads (agent_find_stream id).
Proof. intros w a w'. apply agent_find_stream_pure. Qed.

Lemma reads_agent_find_component sid cid : reads (agent_find_component sid cid).
Proof.
  unfold agent_find_component.
  apply reads_bind; [apply reads_agent_find_stream|]. intros [sp|].
  - apply reads_bind; [apply reads_stream_find_component_by_id|].
    intros c. apply reads_ret.
  - apply reads_ret.
Qed.

Lemma reads_deref v : reads (deref v).
Proof. destruct v as [|[p|]]; cbn; auto with agent_reads. Qed.

Lemma logs_modify_agent P f : logs P (modify_agent f).
Proof. unfold modify_agent. logs_walk idtac. Qed.

Lemma logs_modify_stream P p f : logs P (modify_stream p f).
Proof. unfold modify_stream. logs_walk idtac. Qed.

Lemma logs_modify_component P p f : logs P (modify_component p f).
Proof. unfold modify_component. logs_walk idtac. Qed.

Lemma logs_modify_discovery P p f : logs P (modify_discovery p f).
Proof. unfold modify_discovery. logs_walk idtac. Qed.

Lemma logs_modify_candidate P p f : logs P (modify_candidate p f).
Proof. unfold modify_candidate. logs_walk idtac. Qed.

Lemma logs_g_slist_append {A} P (l : list A) x : logs P (g_slist_append l x).
Proof. unfold g_slist_append. logs_walk idtac. Qed.

End EffectsOfAgent.

#[local] Hint Resolve reads_find_component_by_id_from
  reads_stream_find_component_by_id reads_agent_find_stream
  reads_agent_find_component reads_deref : agent_reads.
#[local] Hint Resolve logs_modify_agent logs_modify_stream
  logs_modify_component logs_modify_discovery logs_modify_candidate
  logs_g_slist_append : agent_logs.

Section RemoteCandidates.
Context `{Collaborators}.

(** ** Installing remote candidates *)

Lemma logs_nice_candidate_new P type : logs P (nice_candidate_new type).
Proof. unfold nice_candidate_new. logs_walk idtac. Qed.

Lemma logs_nice_candidate_free (P : event -> Prop) c :
  P (Call_nice_candidate_free c) -> logs P (nice_candidate_free c).
Proof. intros Hc. unfold nice_candidate_free. logs_walk ltac:(exact Hc). Qed.

(** Adding remote candidates never schedules connectivity checks by
    itself. *)
Lemma logs_add_remote_desc sid cid d :
  logs (fun e => e <> Call_conn_check_schedule_next) (add_remote_desc sid cid d).
Proof.
  unfold add_remote_desc, priv_add_remote_candidate.
  pose proof logs_nice_candidate_new. pose proof logs_nice_candidate_free.
  logs_walk ltac:(first [discriminate | apply logs_nice_candidate_free; discriminate]).
Qed.

Lemma logs_set_remote_candidates_from sid cid ds added :
  logs (fun e => e <> Call_conn_check_schedule_next)
    (set_remote_candidates_from sid cid ds added).
Proof.
  revert added. induction ds as [|d ds IH]; intros added; cbn.
  - auto with agent_reads agent_logs.
  - destruct (0 <=? added); [|auto with agent_reads agent_logs].
    apply logs_bind; [apply logs_add_remote_desc|]. intros [|]; [|apply IH].
    destruct (added =? G_MAXINT); [|apply IH].
    auto with agent_reads agent_logs.
Qed.

(** Once [added] is negative the loop is over. *)
Lemma set_remote_candidates_from_stopped sid cid ds added w :
  added < 0 -> set_remote_candidates_from sid cid ds added w = Done added w.
Proof.
  intros Hneg. destruct ds as [|d ds]; cbn; [reflexivity|].
  replace (0 <=? added) with false by (symmetry; apply Z.leb_gt; exact Hneg).
  reflexivity.
Qed.

(** While the descriptors are added successfully, the loop counts them. *)
Lemma set_remote_candidates_from_all_added sid cid ds w w' :
  all_added sid cid ds w w' ->
  forall rest added,
    0 <= added -> added + Z.of_nat (length ds) <= G_MAXINT ->
    set_remote_candidates_from sid cid (ds ++ rest) added w
    = set_remote_candidates_from sid cid rest
        (added + Z.of_nat (length ds)) w'.
Proof.
  induction 1 as [w | d ds w w1 w2 Hadd Hrest IH]; intros rest added Hpos Hfit.
  - cbn. rewrite Z.add_0_r. reflexivity.
  - cbn [app set_remote_candidates_from length] in *.
    replace (0 <=? added) with true by (symmetry; apply Z.leb_le; exact Hpos).
    fold (add_remote_desc sid cid d).
    rewrite (bind_done _ _ _ _ _ Hadd).
    replace (added =? G_MAXINT) with false by (symmetry; apply Z.eqb_neq; lia).
    rewrite IH by lia. f_equal. lia.
Qed.

(** The success after [G_MAXINT] successes overflows the count. *)
Lemma nice_agent_set_remote_candidates_overflow sid cid ds d rest w w1 w2 :
  all_added sid cid ds w w1 ->
  Z.of_nat (length ds) = G_MAXINT ->
  add_remote_desc sid cid d w1 = Done true w2 ->
  nice_agent_set_remote_candidates sid cid (ds ++ d :: rest) w
  = Crash SignedOverflow.
Proof.
  intros Hall Hlen Hadd. unfold nice_agent_set_remote_candidates.
  apply bind_crash.
  rewrite (set_remote_candidates_from_all_added _ _ _ _ _ Hall) by lia.
  cbn [set_remote_candidates_from]. rewrite Z.add_0_l, Hlen.
  change (0 <=? G_MAXINT) with true. cbn iota.
  fold (add_remote_desc sid cid d).
  rewrite (bind_done _ _ _ _ _ Hadd), Z.eqb_refl. reflexivity.
Qed.

(** C7 (as amended).  When every descriptor of the list is added
    successfully and their number fits an [int],
    [nice_agent_set_remote_candidates] returns their number; when adding a
    descriptor fails it returns -1 and the world it leaves is the one the
    failed addition left, no later descriptor being looked at; and the call
    schedules connectivity checks exactly when the value it returns is
    positive. *)
Theorem nice_agent_set_remote_candidates_count sid cid :
  (forall ds w w',
     all_added sid cid ds w w' ->
     Z.of_nat (length ds) <= G_MAXINT ->
     nice_agent_set_remote_candidates sid cid ds w
     = Done (Z.of_nat (length ds))
         (if 0 <? Z.of_nat (length ds)
          then {| st := (conn_check_schedule_next (st w')).2;
                  log := log w' ++ [Call_conn_check_schedule_next] |}
          else w')) /\
  (forall ds d rest w w1 w2,
     all_added sid cid ds w w1 ->
     Z.of_nat (length ds) <= G_MAXINT ->
     add_remote_desc sid cid d w1 = Done false w2 ->
     nice_agent_set_remote_candidates sid cid (ds ++ d :: rest) w
     = Done (-1) w2) /\
  (forall ds w r w',
     nice_agent_set_remote_candidates sid cid ds w = Done r w' ->
     (In Call_conn_check_schedule_next (new_events w w') <-> 0 < r)).
Proof.
  split; [|split].
  - intros ds w w' Hall Hfit. unfold nice_agent_set_remote_candidates.
    rewrite <- (app_nil_r ds) at 1.
    erewrite (bind_done (set_remote_candidates_from sid cid (ds ++ []) 0));
      [| rewrite (set_remote_candidates_from_all_added _ _ _ _ _ Hall) by lia;
         reflexivity].
    rewrite Z.add_0_l. destruct (0 <? Z.of_nat (length ds)).
    + step. reflexivity.
    + reflexivity.
  - intros ds d rest w w1 w2 Hall Hfit Hfail.
    unfold nice_agent_set_remote_candidates.
    erewrite (bind_done (set_remote_candidates_from sid cid (ds ++ d :: rest) 0)).
    2:{ rewrite (set_remote_candidates_from_all_added _ _ _ _ _ Hall) by lia.
        cbn [set_remote_candidates_from]. rewrite Z.add_0_l.
        replace (0 <=? Z.of_nat (length ds)) with true
          by (symmetry; apply Z.leb_le; lia).
        fold (add_remote_desc sid cid d).
        rewrite (bind_done _ _ _ _ _ Hfail).
        apply set_remote_candidates_from_stopped. lia. }
    reflexivity.
  - intros ds w r w' Hrun. unfold nice_agent_set_remote_candidates in Hrun.
    unfold bind at 1 in Hrun.
    destruct (set_remote_candidates_from sid cid ds 0 w) as [added w1|] eqn:Hloop;
      [|discriminate].
    destruct (logs_set_remote_candidates_from _ _ _ _ _ _ _ Hloop)
      as (evs & Hlog & Hevs).
    destruct (0 <? added) eqn:Hpos.
    + rewrite (bind_done _ _ _ _ _ (run_call _ _ w1)) in Hrun.
      injection Hrun as <- <-. cbn [log].
      rewrite (new_events_app w _ (evs ++ [Call_conn_check_schedule_next]))
        by (cbn [log]; rewrite Hlog, app_assoc; reflexivity).
      split; [intros _; apply Z.ltb_lt; exact Hpos|].
      intros _. apply in_or_app. right. left. reflexivity.
    + injection Hrun as <- <-.
      rewrite (new_events_app w w1 evs Hlog).
      split; [|intros Hr; apply Z.ltb_ge in Hpos; lia].
      intros Hin. rewrite Forall_forall in Hevs.
      exfalso. apply (Hevs _ (proj2 (list_elem_of_In _ _) Hin)). reflexivity.
Qed.

End RemoteCandidates.

(** *** On the loopback agent *)

Lemma loopback_one_stream_installable : Loopback.installable Loopback.one_stream.
Proof.
  repeat split; try (vm_compute; reflexivity);
    eexists; repeat split; vm_compute; reflexivity.
Qed.

Lemma loopback_find_component w :
  Loopback.installable w ->
  agent_find_component 1 1 w
  = Done (true, Assigned (Some 1%positive), Assigned (Some 1%positive)) w.
Proof.
  intros (Hplan & Hstreams & (s & Hs & Hid & Hcomps) & (c & Hc & Hcid)).
  unfold agent_find_component, agent_find_stream, stream_find_component_by_id.
  repeat step. rewrite Hstreams. cbn [agent_find_stream_from].
  repeat step. rewrite Hid. cbn [Z.eqb Pos.eqb]. repeat step.
  rewrite Hcomps. cbn [find_component_by_id_from]. repeat step.
  rewrite Hcid. cbn [Z.eqb Pos.eqb]. repeat step. reflexivity.
Qed.

(** A descriptor is installed in every installable world, which stays
    installable. *)
Lemma loopback_add_remote_desc w :
  Loopback.installable w ->
  exists w', add_remote_desc (H := Loopback.env) 1 1 Loopback.remote_desc w
               = Done true w' /\
             Loopback.installable w'.
Proof.
  intros Hw. pose proof (loopback_find_component w Hw) as Hfind.
  destruct Hw as (Hplan & Hstreams & (s & Hs & Hid & Hcomps) & (c & Hc & Hcid)).
  unfold add_remote_desc, priv_add_remote_candidate.
  rewrite (bind_done _ _ _ _ _ Hfind). cbn [negb].
  unfold nice_candidate_new. repeat step. cbn [deref]. repeat step.
  cbn [NDEBUG Loopback.env Loopback.remote_desc desc_addr]. repeat step.
  change (0 <? 0) with false. cbn iota.
  eexists. split; [reflexivity|].
  unfold Loopback.installable. state_simpl. cbn [fst snd].
  repeat split; try assumption.
  - exists s. auto.
  - eexists. split; [apply lookup_insert_eq | exact Hcid].
Qed.

Lemma loopback_all_added n w :
  Loopback.installable w ->
  exists w', all_added (H := Loopback.env) 1 1
               (replicate n Loopback.remote_desc) w w' /\
             Loopback.installable w'.
Proof.
  revert w. induction n as [|n IH]; intros w Hw.
  - exists w. split; [constructor | exact Hw].
  - destruct (loopback_add_remote_desc w Hw) as (w1 & Hadd & Hw1).
    destruct (IH w1 Hw1) as (w2 & Hall & Hw2).
    exists w2. split; [|exact Hw2].
    rewrite replicate_S. econstructor; eauto.
Qed.

(** C7, witness: two descriptors on component 1 of the loopback stream. *)
Lemma nice_agent_set_remote_candidates_count_witness :
  exists w',
    nice_agent_set_remote_candidates (H := Loopback.env) 1 1
      (replicate 2 Loopback.remote_desc) Loopback.one_stream
    = Done 2
        {| st := (conn_check_schedule_next (Collaborators := Loopback.env)
                    (st w')).2;
           log := log w' ++ [Call_conn_check_schedule_next] |}.
Proof.
  destruct (loopback_all_added 2 _ loopback_one_stream_installable)
    as (w' & Hall & _).
  exists w'.
  apply (proj1 (nice_agent_set_remote_candidates_count (H := Loopback.env) 1 1)
           (replicate 2 Loopback.remote_desc) Loopback.one_stream w' Hall).
  vm_compute. discriminate.
Defined.

(** C7, counterexample: 2^31 descriptors, each of them added successfully
    to component 1 of the loopback stream; the count overflows at the last
    one and no number of candidates is returned. *)
Lemma nice_agent_set_remote_candidates_overflows :
  exists w',
    all_added (H := Loopback.env) 1 1
      (replicate (Z.to_nat 2147483648) Loopback.remote_desc)
      Loopback.one_stream w' /\
    nice_agent_set_remote_candidates (H := Loopback.env) 1 1
      (replicate (Z.to_nat 2147483648) Loopback.remote_desc)
      Loopback.one_stream
    = Crash SignedOverflow.
Proof.
  destruct (loopback_all_added (Z.to_nat 2147483648) _
              loopback_one_stream_installable) as (w' & Hall & _).
  exists w'. split; [exact Hall|].
  change 2147483648 with (Z.succ 2147483647).
  rewrite Z2Nat.inj_succ by lia. rewrite replicate_S_end.
  destruct (loopback_all_added (Z.to_nat 2147483647) _
              loopback_one_stream_installable) as (w1 & Hall1 & Hw1).
  destruct (loopback_add_remote_desc w1 Hw1) as (w2 & Hadd & _).
  apply (nice_agent_set_remote_candidates_overflow (H := Loopback.env)
           1 1 _ _ [] _ w1 w2 Hall1); [|exact Hadd].
  rewrite length_replicate. unfold G_MAXINT. rewrite Z2Nat.id; lia.
Qed.

Section Gathering.
Context `{Collaborators}.

(** ** The gathering-done decision of [nice_agent_add_stream] *)














(** What the call of [discovery_schedule] does. *)
Lemma discovery_schedule_call_done w :
  discovery_schedule_call w
  = Done tt
      {| st := (discovery_schedule (st w)).2;
         log := log w ++ Call_discovery_schedule ::
                  (if discovery_schedule_signals_done (st w)
                   then [Emit_candidate_gathering_done] else []) |}.
Proof.
  unfold discovery_schedule_call.
  rewrite (bind_done _ _ _ _ _ (run_get_state w)).
  rewrite (bind_done _ _ _ _ _ (run_call _ _ w)).
  destruct (discovery_schedule_signals_done (st w)).
  - unfold agent_signal_gathering_done. rewrite run_emit. cbn [st log].
    rewrite <- app_assoc. reflexivity.
  - reflexivity.
Qed.

(** What [add_stream_conclude] adds to the log. *)
Lemma add_stream_conclude_log stream w1 id w' :
  add_stream_conclude stream w1 = Done id w' ->
  log w' = log w1 ++
    (if discovery_unsched_items (agent (st w1)) =? 0
     then [Emit_candidate_gathering_done]
     else Call_discovery_schedule ::
            (if discovery_schedule_signals_done (st w1)
             then [Emit_candidate_gathering_done] else [])).
Proof.
  unfold add_stream_conclude. intros Hrun.
  rewrite (bind_done _ _ _ _ _ (run_get_agent w1)) in Hrun.
  destruct (discovery_unsched_items (agent (st w1)) =? 0).
  - unfold agent_signal_gathering_done in Hrun.
    rewrite (bind_done _ _ _ _ _ (run_emit _ w1)) in Hrun.
    unfold bind, load_stream, load in Hrun. cbn [st log] in Hrun.
    destruct (stream_mem (st w1) !! stream); [|discriminate].
    injection Hrun as _ <-. reflexivity.
  - destruct (discovery_list (agent (st w1))); [discriminate|].
    rewrite (bind_done _ _ _ _ _ (discovery_schedule_call_done w1)) in Hrun.
    unfold bind, load_stream, load in Hrun. cbn [st log] in Hrun.
    destruct (stream_mem _ !! stream); [|discriminate].
    injection Hrun as _ <-. reflexivity.
Qed.


End Gathering.


(** In full mode with a STUN server a discovery is pending at the end of
    the call: discoveries are scheduled and no signal is emitted. *)
Example nice_agent_add_stream_schedules_discovery :
  new_events Loopback.with_address_and_stun Loopback.one_stream_with_stun
  = [Call_discovery_add_local_host_candidate 1 1
       {| addr_ipv4 := 0x7f000001; port := 0 |};
     Call_discovery_schedule].
Proof. vm_compute. reflexivity. Qed.

(** The same call with a discovery module that raises the signal from
    inside [discovery_schedule]: the signal is emitted during the call
    although a discovery is pending. *)
Example nice_agent_add_stream_signal_from_discovery :
  discovery_unsched_items
    (agent (st (Loopback.world_after (nice_agent_add_stream (H := Eager.env) 1)
                  Loopback.with_address_and_stun))) = 1 /\
  new_events Loopback.with_address_and_stun
    (Loopback.world_after (nice_agent_add_stream (H := Eager.env) 1)
       Loopback.with_address_and_stun)
  = [Call_discovery_add_local_host_candidate 1 1
       {| addr_ipv4 := 0x7f000001; port := 0 |};
     Call_discovery_schedule;
     Emit_candidate_gathering_done].
Proof. split; vm_compute; reflexivity. Qed.

Section Removing.
Context `{Collaborators}.

(** ** Removing a stream *)

Lemma destroy_sources_done j w :
  destroy_sources j w
  = Done tt {| st := st w; log := log w ++ map Source_destroy j |}.
Proof.
  revert w. induction j as [|source next IH]; intros w; cbn [destroy_sources map].
  - rewrite app_nil_r. destruct w. reflexivity.
  - step. rewrite IH. cbn [st log]. rewrite <- app_assoc. reflexivity.
Qed.

Lemma deattach_components_done cs w :
  Forall (fun c => is_Some (component_mem (st w) !! c)) cs ->
  deattach_components cs w
  = Done tt {| st := set_component_mem
                       (fun _ => detached cs (component_mem (st w))) (st w);
               log := log w ++ detach_events cs (component_mem (st w)) |}.
Proof.
  revert w. induction cs as [|c rest IH]; intros w Hcs;
    cbn [deattach_components detached detach_events].
  - rewrite app_nil_r. destruct w as [[] ?]. reflexivity.
  - inversion Hcs as [|? ? [k Hk] Hrest]; subst. rewrite Hk.
    step. rewrite (bind_done _ _ _ _ _ (destroy_sources_done _ _)).
    cbn [st log]. step.
    rewrite IH.
    + state_simpl. rewrite <- app_assoc. reflexivity.
    + state_simpl. eapply Forall_impl; [exact Hrest|]. cbn. intros q [kq Hq].
      destruct (decide (c = q)) as [->|Hne].
      * rewrite lookup_insert_eq. eauto.
      * rewrite lookup_insert_ne by exact Hne. eauto.
Qed.



(** What [priv_remove_keepalive_timer] does. *)
Lemma priv_remove_keepalive_timer_done w :
  priv_remove_keepalive_timer w
  = Done tt
      (if keepalive_timer_id (agent (st w)) =? 0 then w
       else {| st := set_agent (with_keepalive_timer_id 0) (st w);
               log := log w ++ [Source_remove (keepalive_timer_id (agent (st w)))] |}).
Proof.
  unfold priv_remove_keepalive_timer. step.
  destruct (keepalive_timer_id (agent (st w)) =? 0); cbn [negb].
  - reflexivity.
  - step. reflexivity.
Qed.

(** [nice_agent_remove_stream] on a stream the agent has. *)
Lemma nice_agent_remove_stream_found id w sp s :
  agent_find_stream id w = Done (Some sp) w ->
  stream_mem (st w) !! sp = Some s ->
  Forall (fun c => is_Some (component_mem (st w) !! c)) (components s) ->
  leaves_streams (conn_check_prune_stream id) ->
  leaves_streams (discovery_prune_stream id) ->
  let remaining := g_slist_remove (streams (agent (st w))) sp in
  let k := keepalive_timer_id (agent (st w)) in
  let freed :=
    set_stream_mem (fun m => delete sp m)
      (set_component_mem
         (fun m => foldr (fun c m' => delete c m') (detached (components s) m)
                     (components s))
         (set_agent (with_streams remaining) (pruned id (st w)))) in
  let events :=
    [Call_conn_check_prune_stream id; Call_discovery_prune_stream id]
    ++ detach_events (components s) (component_mem (st w))
    ++ [Call_stream_free sp] in
  nice_agent_remove_stream id w
  = Done tt
      (match remaining with
       | [] =>
           if k =? 0 then {| st := freed; log := log w ++ events |}
           else {| st := set_agent (with_keepalive_timer_id 0) freed;
                   log := log w ++ events ++ [Source_remove k] |}
       | _ :: _ => {| st := freed; log := log w ++ events |}
       end).
Proof.
  intros Hfind Hs Hcs Hcc Hdp remaining k freed events.
  destruct (Hcc (st w)) as (Hcc1 & Hcc2 & Hcc3 & Hcc4).
  destruct (Hdp (conn_check_prune_stream id (st w)).2)
    as (Hdp1 & Hdp2 & Hdp3 & Hdp4).
  unfold nice_agent_remove_stream.
  rewrite (bind_done _ _ _ _ _ Hfind).
  rewrite (bind_done _ _ _ _ _ (run_call _ _ _)).
  rewrite (bind_done _ _ _ _ _ (run_call _ _ _)). cbn [st log].
  fold (pruned id (st w)).
  assert (Hsm : stream_mem (pruned id (st w)) = stream_mem (st w))
    by (unfold pruned; congruence).
  assert (Hcm : component_mem (pruned id (st w)) = component_mem (st w))
    by (unfold pruned; congruence).
  assert (Hst : streams (agent (pruned id (st w))) = streams (agent (st w)))
    by (unfold pruned; congruence).
  assert (Hka : keepalive_timer_id (agent (pruned id (st w))) = k)
    by (unfold pruned, k; congruence).
  unfold priv_deattach_stream. repeat step.
  step_by ltac:(apply run_load_stream; cbn [st]; rewrite Hsm; exact Hs).
  repeat step.
  step_by ltac:(apply deattach_components_done; cbn [st]; rewrite Hcm; exact Hcs).
  step. unfold stream_free. repeat step.
  step_by ltac:(apply run_load_stream; state_simpl; rewrite Hsm; exact Hs).
  repeat step. cbn [streams with_streams]. rewrite Hst. fold remaining.
  match goal with
  | |- _ {| st := ?x; log := ?l |} = _ =>
      assert (Hx : x = freed)
        by (unfold freed, remaining, set_stream_mem, set_component_mem,
              set_agent; state_simpl; rewrite Hst; reflexivity);
      assert (Hl : l = log w ++ events)
        by (unfold events; rewrite Hcm, <- !app_assoc; reflexivity);
      rewrite Hx, Hl
  end.
  destruct remaining as [|q remaining']; [|reflexivity].
  rewrite priv_remove_keepalive_timer_done. cbn [st log].
  replace (keepalive_timer_id (agent freed)) with k
    by (unfold freed; state_simpl; cbn [keepalive_timer_id with_streams];
        symmetry; exact Hka).
  destruct (k =? 0); [reflexivity|]. rewrite <- app_assoc. reflexivity.
Qed.





End Removing.



(** With two streams, removing the first leaves the second as it was and
    the keepalive timer alone. *)
Example nice_agent_remove_stream_keeps_other :
  let two := Loopback.world_after (nice_agent_add_stream (H := Loopback.env) 1)
               Loopback.one_stream in
  let w' := Loopback.world_after (nice_agent_remove_stream (H := Loopback.env) 1)
              two in
  streams (agent (st two)) = [1%positive; 2%positive] /\
  streams (agent (st w')) = [2%positive] /\
  stream_mem (st w') !! 2%positive = stream_mem (st two) !! 2%positive /\
  component_mem (st w') !! 2%positive = component_mem (st two) !! 2%positive /\
  component_mem (st w') !! 1%positive = None.
Proof. cbv zeta. repeat apply conj; vm_compute; reflexivity. Qed.

(** ** Adding a stream: allocation *)

(** A run that cannot have given the result at hand. *)
Ltac stuck :=
  let H := fresh in intros H; cbv [ret crash bind] in H; discriminate H.

(** Brings the first action of the computation to the head. *)
Ltac assoc :=
  repeat lazymatch goal with
         | |- context [bind (bind ?m ?k1) ?k2 ?w] =>
             rewrite (bind_assoc m k1 k2 w)
         end.

(** One step, taken with the given equation. *)
Ltac step_with lem := assoc; step_by ltac:(apply lem); state_simpl.

Section Allocator.
Context `{Collaborators}.

(** The allocator in general: the head of the plan decides. *)
Lemma allocate_any w :
  allocate w
  = Done (hd true (alloc_plan (st w)))
      {| st := set_alloc_plan (tl (alloc_plan (st w))) (st w); log := log w |}.
Proof. destruct w as [[a sm cm dm km [|b pl]] lg]; reflexivity. Qed.

Lemma g_slist_append_any {A} (l : list A) x w :
  g_slist_append l x w
  = Done (if hd true (alloc_plan (st w)) then Some (l ++ [x]) else None)
      {| st := set_alloc_plan (tl (alloc_plan (st w))) (st w); log := log w |}.
Proof.
  unfold g_slist_append.
  rewrite (bind_done _ _ _ _ _ (allocate_any w)). reflexivity.
Qed.

Lemma bind_inv {A B} (m : M A) (k : A -> M B) w b w' :
  bind m k w = Done b w' ->
  exists a w1, m w = Done a w1 /\ k a w1 = Done b w'.
Proof. unfold bind. destruct (m w) as [a w1|]; [eauto | discriminate]. Qed.

Lemma component_new_done id w :
  let p := fresh (dom (component_mem (st w))) in
  exists c,
    component_new id w
    = Done p {| st := set_component_mem (fun m => <[p := c]> m) (st w);
                log := log w |}.
Proof. intros p. eexists. unfold component_new. repeat step. reflexivity. Qed.

(** [components_new] allocates its components and frees none. *)
Lemma components_new_done k id w :
  exists cs m',
    components_new k id w
    = Done cs {| st := set_component_mem (fun _ => m') (st w);
                 log := log w |} /\
    Forall (fun c => is_Some (m' !! c)) cs /\
    (forall c, is_Some (component_mem (st w) !! c) -> is_Some (m' !! c)).
Proof.
  revert id w. induction k as [|k IH]; intros id w; cbn [components_new].
  - exists [], (component_mem (st w)). split; [|split].
    + destruct w as [[] ?]. reflexivity.
    + constructor.
    + auto.
  - destruct (component_new_done id w) as (c & Hnew).
    rewrite (bind_done _ _ _ _ _ Hnew).
    match type of Hnew with _ = Done ?p ?w1 =>
      destruct (IH (id + 1) w1) as (cs & m' & Hrest & Hcs & Hold) end.
    rewrite (bind_done _ _ _ _ _ Hrest).
    exists (fresh (dom (component_mem (st w))) :: cs), m'.
    split; [reflexivity|]. cbn [st component_mem set_component_mem] in Hold.
    split.
    + constructor; [|exact Hcs]. apply Hold. rewrite lookup_insert_eq. eauto.
    + intros q Hq. apply Hold.
      destruct (decide (fresh (dom (component_mem (st w))) = q)) as [<-|Hne].
      * rewrite lookup_insert_eq. eauto.
      * rewrite lookup_insert_ne by exact Hne. exact Hq.
Qed.

(** What [add_stream_allocate] has done when it hands back a stream. *)
Lemma add_stream_allocate_some n w sp w1 :
  add_stream_allocate n w = Done (Some sp) w1 ->
  exists cs,
    stream_mem (st w) !! sp = None /\
    local_addresses (agent (st w)) <> [] /\
    agent (st w1) = linked_agent (agent (st w)) sp /\
    stream_mem (st w1)
    = <[sp := linked_stream (agent (st w)) cs]> (stream_mem (st w)) /\
    Forall (fun c => is_Some (component_mem (st w1) !! c)) cs /\
    alloc_plan (st w1) = tl (tl (alloc_plan (st w))) /\
    log w1 = log w.
Proof.
  unfold add_stream_allocate. step.
  destruct (local_addresses (agent (st w))) as [|la las] eqn:Hla.
  1: stuck.
  unfold stream_new. step_with allocate_any.
  destruct (hd true (alloc_plan (st w))); cbv iota;
    [|repeat step; stuck].
  assoc.
  match goal with |- context [bind (components_new ?k ?i) _ ?w0] =>
    destruct (components_new_done k i w0) as (cs & m' & Hcs & Hall & _) end.
  assoc. step_by ltac:(exact Hcs). state_simpl. repeat step.
  step_with @g_slist_append_any.
  destruct (hd true (tail (alloc_plan (st w)))); cbv iota.
  2:{ unfold stream_free. repeat step. stuck. }
  repeat step.
  destruct (nice_rng_generate_bytes_print (rng (agent (st w))) _)
    as [ufrag rng1] eqn:Hu.
  repeat step.
  destruct (nice_rng_generate_bytes_print rng1 _) as [pwd rng2] eqn:Hp.
  repeat step.
  intros Hrun. cbv [ret] in Hrun. injection Hrun as <- <-. exists cs.
  unfold linked_agent, linked_stream. rewrite Hu. cbn [fst snd]. rewrite Hp.
  state_simpl. cbn [fst snd].
  split; [|split; [|split; [|split; [|split; [|split]]]]].
  - apply not_elem_of_dom. apply is_fresh.
  - discriminate.
  - reflexivity.
  - rewrite !insert_insert_eq. reflexivity.
  - exact Hall.
  - reflexivity.
  - reflexivity.
Qed.

(** And when it hands back none: the agent object is as before. *)
Lemma add_stream_allocate_none n w w1 :
  add_stream_allocate n w = Done None w1 -> agent (st w1) = agent (st w).
Proof.
  unfold add_stream_allocate. step.
  destruct (local_addresses (agent (st w))) as [|la las] eqn:Hla.
  1:{ intros Hrun. cbv [ret] in Hrun. injection Hrun as <-. reflexivity. }
  unfold stream_new. step_with allocate_any.
  destruct (hd true (alloc_plan (st w))); cbv iota.
  2:{ repeat step. intros Hrun. cbv [ret] in Hrun. injection Hrun as <-.
      reflexivity. }
  assoc.
  match goal with |- context [bind (components_new ?k ?i) _ ?w0] =>
    destruct (components_new_done k i w0) as (cs & m' & Hcs & Hall & _) end.
  assoc. step_by ltac:(exact Hcs). state_simpl. repeat step.
  step_with @g_slist_append_any.
  destruct (hd true (tail (alloc_plan (st w)))); cbv iota.
  - repeat step.
    destruct (nice_rng_generate_bytes_print (rng (agent (st w))) _)
      as [ufrag rng1].
    repeat step.
    destruct (nice_rng_generate_bytes_print rng1 _) as [pwd rng2].
    repeat step. stuck.
  - unfold stream_free. repeat step.
    intros Hrun. cbv [ret] in Hrun. injection Hrun as <-. reflexivity.
Qed.

(** With a local address and the two allocations granted, a stream is
    handed back. *)
Lemma add_stream_allocate_done n w :
  local_addresses (agent (st w)) <> [] ->
  hd true (alloc_plan (st w)) = true ->
  hd true (tail (alloc_plan (st w))) = true ->
  exists sp w1, add_stream_allocate n w = Done (Some sp) w1.
Proof.
  intros Hla Hb1 Hb2. unfold add_stream_allocate. step.
  destruct (local_addresses (agent (st w))) as [|la las]; [congruence|].
  unfold stream_new. step_with allocate_any. rewrite Hb1.
  assoc.
  match goal with |- context [bind (components_new ?k ?i) _ ?w0] =>
    destruct (components_new_done k i w0) as (cs & m' & Hcs & Hall & _) end.
  assoc. step_by ltac:(exact Hcs). state_simpl. repeat step.
  step_with @g_slist_append_any. rewrite Hb2.
  repeat step.
  destruct (nice_rng_generate_bytes_print (rng (agent (st w))) _)
    as [ufrag rng1].
  repeat step.
  destruct (nice_rng_generate_bytes_print rng1 _) as [pwd rng2].
  repeat step. eexists _, _. reflexivity.
Qed.

End Allocator.

(** ** What a computation keeps *)

Section Relations.

Lemma settled_refl x : settled x x.
Proof. split; auto. Qed.

Lemma settled_trans x1 x2 x3 : settled x1 x2 -> settled x2 x3 -> settled x1 x3.
Proof. intros [H1 H2] [H3 H4]. split; [congruence | auto]. Qed.

Lemma stays_refl sp x : stays sp x x.
Proof. split; [|split; [|split; [|split]]]; auto. Qed.

Lemma stays_trans sp x1 x2 x3 :
  stays sp x1 x2 -> stays sp x2 x3 -> stays sp x1 x3.
Proof.
  intros (Ha & Hb & Hc & Hd & He) (Ha' & Hb' & Hc' & Hd' & He').
  split; [congruence|]. split; [congruence|]. split; [congruence|].
  split; [auto|]. intros q.
  destruct (He q) as [E|[E0 E]], (He' q) as [E'|[E0' E']]; rewrite E', E.
  - left. reflexivity.
  - right. split; [exact E0' | reflexivity].
  - right. split; [exact E0 | reflexivity].
  - right. split; [exact E0|]. destruct (stream_mem x1 !! q); reflexivity.
Qed.

Lemma fenced_stays sp x x' : fenced x x' -> stays sp x x'.
Proof.
  intros (Ha & Hb & Hc & Hd & _ & He & _).
  split; [|split; [|split; [|split]]]; auto.
  intros q. left. rewrite Hd. reflexivity.
Qed.

Lemma stays_settled sp x x' : stays sp x x' -> settled x x'.
Proof. intros (_ & _ & Hc & Hd & _). split; auto. Qed.

End Relations.

(** A relation the stores of the components, of the discoveries and of the
    candidates and the allocator's plan do not matter to. *)
Section Keeping.
Variable R : State -> State -> Prop.
Hypothesis R_refl : forall x, R x x.
Hypothesis R_trans : forall x1 x2 x3, R x1 x2 -> R x2 x3 -> R x1 x3.
Hypothesis R_component_mem : forall f x, R x (set_component_mem f x).
Hypothesis R_discovery_mem : forall f x, R x (set_discovery_mem f x).
Hypothesis R_candidate_mem : forall f x, R x (set_candidate_mem f x).
Hypothesis R_alloc_plan : forall p x, R x (set_alloc_plan p x).

Lemma keeps_emit e : keeps R (emit e).
Proof. intros w a w' Hrun. injection Hrun as _ <-. apply R_refl. Qed.

Lemma keeps_call {A} e (f : State -> A * State) :
  (forall x, R x (f x).2) -> keeps R (call e f).
Proof.
  intros Hf w a w' Hrun. rewrite run_call in Hrun. injection Hrun as _ <-.
  apply Hf.
Qed.

Lemma keeps_modify_agent f :
  (forall x, R x (set_agent f x)) -> keeps R (modify_agent f).
Proof. intros Hf w a w' Hrun. injection Hrun as _ <-. apply Hf. Qed.

Lemma keeps_allocate : keeps R allocate.
Proof.
  intros w a w' Hrun. rewrite allocate_any in Hrun. injection Hrun as _ <-.
  apply R_alloc_plan.
Qed.

Lemma keeps_g_slist_append {A} (l : list A) x : keeps R (g_slist_append l x).
Proof.
  intros w a w' Hrun. rewrite g_slist_append_any in Hrun.
  injection Hrun as _ <-. apply R_alloc_plan.
Qed.

Lemma keeps_modify_component p f : keeps R (modify_component p f).
Proof.
  intros w a w' Hrun. unfold modify_component in Hrun.
  apply bind_inv in Hrun as (c & w1 & Hload & Hrun).
  apply reads_load in Hload as ->. injection Hrun as _ <-.
  apply R_component_mem.
Qed.

Lemma keeps_modify_candidate p f : keeps R (modify_candidate p f).
Proof.
  intros w a w' Hrun. unfold modify_candidate in Hrun.
  apply bind_inv in Hrun as (c & w1 & Hload & Hrun).
  apply reads_load in Hload as ->. injection Hrun as _ <-.
  apply R_candidate_mem.
Qed.

Lemma keeps_modify_discovery p f : keeps R (modify_discovery p f).
Proof.
  intros w a w' Hrun. unfold modify_discovery in Hrun.
  apply bind_inv in Hrun as (c & w1 & Hload & Hrun).
  apply reads_load in Hload as ->. injection Hrun as _ <-.
  apply R_discovery_mem.
Qed.

Lemma keeps_g_slice_new0_CandidateDiscovery :
  keeps R g_slice_new0_CandidateDiscovery.
Proof.
  intros w a w' Hrun. unfold g_slice_new0_CandidateDiscovery in Hrun.
  rewrite (bind_done _ _ _ _ _ (allocate_any w)) in Hrun.
  destruct (hd true (alloc_plan (st w))); injection Hrun as _ <-.
  - eapply R_trans; [apply R_alloc_plan | apply R_discovery_mem].
  - apply R_alloc_plan.
Qed.

End Keeping.


Section Insensitive.

Lemma settled_stream_mem f x : settled x (set_stream_mem f x).
Proof. split; auto. Qed.

Lemma settled_component_mem f x : settled x (set_component_mem f x).
Proof. split; auto. Qed.

Lemma settled_discovery_mem f x : settled x (set_discovery_mem f x).
Proof. split; auto. Qed.

Lemma settled_candidate_mem f x : settled x (set_candidate_mem f x).
Proof. split; auto. Qed.

Lemma settled_alloc_plan p x : settled x (set_alloc_plan p x).
Proof. split; auto. Qed.

Lemma stays_component_mem sp f x : stays sp x (set_component_mem f x).
Proof. apply (stays_refl sp x). Qed.

Lemma stays_discovery_mem sp f x : stays sp x (set_discovery_mem f x).
Proof. apply (stays_refl sp x). Qed.

Lemma stays_candidate_mem sp f x : stays sp x (set_candidate_mem f x).
Proof. apply (stays_refl sp x). Qed.

Lemma stays_alloc_plan sp p x : stays sp x (set_alloc_plan p x).
Proof. apply (stays_refl sp x). Qed.

End Insensitive.

#[local] Hint Resolve settled_refl settled_trans stays_refl stays_trans
  settled_stream_mem settled_component_mem settled_discovery_mem
  settled_candidate_mem settled_alloc_plan stays_component_mem
  stays_discovery_mem stays_candidate_mem stays_alloc_plan : agent_keeps.
#[local] Hint Resolve keeps_emit keeps_allocate keeps_g_slist_append
  keeps_modify_component keeps_modify_candidate keeps_modify_discovery
  keeps_g_slice_new0_CandidateDiscovery : agent_keeps.
#[local] Hint Extern 5 (keeps _ _) =>
  apply reads_keeps;
    [solve [eauto with agent_keeps] | solve [auto with agent_reads]]
  : agent_keeps.

(** Goes through the structure of a computation for [keeps], as
    [logs_walk] does for [logs]. *)
Ltac keeps_walk :=
  repeat first
    [ solve [eauto with agent_keeps]
    | apply keeps_bind; [solve [eauto with agent_keeps] | | intros ?]
    | lazymatch goal with
      | |- keeps _ (match ?x with _ => _ end) => destruct x
      | |- keeps _ (let '(_, _) := ?x in _) => destruct x
      end ].

(** One step of a run that has given a result, on a computation that only
    reads: it has given a result as well, in the same world. *)
Ltac step_read :=
  assoc;
  lazymatch goal with
  | |- context [bind ?m ?k ?w] =>
      let E := fresh "E" in
      let a := fresh "a" in
      let w1 := fresh "w" in
      let Hr := fresh "Hr" in
      let Hw := fresh "Hw" in
      destruct (m w) as [a w1|] eqn:E;
      [ assert (Hr : reads m) by auto with agent_reads;
        pose proof (Hr _ _ _ E) as Hw; subst w1; clear Hr;
        rewrite (bind_done m k w a w E)
      | rewrite (bind_crash m k w _ E); stuck ]
  end.

(** The streams, the local addresses and the stream id counter are at hand
    as they were; the discovery bookkeeping is left to show. *)
Ltac stays_here :=
  split; [reflexivity|]; split; [reflexivity|]; split; [reflexivity|];
  split; [|intros ?; left; reflexivity].

Section GatheringKeeps.
Context `{Collaborators}.
Context {cooperative : Cooperative}.

(** ** Adding a stream: what the gathering keeps *)

Lemma keeps_priv_add_srv_rfx_candidate_discovery sp hc ip server_port stream
    cid address :
  keeps (stays sp)
    (priv_add_srv_rfx_candidate_discovery hc ip server_port stream cid
       address).
Proof.
  intros w r w'. unfold priv_add_srv_rfx_candidate_discovery.
  unfold g_slice_new0_CandidateDiscovery. step_with allocate_any.
  destruct (hd true (alloc_plan (st w))); cbv iota.
  2:{ repeat step. intros Hrun. cbv [ret] in Hrun. injection Hrun as _ <-.
      stays_here. exact id. }
  repeat step. step_with @g_slist_append_any.
  destruct (hd true (tail (alloc_plan (st w)))); cbv iota.
  2:{ repeat step. intros Hrun. cbv [ret] in Hrun. injection Hrun as _ <-.
      stays_here. exact id. }
  repeat step. step_read. clear E.
  destruct (cand_sockptr a) as [sock|]; [|assoc; stuck].
  repeat step. step_read. clear E. repeat step.
  step_with @g_slist_append_any.
  destruct (hd true (tail (tail (alloc_plan (st w))))); cbv iota.
  - repeat step. intros Hrun. cbv [ret] in Hrun. injection Hrun as _ <-.
    stays_here. intros _. right. state_simpl. cbn.
    intros E. apply app_eq_nil in E as [_ E]. discriminate E.
  - repeat step. intros Hrun. cbv [ret] in Hrun. injection Hrun as _ <-.
    stays_here. intros _. right. state_simpl. cbn.
    intros E. apply app_eq_nil in E as [_ E]. discriminate E.
Qed.

Lemma keeps_zero_stream_id sp :
  keeps (stays sp) (modify_stream sp (with_stream_id 0)).
Proof.
  intros w a w' Hrun. unfold modify_stream in Hrun.
  apply bind_inv in Hrun as (s & w1 & Hload & Hrun).
  pose proof (reads_load _ _ _ _ _ Hload) as ->.
  unfold load_stream, load in Hload.
  destruct (stream_mem (st w) !! sp) as [s0|] eqn:Hs; [|discriminate].
  injection Hload as <-. injection Hrun as _ <-.
  split; [reflexivity|]. split; [reflexivity|]. split; [reflexivity|].
  split; [exact id|]. intros q. state_simpl.
  destruct (decide (sp = q)) as [<-|Hne].
  - right. split; [reflexivity|]. rewrite lookup_insert_eq, Hs. reflexivity.
  - left. apply lookup_insert_ne. exact Hne.
Qed.

Lemma keeps_add_stream_components sp count n address :
  keeps (stays sp) (add_stream_components count n sp address).
Proof.
  revert n. induction count as [|count IH]; intros n;
    cbn [add_stream_components].
  - keeps_walk.
  - pose proof (keeps_zero_stream_id sp).
    pose proof (keeps_priv_add_srv_rfx_candidate_discovery sp).
    assert (forall sid cid a,
      keeps (stays sp)
        (call (Call_discovery_add_local_host_candidate sid cid a)
           (discovery_add_local_host_candidate sid cid a)))
      by (intros; apply keeps_call; intros; apply fenced_stays,
            host_candidate_fenced).
    keeps_walk.
Qed.

Lemma keeps_add_stream_addresses sp i n :
  keeps (stays sp) (add_stream_addresses i n sp).
Proof.
  induction i as [|address next IH]; cbn [add_stream_addresses].
  - keeps_walk.
  - pose proof (keeps_add_stream_components sp). keeps_walk.
Qed.

Lemma keeps_attach_sockets R component j :
  (forall x, R x x) ->
  (forall x1 x2 x3, R x1 x2 -> R x2 x3 -> R x1 x3) ->
  (forall f x, R x (set_component_mem f x)) ->
  (forall p x, R x (set_alloc_plan p x)) ->
  keeps R (attach_sockets component j).
Proof.
  intros Hrefl Htrans Hc Hp.
  induction j as [|sock next IH]; cbn [attach_sockets].
  - apply reads_keeps; auto with agent_reads.
  - apply keeps_bind; [exact Htrans | apply keeps_emit; exact Hrefl |].
    intros _. apply keeps_bind;
      [exact Htrans | apply reads_keeps; auto with agent_reads|].
    intros c. apply keeps_bind;
      [exact Htrans | apply keeps_g_slist_append; exact Hp|].
    intros [l|].
    + apply keeps_bind;
        [exact Htrans | apply keeps_modify_component; exact Hc | auto].
    + apply keeps_bind; [exact Htrans | apply keeps_emit; exact Hrefl |].
      intros _. apply reads_keeps; auto with agent_reads.
Qed.

Lemma keeps_attach_components sp i : keeps (stays sp) (attach_components i).
Proof.
  induction i as [|component next IH]; cbn [attach_components].
  - keeps_walk.
  - assert (forall c j, keeps (stays sp) (attach_sockets c j))
      by (intros; apply keeps_attach_sockets; eauto with agent_keeps).
    keeps_walk.
Qed.

Lemma keeps_add_stream_attach sp : keeps (stays sp) (add_stream_attach sp).
Proof.
  unfold add_stream_attach, priv_attach_new_stream.
  pose proof (keeps_attach_components sp). keeps_walk.
Qed.

Lemma keeps_add_stream_conclude sp : keeps (stays sp) (add_stream_conclude sp).
Proof.
  unfold add_stream_conclude, agent_signal_gathering_done.
  assert (keeps (stays sp) (call Call_discovery_schedule discovery_schedule))
    by (apply keeps_call; intros; apply fenced_stays,
          discovery_schedule_fenced).
  keeps_walk.
Qed.

End GatheringKeeps.

Section AddingStream.
Context `{Collaborators}.
Context {cooperative : Cooperative}.

Lemma add_stream_conclude_result sp w id w' :
  add_stream_conclude sp w = Done id w' ->
  exists s, stream_mem (st w') !! sp = Some s /\ stream_id s = id.
Proof.
  unfold add_stream_conclude. intros Hrun.
  apply bind_inv in Hrun as (a & w1 & _ & Hrun).
  apply bind_inv in Hrun as (u & w2 & _ & Hrun).
  apply bind_inv in Hrun as (s & w3 & Hload & Hrun).
  pose proof (reads_load _ _ _ _ _ Hload) as ->.
  unfold load_stream, load in Hload.
  destruct (stream_mem (st w2) !! sp) as [s0|] eqn:Hs; [|discriminate].
  injection Hload as <-. cbv [ret] in Hrun. injection Hrun as <- <-.
  exists s0. split; [exact Hs | reflexivity].
Qed.

(** What [nice_agent_add_stream] has done when it returns: either no
    stream was allocated, the result is 0 and the agent object is as
    before; or a stream was, at an address [sp] where none lived, the agent
    and the stream were linked, the rest of the function did to the streams
    no more than zeroing the id of [sp], and the result is the id [sp] has
    in the end. *)
Lemma nice_agent_add_stream_inv n w id w' :
  nice_agent_add_stream n w = Done id w' ->
  (id = 0 /\ agent (st w') = agent (st w)) \/
  (exists sp cs x1 s',
     stream_mem (st w) !! sp = None /\
     local_addresses (agent (st w)) <> [] /\
     agent x1 = linked_agent (agent (st w)) sp /\
     stream_mem x1
     = <[sp := linked_stream (agent (st w)) cs]> (stream_mem (st w)) /\
     stays sp x1 (st w') /\
     stream_mem (st w') !! sp = Some s' /\ stream_id s' = id).
Proof.
  unfold nice_agent_add_stream, add_stream_gather. intros Hrun.
  apply bind_inv in Hrun as (r & w3 & Hgather & Hrun).
  apply bind_inv in Hgather as ([sp|] & w1 & Halloc & Hgather).
  - right.
    apply add_stream_allocate_some in Halloc
      as (cs & Hfresh & Hla & Hagent & Hmem & _).
    apply bind_inv in Hgather as (a & w1' & Ha & Hgather).
    injection Ha as <- <-.
    apply bind_inv in Hgather as (u & w2 & Hloops & Hgather).
    apply keeps_add_stream_addresses in Hloops.
    apply bind_inv in Hgather as (u' & w2' & Hattach & Hgather).
    apply keeps_add_stream_attach in Hattach.
    cbv [ret] in Hgather. injection Hgather as <- <-.
    pose proof (keeps_add_stream_conclude sp _ _ _ Hrun) as Hconclude.
    apply add_stream_conclude_result in Hrun as (s' & Hs' & Hid).
    exists sp, cs, (st w1), s'. repeat (split; [assumption|]).
    split; [|split; assumption].
    eapply stays_trans; [|exact Hconclude].
    eapply stays_trans; [exact Hloops | exact Hattach].
  - left. cbv [ret] in Hgather. injection Hgather as <- <-.
    cbv [ret] in Hrun. injection Hrun as <- <-.
    split; [reflexivity|]. eapply add_stream_allocate_none. exact Halloc.
Qed.

(** ** The credentials of a new stream *)

Lemma c_string_app_nul data rest :
  Forall printable data -> c_string (data ++ 0 :: rest) = data.
Proof.
  induction 1 as [|b data Hb _ IH]; cbn; [reflexivity|].
  unfold printable in Hb. destruct (b =? 0) eqn:E; [lia|]. rewrite IH.
  reflexivity.
Qed.

(** Characters stored at the front of a zeroed buffer that is longer than
    they are read back as the string they are. *)
Lemma c_string_store_bytes data size :
  Forall printable data -> (length data < size)%nat ->
  c_string (store_bytes data (replicate size 0)) = data.
Proof.
  intros Hdata Hlen. unfold store_bytes. rewrite drop_replicate.
  destruct (size - length data)%nat as [|k] eqn:E; [lia|].
  cbn [replicate]. apply c_string_app_nul. exact Hdata.
Qed.

(** Looking up an id some stream of the list has, all of them alive, gives
    the first stream of the list with that id. *)
Lemma agent_find_stream_from_found l id w :
  Forall (fun q => is_Some (stream_mem (st w) !! q)) l ->
  (exists q s,
     q ∈ l /\ stream_mem (st w) !! q = Some s /\ stream_id s = id) ->
  exists q s,
    agent_find_stream_from l id w = Done (Some q) w /\
    q ∈ l /\ stream_mem (st w) !! q = Some s /\ stream_id s = id.
Proof.
  induction l as [|p l IH]; intros Hall (q & s & Hq & Hs & Hid).
  - apply elem_of_nil in Hq as [].
  - inversion Hall as [|? ? [sp Hp] Hall']; subst. cbn [agent_find_stream_from].
    step. destruct (stream_id sp =? stream_id s) eqn:E.
    + exists p, sp. split; [reflexivity|]. split; [apply list_elem_of_here|].
      split; [exact Hp | lia].
    + apply elem_of_cons in Hq as [->|Hq];
        [rewrite Hs in Hp; injection Hp as <-; lia|].
      destruct (IH Hall') as (q' & s' & Hfind & Hq' & Hs' & Hid');
        [exists q, s; auto|].
      exists q', s'. split; [exact Hfind|]. split; [|split; assumption].
      apply list_elem_of_further. exact Hq'.
Qed.

(** The stream [nice_agent_add_stream] links has generated credentials. *)
Lemma linked_stream_generated a cs :
  generates_printable -> credential_sizes_fit ->
  c_string (local_ufrag (linked_stream a cs))
  = (nice_rng_generate_bytes_print (rng a) (NICE_STREAM_DEF_UFRAG - 1)).1 /\
  c_string (local_password (linked_stream a cs))
  = (nice_rng_generate_bytes_print
       (nice_rng_generate_bytes_print (rng a) (NICE_STREAM_DEF_UFRAG - 1)).2
       (NICE_STREAM_DEF_PWD - 1)).1.
Proof.
  intros Hgen [Hu Hp]. unfold linked_stream. cbn [local_ufrag local_password].
  split.
  - destruct (Hgen (rng a) (NICE_STREAM_DEF_UFRAG - 1)) as [Hlen Hpr]; [lia|].
    apply c_string_store_bytes; [exact Hpr | rewrite Hlen; lia].
  - match goal with |- context [nice_rng_generate_bytes_print ?r (_ - 1)] =>
      destruct (Hgen r (NICE_STREAM_DEF_PWD - 1)) as [Hlen Hpr]; [lia|] end.
    apply c_string_store_bytes; [exact Hpr | rewrite Hlen; lia].
Qed.

(** A stream with generated credentials has printable strings of the
    default lengths. *)
Lemma generated_credentials_shape s :
  generates_printable -> credential_sizes_fit -> generated_credentials s ->
  length (c_string (local_ufrag s)) = Z.to_nat (NICE_STREAM_DEF_UFRAG - 1) /\
  Forall printable (c_string (local_ufrag s)) /\
  length (c_string (local_password s)) = Z.to_nat (NICE_STREAM_DEF_PWD - 1) /\
  Forall printable (c_string (local_password s)).
Proof.
  intros Hgen [Hu Hp] [[r1 E1] [r2 E2]]. rewrite E1, E2.
  destruct (Hgen r1 (NICE_STREAM_DEF_UFRAG - 1)) as [? ?]; [lia|].
  destruct (Hgen r2 (NICE_STREAM_DEF_PWD - 1)) as [? ?]; [lia|].
  auto.
Qed.

(** C4.  After [nice_agent_add_stream] has returned a positive id, on an
    agent all of whose streams are alive with generated credentials,
    [nice_agent_get_local_credentials] for that id returns TRUE and hands
    out the two buffers of a stream of that id; the strings in them are
    [NICE_STREAM_DEF_UFRAG - 1] and [NICE_STREAM_DEF_PWD - 1] printable
    characters, outputs of the generator; when no older stream has the id,
    they are what the generator gave, from the agent's generator state at the
    call, first for the ufrag and then for the password.  The id is the
    agent's next one, and all streams still have generated credentials. *)
Theorem nice_agent_add_stream_credentials n w id w' :
  generates_printable -> credential_sizes_fit -> credentials_invariant w ->
  nice_agent_add_stream n w = Done id w' -> 0 < id ->
  exists sp s,
    nice_agent_get_local_credentials id true true w'
    = Done (true, Some (local_ufrag s, local_password s)) w' /\
    stream_mem (st w') !! sp = Some s /\ stream_id s = id /\
    length (c_string (local_ufrag s)) = Z.to_nat (NICE_STREAM_DEF_UFRAG - 1) /\
    Forall printable (c_string (local_ufrag s)) /\
    length (c_string (local_password s)) = Z.to_nat (NICE_STREAM_DEF_PWD - 1) /\
    Forall printable (c_string (local_password s)) /\
    generated_credentials s /\
    (Forall (fun q => forall s0, stream_mem (st w) !! q = Some s0 ->
                                 stream_id s0 <> id)
       (streams (agent (st w))) ->
     c_string (local_ufrag s)
     = (nice_rng_generate_bytes_print (rng (agent (st w)))
          (NICE_STREAM_DEF_UFRAG - 1)).1 /\
     c_string (local_password s)
     = (nice_rng_generate_bytes_print
          (nice_rng_generate_bytes_print (rng (agent (st w)))
             (NICE_STREAM_DEF_UFRAG - 1)).2
          (NICE_STREAM_DEF_PWD - 1)).1) /\
    id = next_stream_id (agent (st w)) /\
    credentials_invariant w'.
Proof.
  intros Hgen Hsizes Hinv Hrun Hid. unfold credentials_invariant in Hinv.
  apply nice_agent_add_stream_inv in Hrun
    as [[-> _]|(sp & cs & x1 & s' & Hfresh & _ & Hagent & Hmem & Hstays & Hs'
                & Hids')];
    [lia|].
  destruct Hstays as (Hstreams & _ & _ & _ & Hstreams_mem).
  set (new := linked_stream (agent (st w)) cs) in *.
  assert (Hnew : s' = new).
  { destruct (Hstreams_mem sp) as [E|[_ E]];
      rewrite Hs', Hmem, lookup_insert_eq in E.
    - injection E as ->. reflexivity.
    - injection E as ->. cbn in Hids'. lia. }
  subst s'.
  assert (Hold : forall q, q <> sp ->
            stream_mem (st w') !! q = stream_mem (st w) !! q).
  { intros q Hq. destruct (Hstreams_mem q) as [E|[E _]]; [|contradiction].
    rewrite E, Hmem. apply lookup_insert_ne. congruence. }
  assert (Hlist : streams (agent (st w')) = streams (agent (st w)) ++ [sp]).
  { rewrite Hstreams, Hagent. reflexivity. }
  assert (Hne : Forall (fun q => q <> sp) (streams (agent (st w)))).
  { eapply Forall_impl; [exact Hinv|]. cbn. intros q (s0 & Hq & _) ->.
    congruence. }
  assert (Hinv' : credentials_invariant w').
  { unfold credentials_invariant. rewrite Hlist. apply Forall_app. split.
    - rewrite Forall_forall in Hinv, Hne. apply Forall_forall. intros q Hq.
      rewrite Hold by (apply Hne; exact Hq). apply Hinv. exact Hq.
    - constructor; [|constructor]. exists new. split; [exact Hs'|].
      destruct (linked_stream_generated (agent (st w)) cs Hgen Hsizes)
        as [Eu Ep].
      split; eexists; [exact Eu | exact Ep]. }
  destruct (agent_find_stream_from_found (streams (agent (st w'))) id w')
    as (q & s & Hfind & Hq & Hs & Hsid).
  { eapply Forall_impl; [exact Hinv'|]. cbn. intros p (s0 & Hp & _). eauto. }
  { exists sp, new. split; [|split; assumption]. rewrite Hlist.
    apply elem_of_app. right. apply list_elem_of_here. }
  assert (Hcred : generated_credentials s).
  { unfold credentials_invariant in Hinv'. rewrite Forall_forall in Hinv'.
    destruct (Hinv' q Hq) as (s0 & Hs0 & Hc). congruence. }
  destruct (generated_credentials_shape s Hgen Hsizes Hcred)
    as (L1 & P1 & L2 & P2).
  exists q, s. split.
  { unfold nice_agent_get_local_credentials, agent_find_stream. assoc. step.

    rewrite (bind_done _ _ _ _ _ Hfind). cbn [negb orb]. step. reflexivity. }
  repeat (split; [assumption|]).
  split; [|split; [subst id; reflexivity | exact Hinv']].
  intros Hfreshid.
  assert (q = sp) as ->.
  { rewrite Hlist in Hq. apply elem_of_app in Hq as [Hq|Hq].
    - exfalso. rewrite Forall_forall in Hfreshid, Hne.
      apply (Hfreshid q Hq s); [|exact Hsid].
      rewrite <- Hold by (apply Hne; exact Hq). exact Hs.
    - apply list_elem_of_singleton in Hq. exact Hq. }
  rewrite Hs' in Hs. injection Hs as <-.
  apply linked_stream_generated; assumption.
Qed.

End AddingStream.

(** The loopback environment keeps to its side, and its generator keeps its
    contract. *)
Lemma loopback_cooperative : @Cooperative Loopback.env.
Proof.
  split; intros; try apply settled_refl.
  - repeat split; auto.
  - cbn in *. injection H as <-. eexists _, _. split;
      [apply lookup_insert_eq | reflexivity].
  - repeat split; auto.
Qed.

Lemma loopback_generates_printable : generates_printable (H := Loopback.env).
Proof.
  intros r len Hlen. cbn. split.
  - rewrite length_map, length_seq. reflexivity.
  - apply Forall_map, Forall_forall. intros i _. unfold printable. cbn.
    pose proof (Z.mod_pos_bound (r + Z.of_nat i) 26). lia.
Qed.

Lemma loopback_sizes_fit : credential_sizes_fit (H := Loopback.env).
Proof. cbv. repeat split; discriminate. Qed.

Lemma loopback_host_candidates_succeed :
  host_candidates_succeed (H := Loopback.env).
Proof. intros sid cid a x. discriminate. Qed.

(** C4 on the loopback agent: the credentials of its first stream are the
    first eight letters and the thirty-two after them. *)
Lemma nice_agent_add_stream_credentials_witness :
  exists sp s,
    nice_agent_get_local_credentials 1 true true
      Loopback.one_stream
    = Done (true, Some (local_ufrag s, local_password s)) Loopback.one_stream /\
    stream_mem (st Loopback.one_stream) !! sp = Some s /\
    c_string (local_ufrag s) = (Loopback.letters 0 8).1 /\
    c_string (local_password s) = (Loopback.letters 8 32).1.
Proof.
  destruct (nice_agent_add_stream_credentials (H := Loopback.env)
              (cooperative := loopback_cooperative)
              1 Loopback.with_address 1 Loopback.one_stream
              loopback_generates_printable loopback_sizes_fit)
    as (sp & s & Hget & Hs & _ & _ & _ & _ & _ & _ & Hgen & _).
  - constructor.
  - vm_compute. reflexivity.
  - lia.
  - exists sp, s. split; [exact Hget|]. split; [exact Hs|].
    apply Hgen. constructor.
Defined.

(** ** Adding a stream: the run without a failure *)

Section Fenced.

Lemma fenced_refl x : fenced x x.
Proof. repeat (split; [reflexivity|]). split; auto. Qed.

Lemma fenced_trans x1 x2 x3 : fenced x1 x2 -> fenced x2 x3 -> fenced x1 x3.
Proof.
  intros (A1 & A2 & A3 & A4 & A5 & A6 & A7) (B1 & B2 & B3 & B4 & B5 & B6 & B7).
  repeat (split; [congruence|]). split; auto.
Qed.

Lemma ready_fenced sp s x x' : fenced x x' -> ready sp s x -> ready sp s x'.
Proof.
  intros (A1 & A2 & A3 & A4 & A5 & A6 & A7) (B1 & B2 & B3 & B4).
  split; [congruence|]. split; [congruence|]. split; [|auto].
  eapply Forall_impl; [exact B3|]. auto.
Qed.

Lemma fenced_component_insert p c x :
  is_Some (component_mem x !! p) ->
  fenced x (set_component_mem (fun m => <[p := c]> m) x).
Proof.
  intros Hp. repeat (split; [reflexivity|]). split; [auto|].
  intros q Hq. cbn. destruct (decide (p = q)) as [->|Hne].
  - rewrite lookup_insert_eq. eauto.
  - rewrite lookup_insert_ne by exact Hne. exact Hq.
Qed.

End Fenced.

Section AddingStreamDone.
Context `{Collaborators}.
Context {cooperative : Cooperative}.
Hypothesis succeed : host_candidates_succeed.

Lemma find_component_by_id_from_done i id w :
  Forall (fun c => is_Some (component_mem (st w) !! c)) i ->
  exists r, find_component_by_id_from i id w = Done r w.
Proof.
  induction 1 as [|p i [c Hp] _ IH]; cbn [find_component_by_id_from].
  - eexists. reflexivity.
  - step. destruct (comp_id c =? id); [eexists; reflexivity | exact IH].
Qed.

Lemma attach_sockets_done c j w :
  alloc_plan (st w) = [] ->
  is_Some (component_mem (st w) !! c) ->
  exists w', attach_sockets c j w = Done true w' /\ fenced (st w) (st w').
Proof.
  revert w. induction j as [|sock next IH]; intros w Hplan [k Hc];
    cbn [attach_sockets].
  - exists w. split; [reflexivity | apply fenced_refl].
  - repeat step.
    match goal with |- context [attach_sockets c next ?w1] =>
      destruct (IH w1) as (w' & Hrun & Hf) end.
    + exact Hplan.
    + state_simpl. rewrite lookup_insert_eq. eauto.
    + exists w'. split; [exact Hrun|].
      eapply fenced_trans; [|exact Hf]. state_simpl.
      apply fenced_component_insert. eauto.
Qed.

Lemma attach_components_done i w :
  alloc_plan (st w) = [] ->
  Forall (fun c => is_Some (component_mem (st w) !! c)) i ->
  exists w', attach_components i w = Done true w' /\ fenced (st w) (st w').
Proof.
  revert w. induction i as [|c next IH]; intros w Hplan Hall;
    cbn [attach_components].
  - exists w. split; [reflexivity | apply fenced_refl].
  - inversion Hall as [|? ? [k Hc] Hnext]; subst. step.
    destruct (attach_sockets_done c (sockets k) w Hplan) as (w1 & Hrun & Hf);
      [eauto|].
    rewrite (bind_done _ _ _ _ _ Hrun).
    destruct (IH w1) as (w' & Hrun' & Hf').
    + destruct Hf as (_ & _ & _ & _ & Hp & _). rewrite Hp. exact Hplan.
    + destruct Hf as (_ & _ & _ & _ & _ & _ & Hkeep).
      eapply Forall_impl; [exact Hnext|]. auto.
    + exists w'. split; [exact Hrun'|]. eapply fenced_trans; eauto.
Qed.

Lemma priv_add_srv_rfx_candidate_discovery_done sp s hc ip server_port cid
    address w c sock :
  ready sp s (st w) ->
  candidate_mem (st w) !! hc = Some c -> cand_sockptr c = Some sock ->
  exists w',
    priv_add_srv_rfx_candidate_discovery hc ip server_port sp cid address w
    = Done true w' /\ fenced (st w) (st w').
Proof.
  intros (Hplan & Hs & Hcs & _) Hc Hsock.
  destruct (find_component_by_id_from_done (components s) cid w Hcs)
    as (comp & Hfind).
  destruct (priv_add_srv_rfx_candidate_discovery_appends_twice
              hc ip server_port sp cid address w c sock comp Hplan Hc Hsock)
    as (w' & Hrun & _ & _ & _ & _ & Hf).
  - unfold stream_find_component_by_id. step. exact Hfind.
  - eauto.
Qed.

Lemma add_stream_components_done sp s count n address w :
  ready sp s (st w) ->
  exists w',
    add_stream_components count n sp address w = Done tt w' /\
    fenced (st w) (st w').
Proof.
  revert n w. induction count as [|count IH]; intros n w Hready;
    cbn [add_stream_components].
  - exists w. split; [reflexivity | apply fenced_refl].
  - destruct Hready as (Hplan & Hs & Hcs & Hd) eqn:E. clear E.
    repeat step.
    pose proof (host_candidate_fenced (stream_id s) (n + 1) address (st w))
      as Hf.
    pose proof (host_candidate_valid (stream_id s) (n + 1) address (st w))
      as Hv.
    pose proof (succeed (stream_id s) (n + 1) address (st w)) as Hsome.
    destruct (discovery_add_local_host_candidate (stream_id s) (n + 1)
                address (st w)) as [[hc|] x']; [|contradiction].
    cbn [fst snd] in *. clear Hsome.
    destruct (Hv hc eq_refl) as (c & sock & Hc & Hsock).
    pose proof (ready_fenced sp s _ _ Hf Hready) as Hready'.
    step.
    assert (Hgo : forall w1, st w1 = x' ->
              exists w', add_stream_components count (n + 1) sp address w1
                         = Done tt w' /\ fenced (st w) (st w')).
    { intros w1 E. destruct (IH (n + 1) w1) as (w' & Hrun & Hf');
        [rewrite E; exact Hready'|].
      exists w'. split; [exact Hrun|]. eapply fenced_trans; [exact Hf|].
      rewrite <- E. exact Hf'. }
    destruct (full_mode (agent x')); [|apply Hgo; reflexivity].
    destruct (stun_server_ip (agent x')) as [ip|]; [|apply Hgo; reflexivity].
    match goal with
    | |- context [bind (priv_add_srv_rfx_candidate_discovery hc ip ?port sp
                          ?cid address) _ ?w1] =>
      destruct (priv_add_srv_rfx_candidate_discovery_done sp s hc ip port cid
                  address w1 c sock Hready' Hc Hsock) as (w2 & Hrun & Hf2) end.
    rewrite (bind_done _ _ _ _ _ Hrun).
    destruct (IH (n + 1) w2) as (w' & Hrun' & Hf').
    { eapply ready_fenced; [exact Hf2 | exact Hready']. }
    exists w'. split; [exact Hrun'|].
    eapply fenced_trans; [exact Hf|].
    eapply fenced_trans; [exact Hf2 | exact Hf'].
Qed.

Lemma add_stream_addresses_done sp s i n w :
  ready sp s (st w) ->
  exists w',
    add_stream_addresses i n sp w = Done tt w' /\ fenced (st w) (st w').
Proof.
  revert w. induction i as [|address next IH]; intros w Hready;
    cbn [add_stream_addresses].
  - exists w. split; [reflexivity | apply fenced_refl].
  - destruct (add_stream_components_done sp s (Z.to_nat n) 0 address w Hready)
      as (w1 & Hrun & Hf).
    rewrite (bind_done _ _ _ _ _ Hrun).
    destruct (IH w1) as (w' & Hrun' & Hf');
      [eapply ready_fenced; eauto|].
    exists w'. split; [exact Hrun'|]. eapply fenced_trans; eauto.
Qed.

Lemma add_stream_attach_done sp s w :
  ready sp s (st w) ->
  exists w', add_stream_attach sp w = Done tt w' /\ fenced (st w) (st w').
Proof.
  intros (Hplan & Hs & Hcs & Hd). unfold add_stream_attach. repeat step.
  destruct (main_context_set (agent (st w)) && (0 <? stream_id s)).
  - unfold priv_attach_new_stream. repeat step.
    destruct (attach_components_done (components s) w Hplan Hcs)
      as (w' & Hrun & Hf).
    assoc. rewrite (bind_done _ _ _ _ _ Hrun). exists w'.
    split; [reflexivity | exact Hf].
  - exists w. split; [reflexivity | apply fenced_refl].
Qed.

Lemma add_stream_conclude_done sp s w :
  ready sp s (st w) ->
  exists w',
    add_stream_conclude sp w = Done (stream_id s) w' /\
    fenced (st w) (st w').
Proof.
  intros (Hplan & Hs & Hcs & Hd). unfold add_stream_conclude. repeat step.
  destruct (discovery_unsched_items (agent (st w)) =? 0) eqn:E.
  - unfold agent_signal_gathering_done. repeat step.
    eexists. split; [reflexivity | apply fenced_refl].
  - destruct Hd as [Hd|Hd]; [lia|].
    destruct (discovery_list (agent (st w))) as [|d ds]; [contradiction|].
    pose proof (discovery_schedule_fenced (st w)) as Hf.
    rewrite (bind_done _ _ _ _ _ (discovery_schedule_call_done w)).
    step_by ltac:(apply run_load_stream; cbn [st];
                  destruct Hf as (_ & _ & _ & -> & _); exact Hs).
    eexists. split; [reflexivity | exact Hf].
Qed.

(** With a local address, the discovery bookkeeping consistent and
    nothing failing, [nice_agent_add_stream] returns the agent's next
    stream id and moves on to the one after; the conditions hold again
    afterwards. *)
Lemma nice_agent_add_stream_done n w :
  alloc_plan (st w) = [] ->
  local_addresses (agent (st w)) <> [] ->
  discovery_consistent (st w) ->
  exists w',
    nice_agent_add_stream n w = Done (next_stream_id (agent (st w))) w' /\
    alloc_plan (st w') = [] /\
    local_addresses (agent (st w')) = local_addresses (agent (st w)) /\
    discovery_consistent (st w') /\
    next_stream_id (agent (st w'))
    = to_guint (next_stream_id (agent (st w)) + 1) /\
    exists sp cs,
      streams (agent (st w')) = streams (agent (st w)) ++ [sp] /\
      stream_mem (st w') !! sp = Some (linked_stream (agent (st w)) cs) /\
      Forall (fun c => is_Some (component_mem (st w') !! c)) cs.
Proof.
  intros Hplan Hla Hd.
  destruct (add_stream_allocate_done n w Hla) as (sp & w1 & Halloc);
    [rewrite Hplan; reflexivity | rewrite Hplan; reflexivity |].
  destruct (add_stream_allocate_some n w sp w1 Halloc)
    as (cs & _ & _ & Hagent & Hmem & Hcs & Hplan1 & _).
  set (s := linked_stream (agent (st w)) cs) in *.
  assert (Hready : ready sp s (st w1)).
  { split; [rewrite Hplan1, Hplan; reflexivity|].
    split; [rewrite Hmem; apply lookup_insert_eq|].
    split; [exact Hcs|]. unfold discovery_consistent. rewrite Hagent.
    exact Hd. }
  unfold nice_agent_add_stream, add_stream_gather. assoc.
  rewrite (bind_done _ _ _ _ _ Halloc). repeat step.
  destruct (add_stream_addresses_done sp s (local_addresses (agent (st w1)))
              n w1 Hready) as (w2 & Hrun2 & Hf2).
  assoc. rewrite (bind_done _ _ _ _ _ Hrun2).
  pose proof (ready_fenced sp s _ _ Hf2 Hready) as Hready2.
  destruct (add_stream_attach_done sp s w2 Hready2) as (w3 & Hrun3 & Hf3).
  assoc. rewrite (bind_done _ _ _ _ _ Hrun3). repeat step.
  pose proof (ready_fenced sp s _ _ Hf3 Hready2) as Hready3.
  destruct (add_stream_conclude_done sp s w3 Hready3) as (w' & Hrun & Hf).
  exists w'. split; [exact Hrun|].
  pose proof (ready_fenced sp s _ _ Hf Hready3) as (Hplan' & Hs' & Hcs' & Hd').
  pose proof (fenced_trans _ _ _ (fenced_trans _ _ _ Hf2 Hf3) Hf)
    as (Hstreams' & Hla' & Hnext' & _).
  split; [exact Hplan'|]. rewrite Hla', Hnext', Hstreams', Hagent.
  split; [reflexivity|]. split; [exact Hd'|]. split; [reflexivity|].
  exists sp, cs. split; [reflexivity|]. split; [exact Hs' | exact Hcs'].
Qed.

Lemma to_guint_add_l z m : to_guint (to_guint z + m) = to_guint (z + m).
Proof.
  unfold to_guint, guint_modulus. rewrite Z.add_mod_idemp_l by lia.
  reflexivity.
Qed.

End AddingStreamDone.

(** ** The stream ids along a history of calls *)

Section History.
Context `{Collaborators}.
Context {cooperative : Cooperative}.

(** An update of the agent object that leaves the stream id counter and
    the discovery bookkeeping alone. *)
Lemma keeps_settled_modify_agent f :
  (forall a, next_stream_id (f a) = next_stream_id a /\
             discovery_list (f a) = discovery_list a /\
             discovery_unsched_items (f a) = discovery_unsched_items a) ->
  keeps settled (modify_agent f).
Proof.
  intros Hf. apply keeps_modify_agent. intros x.
  destruct (Hf (agent x)) as (Hn & Hl & Hu).
  split; [exact Hn|]. unfold discovery_consistent. cbn. rewrite Hl, Hu. auto.
Qed.

Lemma keeps_settled_modify_stream p f : keeps settled (modify_stream p f).
Proof.
  intros w a w' Hrun. unfold modify_stream in Hrun.
  apply bind_inv in Hrun as (c & w1 & Hload & Hrun).
  apply reads_load in Hload as ->. injection Hrun as _ <-.
  apply settled_stream_mem.
Qed.

Lemma keeps_settled_stream_free sp : keeps settled (stream_free sp).
Proof.
  intros w a w' Hrun. unfold stream_free in Hrun.
  apply bind_inv in Hrun as (c & w1 & Hload & Hrun).
  apply reads_load in Hload as ->. injection Hrun as _ <-.
  split; auto.
Qed.

Lemma keeps_settled_nice_candidate_new type :
  keeps settled (nice_candidate_new type).
Proof.
  intros w a w' Hrun. unfold nice_candidate_new in Hrun.
  rewrite (bind_done _ _ _ _ _ (allocate_any w)) in Hrun.
  destruct (hd true (alloc_plan (st w))); injection Hrun as _ <-; split; auto.
Qed.

Lemma keeps_settled_nice_candidate_free c :
  keeps settled (nice_candidate_free c).
Proof. intros w a w' Hrun. injection Hrun as _ <-. split; auto. Qed.

Lemma keeps_settled_destroy_sources j : keeps settled (destroy_sources j).
Proof. induction j; cbn [destroy_sources]; keeps_walk. Qed.

Lemma keeps_settled_deattach_components i :
  keeps settled (deattach_components i).
Proof.
  pose proof keeps_settled_destroy_sources.
  induction i; cbn [deattach_components]; keeps_walk.
Qed.

Lemma keeps_settled_add_local_address a :
  keeps settled (nice_agent_add_local_address a).
Proof.
  unfold nice_agent_add_local_address.
  assert (forall l, keeps settled (modify_agent (with_local_addresses l)))
    by (intros; apply keeps_settled_modify_agent; intros; auto).
  keeps_walk.
Qed.

Lemma keeps_settled_set_stun_server ip :
  keeps settled (nice_agent_set_stun_server ip).
Proof. apply keeps_settled_modify_agent. intros; auto. Qed.

Lemma keeps_settled_remove_stream id :
  keeps settled (nice_agent_remove_stream id).
Proof.
  unfold nice_agent_remove_stream, priv_deattach_stream,
    priv_remove_keepalive_timer.
  pose proof keeps_settled_deattach_components.
  pose proof keeps_settled_stream_free.
  assert (forall sp, keeps settled
            (modify_agent
               (fun a => with_streams (g_slist_remove (streams a) sp) a)))
    by (intros; apply keeps_settled_modify_agent; intros; auto).
  assert (keeps settled (modify_agent (with_keepalive_timer_id 0)))
    by (apply keeps_settled_modify_agent; intros; auto).
  assert (keeps settled (call (Call_conn_check_prune_stream id)
                           (conn_check_prune_stream id)))
    by (apply keeps_call; apply conn_check_prune_settled).
  assert (keeps settled (call (Call_discovery_prune_stream id)
                           (discovery_prune_stream id)))
    by (apply keeps_call; apply discovery_prune_settled).
  keeps_walk.
Qed.

Lemma keeps_settled_priv_add_remote_candidate sid cid type address
    related_addr transport priority username password foundation :
  keeps settled
    (priv_add_remote_candidate sid cid type address related_addr transport
       priority username password foundation).
Proof.
  unfold priv_add_remote_candidate.
  pose proof keeps_settled_nice_candidate_new.
  pose proof keeps_settled_nice_candidate_free.
  assert (forall cp cand,
            keeps settled (call (Call_conn_check_add_for_candidate sid cp cand)
                             (conn_check_add_for_candidate sid cp cand)))
    by (intros; apply keeps_call; apply conn_check_add_settled).
  keeps_walk.
Qed.

Lemma keeps_settled_set_remote_candidates_from sid cid ds added :
  keeps settled (set_remote_candidates_from sid cid ds added).
Proof.
  pose proof keeps_settled_priv_add_remote_candidate.
  revert added. induction ds as [|d ds IH]; intros added;
    cbn [set_remote_candidates_from]; keeps_walk.
Qed.

Lemma keeps_settled_set_remote_candidates sid cid ds :
  keeps settled (nice_agent_set_remote_candidates sid cid ds).
Proof.
  unfold nice_agent_set_remote_candidates.
  pose proof keeps_settled_set_remote_candidates_from.
  assert (keeps settled (call Call_conn_check_schedule_next
                           conn_check_schedule_next))
    by (apply keeps_call; apply conn_check_schedule_settled).
  keeps_walk.
Qed.

Lemma keeps_settled_send sid cid len buf :
  keeps settled (nice_agent_send sid cid len buf).
Proof. unfold nice_agent_send. keeps_walk. Qed.

Lemma keeps_settled_recv stream component sock buf_len buf :
  keeps settled (_nice_agent_recv stream component sock buf_len buf).
Proof.
  unfold _nice_agent_recv.
  assert (forall from buf' len,
            keeps settled
              (call (Call_conn_check_handle_inbound_stun stream component
                       sock from buf' len)
                 (conn_check_handle_inbound_stun stream component sock from
                    buf' len)))
    by (intros; apply keeps_call; apply inbound_stun_settled).
  keeps_walk.
Qed.

Lemma keeps_settled_get_local_credentials sid ufrag pwd :
  keeps settled (nice_agent_get_local_credentials sid ufrag pwd).
Proof. unfold nice_agent_get_local_credentials. keeps_walk. Qed.

(** A state the agent object of which is as in a counted one is counted
    too, and so is one a settled step away. *)
Lemma counted_settled k ids x x' :
  settled x x' -> counted k ids x -> counted k ids x'.
Proof.
  intros [Hn Hd] (Cd & Cn & Ck & Cids).
  split; [auto|]. split; [congruence | auto].
Qed.

(** [nice_agent_add_stream] returns 0 or the id of the stream it links. *)
Lemma nice_agent_add_stream_counted n w id w' k ids :
  counted k ids (st w) ->
  nice_agent_add_stream n w = Done id w' ->
  exists k', counted k' (id :: ids) (st w').
Proof.
  intros (Cd & Cn & Ck & Cids) Hrun.
  apply nice_agent_add_stream_inv in Hrun
    as [[-> Hagent]|(sp & cs & x1 & s' & _ & _ & Hagent & Hmem & Hstays & Hs'
                     & Hid)].
  - exists k. split; [|split; [|split]].
    + unfold discovery_consistent. rewrite Hagent. exact Cd.
    + rewrite Hagent. exact Cn.
    + cbn [length]. lia.
    + constructor; [left; reflexivity | exact Cids].
  - destruct Hstays as (_ & _ & Hnext & Hd & Hstreams).
    exists (S k). split; [|split; [|split]].
    + apply Hd. unfold discovery_consistent. rewrite Hagent. exact Cd.
    + rewrite Hnext, Hagent. cbn. rewrite Cn, to_guint_add_l. f_equal. lia.
    + cbn [length]. lia.
    + constructor.
      * destruct (Hstreams sp) as [E|[_ E]];
          rewrite Hs', Hmem, lookup_insert_eq in E; injection E as ->.
        -- right. exists k. split; [lia|]. rewrite <- Hid. exact Cn.
        -- left. rewrite <- Hid. reflexivity.
      * eapply Forall_impl; [exact Cids|]. cbn.
        intros i [->|(j & Hj & ->)]; [left; reflexivity|].
        right. exists j. split; [lia | reflexivity].
Qed.

(** Along every history the stream ids stay counted. *)
Lemma run_calls_counted calls :
  forall k ids w ids' w',
    counted k ids (st w) ->
    run_calls calls ids w = Done ids' w' ->
    exists k', counted k' ids' (st w').
Proof.
  induction calls as [|c calls IH]; intros k ids w ids' w' Hc Hrun.
  - cbv [run_calls ret] in Hrun. injection Hrun as <- <-. eauto.
  - destruct c; cbn [run_calls] in Hrun;
      apply bind_inv in Hrun as (r & w1 & Hcall & Hrun).
    + eapply IH; [|exact Hrun]. eapply counted_settled; [|exact Hc].
      eapply keeps_settled_add_local_address; exact Hcall.
    + eapply IH; [|exact Hrun]. eapply counted_settled; [|exact Hc].
      eapply keeps_settled_set_stun_server; exact Hcall.
    + destruct (nice_agent_add_stream_counted _ _ _ _ _ _ Hc Hcall)
        as (k1 & Hc1).
      eapply IH; [exact Hc1 | exact Hrun].
    + eapply IH; [|exact Hrun]. eapply counted_settled; [|exact Hc].
      eapply keeps_settled_remove_stream; exact Hcall.
    + eapply IH; [|exact Hrun]. eapply counted_settled; [|exact Hc].
      eapply keeps_settled_set_remote_candidates; exact Hcall.
    + eapply IH; [|exact Hrun]. eapply counted_settled; [|exact Hc].
      eapply keeps_settled_get_local_credentials; exact Hcall.
    + eapply IH; [|exact Hrun]. eapply counted_settled; [|exact Hc].
      eapply keeps_settled_send; exact Hcall.
    + eapply IH; [|exact Hrun]. eapply counted_settled; [|exact Hc].
      eapply keeps_settled_recv; exact Hcall.
Qed.

Lemma created_counted w : created w -> counted 0 [] (st w).
Proof.
  intros ((full & ta & seed & Hagent) & _).
  split; [|split; [|split]].
  - left. rewrite Hagent. reflexivity.
  - rewrite Hagent. reflexivity.
  - cbn. lia.
  - constructor.
Qed.

(** Before the counter has wrapped, the agent's next id is positive and
    none of the values returned so far. *)
Lemma counted_fresh k ids x :
  counted k ids x -> Z.of_nat (length ids) < guint_modulus - 1 ->
  0 < next_stream_id (agent x) /\ next_stream_id (agent x) ∉ ids.
Proof.
  intros (_ & Cn & Ck & Cids) Hlen. unfold guint_modulus in Hlen.
  assert (En : next_stream_id (agent x) = 1 + Z.of_nat k).
  { rewrite Cn. unfold to_guint, guint_modulus. apply Z.mod_small. lia. }
  split; [lia|]. intros Hin. rewrite Forall_forall in Cids.
  destruct (Cids _ Hin) as [E|(j & Hj & E)]; [lia|].
  unfold to_guint, guint_modulus in E. rewrite Z.mod_small in E by lia. lia.
Qed.

(** C8.  Without a local address [nice_agent_add_stream] returns 0 and
    leaves the agent as it is.  On an agent used through its API since
    [nice_agent_init], with fewer than 2^32 - 1 calls of
    [nice_agent_add_stream] so far, a local address at hand and no
    allocation and no host candidate failing, it returns a positive id
    that none of the earlier calls returned. *)
Theorem nice_agent_add_stream_fresh_id :
  (forall n w,
     local_addresses (agent (st w)) = [] ->
     nice_agent_add_stream n w = Done 0 w) /\
  (forall calls w0 ids w n,
     host_candidates_succeed ->
     created w0 ->
     run_calls calls [] w0 = Done ids w ->
     Z.of_nat (length ids) < guint_modulus - 1 ->
     local_addresses (agent (st w)) <> [] ->
     alloc_plan (st w) = [] ->
     exists id w',
       nice_agent_add_stream n w = Done id w' /\ 0 < id /\ id ∉ ids).
Proof.
  split.
  - intros n w Hla.
    unfold nice_agent_add_stream, add_stream_gather, add_stream_allocate.
    assoc. step. rewrite Hla. reflexivity.
  - intros calls w0 ids w n Hsucceed Hnew Hrun Hlen Hla Hplan.
    destruct (run_calls_counted calls 0%nat [] w0 ids w
                (created_counted w0 Hnew) Hrun) as (k & Hk).
    destruct (counted_fresh k ids (st w) Hk Hlen) as [Hpos Hfresh].
    destruct (nice_agent_add_stream_done Hsucceed n w Hplan Hla)
      as (w' & Hdone & _); [apply Hk|].
    exists (next_stream_id (agent (st w))), w'. auto.
Qed.

End History.

(** C8 on the loopback agent: no stream without a local address; with
    one, the second stream is not given the id of the first. *)
Lemma nice_agent_add_stream_fresh_id_witness :
  nice_agent_add_stream (H := Loopback.env) 1 (Loopback.new_world false)
  = Done 0 (Loopback.new_world false) /\
  exists id w',
    nice_agent_add_stream (H := Loopback.env) 1 Loopback.one_stream
    = Done id w' /\
    0 < id /\ id ∉ [1].
Proof.
  destruct (nice_agent_add_stream_fresh_id (H := Loopback.env)
              (cooperative := loopback_cooperative)) as [Hnone Hfresh].
  split.
  - apply Hnone. reflexivity.
  - apply (Hfresh [Api_add_local_address Loopback.loopback_address;
                   Api_add_stream 1]
             (Loopback.new_world false) [1] Loopback.one_stream 1
             loopback_host_candidates_succeed).
    + split; [exists false, 20, 0; reflexivity|]. repeat split.
    + vm_compute. reflexivity.
    + vm_compute. reflexivity.
    + vm_compute. discriminate.
    + vm_compute. reflexivity.
Defined.

(** One more round of the client on the idle loopback agent: the stream is
    added under the agent's next id and removed under it, and the agent is
    idle again with the id after it as its next. *)
Lemma loopback_churn k :
  forall start ids w,
    idle w ->
    next_stream_id (agent (st w)) = to_guint start ->
    exists ids' w',
      run_calls (H := Loopback.env) (churn start k) ids w = Done ids' w' /\
      idle w' /\
      next_stream_id (agent (st w')) = to_guint (start + Z.of_nat k) /\
      (forall i, i ∈ ids -> i ∈ ids') /\
      ((0 < k)%nat -> to_guint start ∈ ids').
Proof.
  induction k as [|k IH]; intros start ids w Hidle Hnext.
  - exists ids, w. split; [reflexivity|]. split; [exact Hidle|].
    split; [rewrite Z.add_0_r; exact Hnext|]. split; [auto | lia].
  - destruct Hidle as (Hplan & Hla & Hd & Hstreams).
    destruct (nice_agent_add_stream_done (H := Loopback.env)
                (cooperative := loopback_cooperative)
                loopback_host_candidates_succeed 1 w Hplan Hla Hd)
      as (w1 & Hrun1 & Hplan1 & Hla1 & Hd1 & Hnext1 & sp & cs & Hstreams1
          & Hsp & Hcs).
    rewrite Hstreams in Hstreams1. cbn [app] in Hstreams1.
    cbn [churn run_calls]. rewrite (bind_done _ _ _ _ _ Hrun1).
    assert (Hfind : agent_find_stream (to_guint start) w1 = Done (Some sp) w1).
    { unfold agent_find_stream. step. rewrite Hstreams1.
      cbn [agent_find_stream_from]. step. cbn [stream_id linked_stream].
      rewrite Hnext, Z.eqb_refl. reflexivity. }
    pose proof (nice_agent_remove_stream_found (H := Loopback.env)
                  (to_guint start) w1 sp _ Hfind Hsp Hcs) as Hremove.
    cbv zeta in Hremove. rewrite Hstreams1 in Hremove.
    cbn [g_slist_remove] in Hremove.
    rewrite decide_True in Hremove by reflexivity.
    rewrite (bind_done _ _ _ _ _
               (Hremove ltac:(intros x; repeat split)
                  ltac:(intros x; repeat split))).
    clear Hremove.
    match goal with |- context [run_calls _ _ ?w2] =>
      destruct (IH (start + 1) (next_stream_id (agent (st w)) :: ids) w2)
        as (ids' & w' & Hrun' & Hidle' & Hnext' & Hids & _) end.
    + destruct (keepalive_timer_id (agent (st w1)) =? 0);
        (split; [exact Hplan1|]; split; [rewrite <- Hla1 in Hla; exact Hla|];
         split; [exact Hd1 | reflexivity]).
    + destruct (keepalive_timer_id (agent (st w1)) =? 0); cbn;
        rewrite Hnext1, Hnext; apply to_guint_add_l.
    + exists ids', w'. split; [exact Hrun'|]. split; [exact Hidle'|].
      split; [rewrite Hnext'; f_equal; lia|]. split.
      * intros i Hi. apply Hids. apply list_elem_of_further. exact Hi.
      * intros _. apply Hids. rewrite Hnext. apply list_elem_of_here.
Qed.

(** C8, counterexample: the loopback agent with its local address, after
    2^32 - 1 rounds of a client that adds a stream and removes it again,
    every allocation and every host candidate succeeding.  The agent has no
    stream, but its stream id counter has wrapped: the next call returns 0
    for the stream it adds, and the one after returns 1, the id the first
    stream was given. *)
Lemma nice_agent_add_stream_id_wraps :
  exists ids w w1 w2,
    run_calls (H := Loopback.env) (churn 1 (Z.to_nat 4294967295)) []
      Loopback.with_address
    = Done ids w /\
    streams (agent (st w)) = [] /\
    local_addresses (agent (st w)) <> [] /\
    alloc_plan (st w) = [] /\
    nice_agent_add_stream (H := Loopback.env) 1 w = Done 0 w1 /\
    nice_agent_add_stream (H := Loopback.env) 1 w1 = Done 1 w2 /\
    1 ∈ ids.
Proof.
  destruct (loopback_churn (Z.to_nat 4294967295) 1 [] Loopback.with_address)
    as (ids & w & Hrun & (Hplan & Hla & Hd & Hstreams) & Hnext & _ & Hin).
  { split; [reflexivity|]. split; [discriminate|].
    split; [left; reflexivity | reflexivity]. }
  { reflexivity. }
  rewrite Z2Nat.id in Hnext by lia.
  change (to_guint (1 + 4294967295)) with 0 in Hnext.
  destruct (nice_agent_add_stream_done (H := Loopback.env)
              (cooperative := loopback_cooperative)
              loopback_host_candidates_succeed 1 w Hplan Hla Hd)
    as (w1 & Hrun1 & Hplan1 & Hla1 & Hd1 & Hnext1 & _).
  destruct (nice_agent_add_stream_done (H := Loopback.env)
              (cooperative := loopback_cooperative)
              loopback_host_candidates_succeed 1 w1 Hplan1)
    as (w2 & Hrun2 & _); [rewrite Hla1; exact Hla | exact Hd1 |].
  rewrite Hnext in Hrun1, Hnext1. rewrite Hnext1 in Hrun2.
  exists ids, w, w1, w2.
  split; [exact Hrun|]. split; [exact Hstreams|]. split; [exact Hla|].
  split; [exact Hplan|]. split; [exact Hrun1|]. split; [exact Hrun2|].
  apply Hin. lia.
Qed.

(** * Further properties of agent.c *)

Section Finding.
Context `{Collaborators}.

(** ** Finding streams and components *)

Lemma agent_find_stream_from_first l id w :
  Forall (fun q => is_Some (stream_mem (st w) !! q)) l ->
  exists r,
    agent_find_stream_from l id w = Done r w /\
    match r with
    | Some sp =>
        exists before after s,
          l = before ++ sp :: after /\
          stream_mem (st w) !! sp = Some s /\ stream_id s = id /\
          Forall (fun q => forall t, stream_mem (st w) !! q = Some t ->
                                     stream_id t <> id) before
    | None =>
        Forall (fun q => forall t, stream_mem (st w) !! q = Some t ->
                                   stream_id t <> id) l
    end.
Proof.
  induction 1 as [|p l [s Hp] _ IH]; cbn [agent_find_stream_from].
  - exists None. split; [reflexivity | constructor].
  - step. destruct (stream_id s =? id) eqn:E.
    + exists (Some p). split; [reflexivity|]. exists [], l, s.
      split; [reflexivity|]. split; [exact Hp|]. split; [lia | constructor].
    + destruct IH as (r & Hfind & Hr). exists r. split; [exact Hfind|].
      assert (Hne : forall t, stream_mem (st w) !! p = Some t ->
                              stream_id t <> id).
      { intros t Ht. rewrite Hp in Ht. injection Ht as <-. lia. }
      destruct r as [sp|].
      * destruct Hr as (before & after & s' & -> & Hs' & Hid & Hbefore).
        exists (p :: before), after, s'. split; [reflexivity|].
        split; [exact Hs'|]. split; [exact Hid|]. constructor; assumption.
      * constructor; assumption.
Qed.

(** X1.  On an agent whose streams are all alive, [agent_find_stream]
    always returns, without changing anything: the first stream of the
    agent's list that has the id when there is one, and NULL exactly when
    no stream of the list has it. *)
Theorem agent_find_stream_first id w :
  Forall (fun q => is_Some (stream_mem (st w) !! q))
    (streams (agent (st w))) ->
  exists r,
    agent_find_stream id w = Done r w /\
    match r with
    | Some sp =>
        exists before after s,
          streams (agent (st w)) = before ++ sp :: after /\
          stream_mem (st w) !! sp = Some s /\ stream_id s = id /\
          Forall (fun q => forall t, stream_mem (st w) !! q = Some t ->
                                     stream_id t <> id) before
    | None =>
        Forall (fun q => forall t, stream_mem (st w) !! q = Some t ->
                                   stream_id t <> id)
          (streams (agent (st w)))
    end.
Proof.
  intros Halive. unfold agent_find_stream. step.
  apply agent_find_stream_from_first. exact Halive.
Qed.

End Finding.

Lemma agent_find_stream_first_witness :
  exists r,
    agent_find_stream 1 Loopback.one_stream = Done r Loopback.one_stream /\
    match r with
    | Some sp =>
        exists before after s,
          streams (agent (st Loopback.one_stream)) = before ++ sp :: after /\
          stream_mem (st Loopback.one_stream) !! sp = Some s /\
          stream_id s = 1 /\
          Forall (fun q => forall t,
                    stream_mem (st Loopback.one_stream) !! q = Some t ->
                    stream_id t <> 1) before
    | None =>
        Forall (fun q => forall t,
                  stream_mem (st Loopback.one_stream) !! q = Some t ->
                  stream_id t <> 1)
          (streams (agent (st Loopback.one_stream)))
    end.
Proof.
  apply (agent_find_stream_first 1 Loopback.one_stream).
  repeat constructor. vm_compute. eauto.
Defined.

Section Missing.
Context `{Collaborators}.

(** ** Streams and components that do not exist *)

Lemma agent_find_component_unknown_stream sid cid w :
  agent_find_stream sid w = Done None w ->
  agent_find_component sid cid w
  = Done (false, Indeterminate, Indeterminate) w.
Proof.
  intros Hfind. unfold agent_find_component.
  rewrite (bind_done _ _ _ _ _ Hfind). reflexivity.
Qed.

(** X2.  With no stream of the given id, the functions that look the
    stream or one of its components up hand back their failure value and
    leave everything as it is: FALSE from
    [nice_agent_get_local_credentials], [nice_agent_set_remote_credentials]
    and [nice_agent_add_remote_candidate], NULL from the two candidate
    getters, -1 from [nice_agent_set_remote_candidates] on a list that is
    not empty, and no signal from the two signal functions. *)
Theorem unknown_stream_fails sid w :
  agent_find_stream sid w = Done None w ->
  (forall ufrag pwd,
     nice_agent_get_local_credentials sid ufrag pwd w
     = Done (false, None) w) /\
  (forall ufrag pwd,
     nice_agent_set_remote_credentials sid ufrag pwd w = Done false w) /\
  (forall cid type address username password,
     nice_agent_add_remote_candidate sid cid type address username password w
     = Done false w) /\
  (forall cid, nice_agent_get_local_candidates sid cid w = Done [] w) /\
  (forall cid, nice_agent_get_remote_candidates sid cid w = Done [] w) /\
  (forall cid d ds,
     nice_agent_set_remote_candidates sid cid (d :: ds) w = Done (-1) w) /\
  (forall cid state,
     agent_signal_component_state_change sid cid state w = Done None w) /\
  (forall cid lf rf,
     agent_signal_new_selected_pair sid cid lf rf w = Done None w).
Proof.
  intros Hfind.
  pose proof (fun cid => agent_find_component_unknown_stream sid cid w Hfind)
    as Hcomp.
  split; [|split; [|split; [|split; [|split; [|split; [|split]]]]]].
  - intros ufrag pwd. unfold nice_agent_get_local_credentials.
    rewrite (bind_done _ _ _ _ _ Hfind). reflexivity.
  - intros ufrag pwd. unfold nice_agent_set_remote_credentials.
    rewrite (bind_done _ _ _ _ _ Hfind). reflexivity.
  - intros cid type address username password.
    unfold nice_agent_add_remote_candidate, priv_add_remote_candidate.
    rewrite (bind_done _ _ _ _ _ (Hcomp cid)). reflexivity.
  - intros cid. unfold nice_agent_get_local_candidates.
    rewrite (bind_done _ _ _ _ _ (Hcomp cid)). reflexivity.
  - intros cid. unfold nice_agent_get_remote_candidates.
    rewrite (bind_done _ _ _ _ _ (Hcomp cid)). reflexivity.
  - intros cid d ds.
    assert (Hadd : forall type address related transport priority foundation,
              priv_add_remote_candidate sid cid type address related
                transport priority None None foundation w = Done false w).
    { intros. unfold priv_add_remote_candidate.
      rewrite (bind_done _ _ _ _ _ (Hcomp cid)). reflexivity. }
    unfold nice_agent_set_remote_candidates.
    cbn [set_remote_candidates_from]. cbn [Z.leb Z.compare]. assoc.
    rewrite (bind_done _ _ _ _ _ (Hadd _ _ _ _ _ _)).
    destruct ds; reflexivity.
  - intros cid state. unfold agent_signal_component_state_change.
    rewrite (bind_done _ _ _ _ _ (Hcomp cid)). reflexivity.
  - intros cid lf rf. unfold agent_signal_new_selected_pair.
    rewrite (bind_done _ _ _ _ _ (Hcomp cid)). reflexivity.
Qed.

(** X3.  [agent_find_component] answers TRUE for a stream that exists
    also when the stream has no component of the given id, with NULL for
    the component.  The callers that test its answer only go on to read
    through that NULL pointer: the two candidate getters and
    [agent_signal_component_state_change] at once,
    [nice_agent_add_remote_candidate] once the candidate is allocated;
    [agent_signal_new_selected_pair], which does not look at the
    component, emits its signal for the component that does not exist. *)
Theorem missing_component_faults sid cid w sp :
  agent_find_component sid cid w
  = Done (true, Assigned (Some sp), Assigned None) w ->
  nice_agent_get_local_candidates sid cid w = Crash NullDereference /\
  nice_agent_get_remote_candidates sid cid w = Crash NullDereference /\
  (forall state,
     agent_signal_component_state_change sid cid state w
     = Crash NullDereference) /\
  (forall type address username password,
     hd true (alloc_plan (st w)) = true ->
     nice_agent_add_remote_candidate sid cid type address username password w
     = Crash NullDereference) /\
  (forall lf rf,
     agent_signal_new_selected_pair sid cid lf rf w
     = Done (Some (Signal_new_selected_pair sid cid lf rf)) w).
Proof.
  intros Hfind. split; [|split; [|split; [|split]]].
  - unfold nice_agent_get_local_candidates.
    rewrite (bind_done _ _ _ _ _ Hfind). reflexivity.
  - unfold nice_agent_get_remote_candidates.
    rewrite (bind_done _ _ _ _ _ Hfind). reflexivity.
  - intros state. unfold agent_signal_component_state_change.
    rewrite (bind_done _ _ _ _ _ Hfind). reflexivity.
  - intros type address username password Hplan.
    unfold nice_agent_add_remote_candidate, priv_add_remote_candidate.
    rewrite (bind_done _ _ _ _ _ Hfind). cbn [negb].
    unfold nice_candidate_new. step_with allocate_any. rewrite Hplan.
    repeat step. reflexivity.
  - intros lf rf. unfold agent_signal_new_selected_pair.
    rewrite (bind_done _ _ _ _ _ Hfind). reflexivity.
Qed.

End Missing.

Lemma unknown_stream_fails_witness :
  nice_agent_get_local_credentials 7 true true Loopback.one_stream
  = Done (false, None) Loopback.one_stream /\
  nice_agent_set_remote_candidates (H := Loopback.env) 7 1
    [Loopback.remote_desc] Loopback.one_stream
  = Done (-1) Loopback.one_stream.
Proof.
  destruct (unknown_stream_fails (H := Loopback.env) 7 Loopback.one_stream)
    as (Hcred & _ & _ & _ & _ & Hset & _).
  - vm_compute. reflexivity.
  - split; [apply Hcred | apply Hset].
Defined.

Lemma missing_component_faults_witness :
  nice_agent_get_remote_candidates 1 2 Loopback.one_stream
  = Crash NullDereference /\
  nice_agent_add_remote_candidate (H := Loopback.env) 1 2
    NICE_CANDIDATE_TYPE_HOST (Some Loopback.sender) None None
    Loopback.one_stream
  = Crash NullDereference.
Proof.
  destruct (missing_component_faults (H := Loopback.env) 1 2
              Loopback.one_stream 1%positive)
    as (_ & Hget & _ & Hadd & _).
  - vm_compute. reflexivity.
  - split; [exact Hget | apply Hadd; reflexivity].
Defined.

Section AddingStreamFailures.
Context `{Collaborators}.

(** ** Adding a stream: the failures *)

(** Freeing the components [components_new] made gives the component
    store back as it was. *)
Lemma components_new_freed k id w :
  exists cs m',
    components_new k id w
    = Done cs {| st := set_component_mem (fun _ => m') (st w);
                 log := log w |} /\
    foldr (fun c m => delete c m) m' cs = component_mem (st w).
Proof.
  revert id w. induction k as [|k IH]; intros id w; cbn [components_new].
  - exists [], (component_mem (st w)). split; [|reflexivity].
    destruct w as [[] ?]. reflexivity.
  - destruct (component_new_done id w) as (c & Hnew).
    rewrite (bind_done _ _ _ _ _ Hnew).
    match type of Hnew with _ = Done ?p ?w1 =>
      destruct (IH (id + 1) w1) as (cs & m' & Hrest & Hfreed) end.
    rewrite (bind_done _ _ _ _ _ Hrest).
    exists (fresh (dom (component_mem (st w))) :: cs), m'.
    split; [reflexivity|]. cbn [foldr]. rewrite Hfreed.
    cbn [st component_mem set_component_mem].
    apply delete_insert_id, not_elem_of_dom, is_fresh.
Qed.

(** X4.  When the allocation of the stream or of its node in the agent's
    list fails, [nice_agent_add_stream] returns 0 and leaves no trace: the
    agent object, the streams and the components are as before; in the
    second case the stream just made is handed to [stream_free], and
    nothing else is called or signalled. *)
Theorem nice_agent_add_stream_allocation_failure n w :
  hd true (alloc_plan (st w)) = false \/
  hd true (tail (alloc_plan (st w))) = false ->
  exists w',
    nice_agent_add_stream n w = Done 0 w' /\
    agent (st w') = agent (st w) /\
    stream_mem (st w') = stream_mem (st w) /\
    component_mem (st w') = component_mem (st w) /\
    Forall (fun e => exists sp, e = Call_stream_free sp) (new_events w w').
Proof.
  intros Hfail.
  unfold nice_agent_add_stream, add_stream_gather, add_stream_allocate.
  assoc. step.
  destruct (local_addresses (agent (st w))) as [|la las].
  { exists w. split; [reflexivity|]. repeat (split; [reflexivity|]).
    unfold new_events. rewrite drop_all. constructor. }
  unfold stream_new. step_with allocate_any.
  destruct (hd true (alloc_plan (st w))) eqn:Hb1; cbv iota.
  2:{ repeat step. eexists. split; [reflexivity|].
      repeat (split; [reflexivity|]). cbn [log].
      unfold new_events. rewrite drop_all. constructor. }
  destruct Hfail as [Hfail|Hfail]; [discriminate|].
  assoc.
  match goal with |- context [bind (components_new ?k ?i) _ ?w0] =>
    destruct (components_new_freed k i w0) as (cs & m' & Hcs & Hfreed) end.
  assoc. step_by ltac:(exact Hcs). state_simpl. repeat step.
  step_with @g_slist_append_any. rewrite Hfail.
  unfold stream_free. repeat step.
  eexists. split; [reflexivity|]. state_simpl.
  split; [reflexivity|]. split; [|split].
  - apply delete_insert_id, not_elem_of_dom, is_fresh.
  - cbn [components]. exact Hfreed.
  - erewrite new_events_app by reflexivity. repeat constructor. eauto.
Qed.

End AddingStreamFailures.

Lemma nice_agent_add_stream_allocation_failure_witness :
  exists w',
    nice_agent_add_stream (H := Loopback.env) 1
      (planned [true; false] Loopback.with_address)
    = Done 0 w' /\
    agent (st w') = agent (st Loopback.with_address) /\
    stream_mem (st w') = stream_mem (st Loopback.with_address) /\
    new_events (planned [true; false] Loopback.with_address) w'
    = [Call_stream_free 1%positive].
Proof.
  destruct (nice_agent_add_stream_allocation_failure (H := Loopback.env) 1
              (planned [true; false] Loopback.with_address))
    as (w' & Hrun & Hagent & Hmem & _ & _).
  - right. reflexivity.
  - exists w'. split; [exact Hrun|]. split; [exact Hagent|].
    split; [exact Hmem|].
    assert (E : nice_agent_add_stream (H := Loopback.env) 1
                  (planned [true; false] Loopback.with_address)
                = Done 0 (Loopback.world_after
                            (nice_agent_add_stream (H := Loopback.env) 1)
                            (planned [true; false] Loopback.with_address)))
      by (vm_compute; reflexivity).
    rewrite Hrun in E. injection E as ->. vm_compute. reflexivity.
Defined.

Section AddingStreamLinks.
Context `{Collaborators}.
Context {cooperative : Cooperative}.

(** X5.  Whenever [nice_agent_add_stream] returns, either no stream was
    linked, the result is 0 and the agent object is as before; or one new
    stream is the last of the agent's list, the stream id counter has
    moved on by one, the value returned is the id that stream has, which is
    the agent's next id before the call or 0, and the other streams are as
    they were. *)
Theorem nice_agent_add_stream_links n w id w' :
  nice_agent_add_stream n w = Done id w' ->
  (id = 0 /\ agent (st w') = agent (st w)) \/
  (exists sp s,
     stream_mem (st w) !! sp = None /\
     streams (agent (st w')) = streams (agent (st w)) ++ [sp] /\
     next_stream_id (agent (st w'))
     = to_guint (next_stream_id (agent (st w)) + 1) /\
     stream_mem (st w') !! sp = Some s /\
     stream_id s = id /\
     (id = next_stream_id (agent (st w)) \/ id = 0) /\
     (forall q, q <> sp -> stream_mem (st w') !! q = stream_mem (st w) !! q)).
Proof.
  intros Hrun.
  apply nice_agent_add_stream_inv in Hrun
    as [Hnone|(sp & cs & x1 & s' & Hfresh & _ & Hagent & Hmem & Hstays & Hs'
               & Hid)];
    [left; exact Hnone|].
  right. destruct Hstays as (Hstreams & _ & Hnext & _ & Hstreams_mem).
  exists sp, s'. split; [exact Hfresh|].
  split; [rewrite Hstreams, Hagent; reflexivity|].
  split; [rewrite Hnext, Hagent; reflexivity|].
  split; [exact Hs'|]. split; [exact Hid|]. split.
  - destruct (Hstreams_mem sp) as [E|[_ E]];
      rewrite Hs', Hmem, lookup_insert_eq in E; injection E as ->.
    + left. rewrite <- Hid. reflexivity.
    + right. rewrite <- Hid. reflexivity.
  - intros q Hq. destruct (Hstreams_mem q) as [E|[E _]]; [|contradiction].
    rewrite E, Hmem. apply lookup_insert_ne. congruence.
Qed.

(** ** Adding a stream when no host candidate can be made *)

Hypothesis no_host_candidates :
  forall sid cid a x, (discovery_add_local_host_candidate sid cid a x).1 = None.

Lemma ready_zero_stream_id sp s x :
  ready sp s x ->
  ready sp (with_stream_id 0 s)
    (set_stream_mem (fun m => <[sp := with_stream_id 0 s]> m) x).
Proof.
  intros (Hplan & Hs & Hcs & Hd).
  split; [exact Hplan|]. split; [apply lookup_insert_eq|].
  split; [exact Hcs | exact Hd].
Qed.

Lemma add_stream_components_fails sp s count n address w :
  ready sp s (st w) ->
  exists w',
    add_stream_components (S count) n sp address w = Done tt w' /\
    ready sp (with_stream_id 0 s) (st w').
Proof.
  intros Hready. pose proof Hready as (Hplan & Hs & Hcs & Hd).
  cbn [add_stream_components]. repeat step.
  pose proof (host_candidate_fenced (stream_id s) (n + 1) address (st w))
    as Hf.
  pose proof (no_host_candidates (stream_id s) (n + 1) address (st w))
    as Hnone.
  destruct (discovery_add_local_host_candidate (stream_id s) (n + 1)
              address (st w)) as [hc x'].
  cbn [fst snd] in *. subst hc.
  pose proof (ready_fenced sp s _ _ Hf Hready) as Hready'.
  pose proof Hready' as (_ & Hs' & _).
  eexists. split; [apply run_modify_stream; exact Hs'|].
  apply ready_zero_stream_id. exact Hready'.
Qed.

Lemma add_stream_addresses_fails sp i n :
  i <> [] -> (0 < n) ->
  forall s w,
    ready sp s (st w) ->
    exists w',
      add_stream_addresses i n sp w = Done tt w' /\
      ready sp (with_stream_id 0 s) (st w').
Proof.
  intros Hi Hn. destruct (Z.to_nat n) as [|count] eqn:En; [lia|].
  induction i as [|address next IH]; [contradiction|]. intros s w Hready.
  cbn [add_stream_addresses]. rewrite En.
  destruct (add_stream_components_fails sp s count 0 address w Hready)
    as (w1 & Hrun & Hready1).
  rewrite (bind_done _ _ _ _ _ Hrun).
  destruct next as [|address' next'].
  - exists w1. split; [reflexivity | exact Hready1].
  - apply (IH ltac:(discriminate) (with_stream_id 0 s) w1 Hready1).
Qed.

(** X6.  When the discovery module cannot make a host candidate, with a
    local address at hand, at least one component asked for and no
    allocation failing, [nice_agent_add_stream] returns 0 and yet leaves
    the new stream linked as the last of the agent's list, with 0 as its
    id, and the stream id counter moved on by one. *)
Theorem nice_agent_add_stream_without_host_candidates n w :
  alloc_plan (st w) = [] ->
  local_addresses (agent (st w)) <> [] ->
  discovery_consistent (st w) ->
  0 < n ->
  exists w' sp s,
    nice_agent_add_stream n w = Done 0 w' /\
    stream_mem (st w) !! sp = None /\
    streams (agent (st w')) = streams (agent (st w)) ++ [sp] /\
    stream_mem (st w') !! sp = Some s /\
    stream_id s = 0 /\
    next_stream_id (agent (st w'))
    = to_guint (next_stream_id (agent (st w)) + 1).
Proof.
  intros Hplan Hla Hd Hn.
  destruct (add_stream_allocate_done n w Hla) as (sp & w1 & Halloc);
    [rewrite Hplan; reflexivity | rewrite Hplan; reflexivity |].
  destruct (add_stream_allocate_some n w sp w1 Halloc)
    as (cs & Hfresh & _ & Hagent & Hmem & Hcs & Hplan1 & _).
  set (s := linked_stream (agent (st w)) cs) in *.
  assert (Hready : ready sp s (st w1)).
  { split; [rewrite Hplan1, Hplan; reflexivity|].
    split; [rewrite Hmem; apply lookup_insert_eq|].
    split; [exact Hcs|]. unfold discovery_consistent. rewrite Hagent.
    exact Hd. }
  assert (Hla1 : local_addresses (agent (st w1)) <> [])
    by (rewrite Hagent; exact Hla).
  destruct (add_stream_addresses_fails sp _ n Hla1 Hn s w1 Hready)
    as (w2 & Hrun2 & Hready2).
  destruct (add_stream_attach_done sp _ w2 Hready2) as (w3 & Hrun3 & Hf3).
  pose proof (ready_fenced sp _ _ _ Hf3 Hready2) as Hready3.
  destruct (add_stream_conclude_done sp _ w3 Hready3) as (w' & Hrun & Hf).
  pose proof (ready_fenced sp _ _ _ Hf Hready3) as (_ & Hs' & _).
  assert (Hall : nice_agent_add_stream n w = Done 0 w').
  { unfold nice_agent_add_stream, add_stream_gather. assoc.
    rewrite (bind_done _ _ _ _ _ Halloc). repeat step. exact Hrun. }
  pose proof (keeps_add_stream_addresses sp _ _ _ _ _ Hrun2)
    as (E2 & _ & N2 & _).
  destruct Hf3 as (E3 & _ & N3 & _). destruct Hf as (E & _ & N & _).
  exists w', sp, (with_stream_id 0 s).
  split; [exact Hall|]. split; [exact Hfresh|].
  split; [rewrite E, E3, E2, Hagent; reflexivity|].
  split; [exact Hs'|]. split; [reflexivity|].
  rewrite N, N3, N2, Hagent. reflexivity.
Qed.

End AddingStreamLinks.

Lemma offline_cooperative : @Cooperative Offline.env.
Proof.
  split; intros; try apply settled_refl; try apply fenced_refl.
  discriminate.
Qed.

Lemma nice_agent_add_stream_links_witness :
  (1 = 0 /\
   agent (st Loopback.one_stream) = agent (st Loopback.with_address)) \/
  (exists sp s,
     stream_mem (st Loopback.with_address) !! sp = None /\
     streams (agent (st Loopback.one_stream))
     = streams (agent (st Loopback.with_address)) ++ [sp] /\
     next_stream_id (agent (st Loopback.one_stream))
     = to_guint (next_stream_id (agent (st Loopback.with_address)) + 1) /\
     stream_mem (st Loopback.one_stream) !! sp = Some s /\
     stream_id s = 1 /\
     (1 = next_stream_id (agent (st Loopback.with_address)) \/ 1 = 0) /\
     (forall q, q <> sp ->
        stream_mem (st Loopback.one_stream) !! q
        = stream_mem (st Loopback.with_address) !! q)).
Proof.
  apply (nice_agent_add_stream_links (H := Loopback.env)
           (cooperative := loopback_cooperative) 1 Loopback.with_address).
  vm_compute. reflexivity.
Defined.

Lemma nice_agent_add_stream_without_host_candidates_witness :
  exists w' sp s,
    nice_agent_add_stream (H := Offline.env) 1 Loopback.with_address
    = Done 0 w' /\
    stream_mem (st Loopback.with_address) !! sp = None /\
    streams (agent (st w'))
    = streams (agent (st Loopback.with_address)) ++ [sp] /\
    stream_mem (st w') !! sp = Some s /\
    stream_id s = 0 /\
    next_stream_id (agent (st w'))
    = to_guint (next_stream_id (agent (st Loopback.with_address)) + 1).
Proof.
  apply (nice_agent_add_stream_without_host_candidates (H := Offline.env)
           (cooperative := offline_cooperative)).
  - reflexivity.
  - reflexivity.
  - discriminate.
  - left. reflexivity.
  - lia.
Defined.

Section RemoteCredentials.
Context `{Collaborators}.

(** ** Setting the remote credentials *)

Lemma c_string_before_nul data rest :
  Forall (fun b => b <> 0) data -> c_string (data ++ 0 :: rest) = data.
Proof.
  induction 1 as [|b data Hb _ IH]; cbn; [reflexivity|].
  destruct (b =? 0) eqn:E; [lia|]. rewrite IH. reflexivity.
Qed.

(** [g_strlcpy] into a buffer of the size it is told leaves the buffer
    that long, holding the string cut to one character less than the
    size. *)
Lemma g_strlcpy_into_string dest src size :
  0 < size -> length dest = Z.to_nat size ->
  Forall (fun b => b <> 0) src ->
  c_string (g_strlcpy_into dest src size) = take (Z.to_nat (size - 1)) src /\
  length (g_strlcpy_into dest src size) = length dest.
Proof.
  intros Hsize Hlen Hsrc. unfold g_strlcpy_into.
  destruct (size <=? 0) eqn:E; [lia|]. unfold store_bytes. split.
  - rewrite <- app_assoc. cbn [app].
    apply c_string_before_nul. apply Forall_take. exact Hsrc.
  - rewrite length_app, length_drop, length_app, length_take. cbn [length].
    lia.
Qed.

(** X7.  For a stream that exists and two strings,
    [nice_agent_set_remote_credentials] returns TRUE and stores in the
    stream's two remote buffers, which keep their sizes, the ufrag cut to
    [NICE_STREAM_MAX_UFRAG - 1] characters and the password cut to
    [NICE_STREAM_MAX_PWD - 1]; a string that is too long is cut without a
    word.  The stream's id, components and local credentials, the other
    streams and the rest of the state are as before. *)
Theorem nice_agent_set_remote_credentials_stored sid w sp s u p :
  agent_find_stream sid w = Done (Some sp) w ->
  stream_mem (st w) !! sp = Some s ->
  0 < NICE_STREAM_MAX_UFRAG ->
  0 < NICE_STREAM_MAX_PWD ->
  length (remote_ufrag s) = Z.to_nat NICE_STREAM_MAX_UFRAG ->
  length (remote_password s) = Z.to_nat NICE_STREAM_MAX_PWD ->
  Forall (fun b => b <> 0) u ->
  Forall (fun b => b <> 0) p ->
  exists s',
    nice_agent_set_remote_credentials sid (Some u) (Some p) w
    = Done true {| st := set_stream_mem (fun m => <[sp := s']> m) (st w);
                   log := log w |} /\
    c_string (remote_ufrag s')
    = take (Z.to_nat (NICE_STREAM_MAX_UFRAG - 1)) u /\
    c_string (remote_password s')
    = take (Z.to_nat (NICE_STREAM_MAX_PWD - 1)) p /\
    length (remote_ufrag s') = length (remote_ufrag s) /\
    length (remote_password s') = length (remote_password s) /\
    stream_id s' = stream_id s /\
    components s' = components s /\
    local_ufrag s' = local_ufrag s /\
    local_password s' = local_password s /\
    initial_binding_request_received s' = initial_binding_request_received s.
Proof.
  intros Hfind Hs Hmu Hmp Hlu Hlp Hu Hp.
  destruct (g_strlcpy_into_string (remote_ufrag s) u _ Hmu Hlu Hu)
    as [Eu Lu].
  destruct (g_strlcpy_into_string (remote_password s) p _ Hmp Hlp Hp)
    as [Ep Lp].
  eexists. split.
  - unfold nice_agent_set_remote_credentials.
    rewrite (bind_done _ _ _ _ _ Hfind). repeat step.
    unfold ret. f_equal. f_equal. unfold set_stream_mem. state_simpl.
    rewrite insert_insert_eq. reflexivity.
  - cbn. auto 10.
Qed.

End RemoteCredentials.

Lemma nice_agent_set_remote_credentials_stored_witness :
  exists s',
    nice_agent_set_remote_credentials (H := Loopback.env) 1
      (Some [97; 98; 99]) (Some (replicate 300 100)) Loopback.one_stream
    = Done true
        {| st := set_stream_mem (fun m => <[1%positive := s']> m)
                   (st Loopback.one_stream);
           log := log Loopback.one_stream |} /\
    c_string (remote_ufrag s') = [97; 98; 99] /\
    c_string (remote_password s') = replicate 256 100.
Proof.
  destruct (nice_agent_set_remote_credentials_stored (H := Loopback.env) 1
              Loopback.one_stream 1%positive
              (Loopback.stream_at Loopback.one_stream 1%positive)
              [97; 98; 99] (replicate 300 100))
    as (s' & Hrun & Hu & Hp & _).
  - vm_compute. reflexivity.
  - vm_compute. reflexivity.
  - reflexivity.
  - reflexivity.
  - vm_compute. reflexivity.
  - vm_compute. reflexivity.
  - repeat constructor; discriminate.
  - apply Forall_forall. intros b Hb.
    apply elem_of_replicate in Hb as [-> _]. discriminate.
  - exists s'. split; [exact Hrun|]. split; [exact Hu|]. exact Hp.
Defined.

(** ** The GObject properties *)

(** X8.  Setting a property to a value of its type and getting it gives
    the value back, and the other properties read as before; but for
    [PROP_TURN_SERVER_PORT], which [nice_agent_get_property] reads and
    [nice_agent_set_property] has no case for: setting it warns about the
    id and writes nothing. *)
Theorem nice_agent_property_round_trip property_id value a r :
  holds_type_of property_id value ->
  (property_id <> PROP_TURN_SERVER_PORT ->
   exists a' r',
     nice_agent_set_property property_id value a r = Some (a', r') /\
     nice_agent_get_property property_id a' r' = Some value /\
     forall other, other <> property_id ->
       nice_agent_get_property other a' r'
       = nice_agent_get_property other a r) /\
  (property_id = PROP_TURN_SERVER_PORT ->
   nice_agent_set_property property_id value a r = None /\
   nice_agent_get_property property_id a r
   = Some (G_uint (turn_server_port a))).
Proof.
  intros Htype. split.
  - intros Hport.
    assert (Hcases :
      property_id = 1 \/ property_id = 2 \/ property_id = 3 \/
      property_id = 4 \/ property_id = 6 \/ property_id = 7 \/
      property_id = 8).
    { unfold PROP_TURN_SERVER_PORT in Hport.
      destruct value; cbn in Htype;
        unfold PROP_SOCKET_FACTORY, PROP_STUN_SERVER, PROP_TURN_SERVER,
          PROP_STUN_SERVER_PORT, PROP_TURN_SERVER_PORT,
          PROP_STUN_PACING_TIMER, PROP_CONTROLLING_MODE, PROP_FULL_MODE
          in Htype; lia. }
    destruct Hcases as [->|[->|[->|[->|[->|[->| ->]]]]]];
      destruct value; cbn in Htype;
      unfold PROP_SOCKET_FACTORY, PROP_STUN_SERVER, PROP_TURN_SERVER,
        PROP_STUN_SERVER_PORT, PROP_TURN_SERVER_PORT,
        PROP_STUN_PACING_TIMER, PROP_CONTROLLING_MODE, PROP_FULL_MODE
        in Htype; try lia;
      (eexists _, _; split; [reflexivity|]; split; [reflexivity|];
       intros other Hother; unfold nice_agent_get_property;
       repeat match goal with
              | |- context [other =? ?c] =>
                  destruct (Z.eqb_spec other c);
                  [first [contradiction | subst other; reflexivity]|]
              end; reflexivity).
  - intros ->. split; reflexivity.
Qed.

Lemma nice_agent_property_round_trip_witness :
  (exists a' r',
     nice_agent_set_property PROP_STUN_SERVER_PORT (G_uint 3479)
       (nice_agent_init true 20 0)
       {| socket_factory := None; turn_server_ip := None;
          main_context := None; read_func := None; read_func_data := None |}
     = Some (a', r') /\
     nice_agent_get_property PROP_STUN_SERVER_PORT a' r'
     = Some (G_uint 3479)) /\
  nice_agent_set_property PROP_TURN_SERVER_PORT (G_uint 3479)
    (nice_agent_init true 20 0)
    {| socket_factory := None; turn_server_ip := None;
       main_context := None; read_func := None; read_func_data := None |}
  = None.
Proof.
  split.
  - destruct (proj1 (nice_agent_property_round_trip PROP_STUN_SERVER_PORT
                       (G_uint 3479) (nice_agent_init true 20 0)
                       {| socket_factory := None; turn_server_ip := None;
                          main_context := None; read_func := None;
                          read_func_data := None |}
                       ltac:(left; reflexivity)) ltac:(discriminate))
      as (a' & r' & Hset & Hget & _).
    exists a', r'. split; assumption.
  - apply (proj2 (nice_agent_property_round_trip PROP_TURN_SERVER_PORT
                    (G_uint 3479) (nice_agent_init true 20 0)
                    {| socket_factory := None; turn_server_ip := None;
                       main_context := None; read_func := None;
                       read_func_data := None |}
                    ltac:(right; left; reflexivity)) eq_refl).
Defined.

Section RemoteCandidate.
Context `{Collaborators}.

(** ** Adding one remote candidate *)

(** The lookups go by the ids of the components, not by what else is in
    them. *)
Lemma find_component_by_id_from_ids i id w1 w2 :
  (forall q, comp_id <$> component_mem (st w1) !! q
             = comp_id <$> component_mem (st w2) !! q) ->
  forall r, find_component_by_id_from i id w1 = Done r w1 ->
            find_component_by_id_from i id w2 = Done r w2.
Proof.
  intros Hc. induction i as [|p next IH]; intros r; cbn.
  - unfold ret. congruence.
  - unfold bind, load_component, load. specialize (Hc p).
    destruct (component_mem (st w1) !! p) as [c1|]; [|discriminate].
    destruct (component_mem (st w2) !! p) as [c2|]; [|discriminate].
    cbn in Hc. injection Hc as ->.
    destruct (comp_id c2 =? id); [unfold ret; congruence | apply IH].
Qed.

Lemma agent_find_component_ids sid cid w1 w2 r :
  streams (agent (st w1)) = streams (agent (st w2)) ->
  stream_mem (st w1) = stream_mem (st w2) ->
  (forall q, comp_id <$> component_mem (st w1) !! q
             = comp_id <$> component_mem (st w2) !! q) ->
  agent_find_component sid cid w1 = Done r w1 ->
  agent_find_component sid cid w2 = Done r w2.
Proof.
  intros Hl Hs Hc Hfind. unfold agent_find_component in *.
  apply bind_inv in Hfind as (found & w & Hstream & Hfind).
  pose proof (agent_find_stream_pure _ _ _ _ Hstream) as ->.
  assert (Hstream2 : agent_find_stream sid w2 = Done found w2).
  { unfold agent_find_stream in *. revert Hstream. unfold bind, get_agent.
    rewrite Hl. apply agent_find_stream_from_frame. exact Hs. }
  rewrite (bind_done _ _ _ _ _ Hstream2).
  destruct found as [sp|].
  - apply bind_inv in Hfind as (c & w & Hcomp & Hfind).
    pose proof (stream_find_component_by_id_pure _ _ _ _ _ Hcomp) as ->.
    assert (Hcomp2 : stream_find_component_by_id sp cid w2 = Done c w2).
    { unfold stream_find_component_by_id, bind, load_stream, load in *.
      rewrite <- Hs.
      destruct (stream_mem (st w1) !! sp) as [s|]; [|discriminate].
      eapply find_component_by_id_from_ids; eassumption. }
    rewrite (bind_done _ _ _ _ _ Hcomp2).
    cbv [ret] in *. injection Hfind as <-. reflexivity.
  - cbv [ret] in *. injection Hfind as <-. reflexivity.
Qed.

(** The run of [nice_agent_add_remote_candidate] on a component that
    exists, with the two allocations granted, up to the answer of the
    connectivity checks. *)
Lemma nice_agent_add_remote_candidate_run sid cid type address username
    password w sp cp c :
  agent_find_component sid cid w
  = Done (true, Assigned (Some sp), Assigned (Some cp)) w ->
  component_mem (st w) !! cp = Some c ->
  hd true (alloc_plan (st w)) = true ->
  hd true (tail (alloc_plan (st w))) = true ->
  NDEBUG = true \/ is_Some address ->
  let cand := fresh (dom (candidate_mem (st w))) in
  let x1 :=
    set_candidate_mem
      (fun m => <[cand := added_remote_candidate sid cid type address
                            username password]> m)
      (set_component_mem
         (fun m => <[cp := with_remote_candidates
                             (remote_candidates c ++ [cand]) c]> m)
         (set_alloc_plan (tail (tail (alloc_plan (st w)))) (st w))) in
  let answer := conn_check_add_for_candidate sid cp cand x1 in
  let called := log w ++ [Call_conn_check_add_for_candidate sid cp cand] in
  nice_agent_add_remote_candidate sid cid type address username password w
  = if answer.1 <? 0 then
      Done false
        {| st := set_candidate_mem (fun m => delete cand m) answer.2;
           log := called ++ [Call_nice_candidate_free cand] |}
    else Done true {| st := answer.2; log := called |}.
Proof.
  intros Hfind Hc Hb1 Hb2 Haddr cand x1 answer called.
  unfold nice_agent_add_remote_candidate, priv_add_remote_candidate.
  rewrite (bind_done _ _ _ _ _ Hfind). cbn [negb].
  unfold nice_candidate_new. step_with allocate_any. rewrite Hb1.
  repeat step. step_with @g_slist_append_any. rewrite Hb2.
  repeat step.
  assert (Hdebug :
    forall w0, (if NDEBUG then ret tt
                else match address with
                     | Some _ => ret tt
                     | None => crash NullDereference
                     end) w0 = Done tt w0).
  { intros w0. destruct Haddr as [->|[a ->]]; [reflexivity|].
    destruct NDEBUG; reflexivity. }
  assoc. rewrite (bind_done _ _ _ _ _ (Hdebug _)). clear Hdebug.
  repeat step.
  match goal with
  | |- context [conn_check_add_for_candidate sid cp _ ?x] =>
      assert (Hx : x = x1)
        by (unfold x1, cand, added_remote_candidate, set_candidate_mem,
              set_component_mem, set_alloc_plan; state_simpl; cbn;
            rewrite insert_insert_eq; reflexivity);
      rewrite Hx; clear Hx
  end.
  fold cand. fold answer. destruct (answer.1 <? 0).
  - unfold nice_candidate_free. repeat step. unfold called.
    rewrite <- app_assoc. reflexivity.
  - reflexivity.
Qed.

(** What the getters find once the component's list has its new entry. *)
Lemma remote_candidates_after sid cid w sp cp c cand w' :
  agent_find_component sid cid w
  = Done (true, Assigned (Some sp), Assigned (Some cp)) w ->
  component_mem (st w) !! cp = Some c ->
  streams (agent (st w')) = streams (agent (st w)) ->
  stream_mem (st w') = stream_mem (st w) ->
  component_mem (st w')
  = <[cp := with_remote_candidates (remote_candidates c ++ [cand]) c]>
      (component_mem (st w)) ->
  nice_agent_get_remote_candidates sid cid w'
  = Done (remote_candidates c ++ [cand]) w' /\
  nice_agent_get_local_candidates sid cid w' = Done (local_candidates c) w'.
Proof.
  intros Hfind Hc Hl Hs Hm.
  assert (Hfind' : agent_find_component sid cid w'
                   = Done (true, Assigned (Some sp), Assigned (Some cp)) w').
  { apply (agent_find_component_ids sid cid w w'); auto.
    intros q. rewrite Hm. destruct (decide (cp = q)) as [<-|Hne].
    - rewrite lookup_insert_eq, Hc. reflexivity.
    - rewrite lookup_insert_ne by exact Hne. reflexivity. }
  assert (Hc' : component_mem (st w') !! cp
                = Some (with_remote_candidates
                          (remote_candidates c ++ [cand]) c))
    by (rewrite Hm; apply lookup_insert_eq).
  split.
  - unfold nice_agent_get_remote_candidates.
    rewrite (bind_done _ _ _ _ _ Hfind'). cbn [negb deref]. repeat step.
    reflexivity.
  - unfold nice_agent_get_local_candidates.
    rewrite (bind_done _ _ _ _ _ Hfind'). cbn [negb deref]. repeat step.
    reflexivity.
Qed.

(** X9.  On a component that exists, with the allocations granted and the
    connectivity checks taking the candidate,
    [nice_agent_add_remote_candidate] returns TRUE; the new candidate, a
    UDP one of priority 0 with the type, address and credentials given, is
    the last of the list [nice_agent_get_remote_candidates] hands out from
    then on, and the local candidates are as before. *)
Theorem nice_agent_add_remote_candidate_listed sid cid type address username
    password w sp cp c :
  agent_find_component sid cid w
  = Done (true, Assigned (Some sp), Assigned (Some cp)) w ->
  component_mem (st w) !! cp = Some c ->
  hd true (alloc_plan (st w)) = true ->
  hd true (tail (alloc_plan (st w))) = true ->
  NDEBUG = true \/ is_Some address ->
  leaves_candidates
    (conn_check_add_for_candidate sid cp (fresh (dom (candidate_mem (st w))))) ->
  (forall x,
     0 <= (conn_check_add_for_candidate sid cp
             (fresh (dom (candidate_mem (st w)))) x).1) ->
  exists w' cand,
    nice_agent_add_remote_candidate sid cid type address username password w
    = Done true w' /\
    candidate_mem (st w) !! cand = None /\
    candidate_mem (st w') !! cand
    = Some (added_remote_candidate sid cid type address username password) /\
    nice_agent_get_remote_candidates sid cid w'
    = Done (remote_candidates c ++ [cand]) w' /\
    nice_agent_get_local_candidates sid cid w' = Done (local_candidates c) w'.
Proof.
  intros Hfind Hc Hb1 Hb2 Haddr Hleaves Htaken.
  pose proof (nice_agent_add_remote_candidate_run sid cid type address
                username password w sp cp c Hfind Hc Hb1 Hb2 Haddr) as Hrun.
  cbv zeta in Hrun.
  match type of Hrun with
  | context [conn_check_add_for_candidate sid cp ?cand ?x1] =>
      pose proof (Htaken x1) as Hans;
      destruct (Hleaves x1) as (Hl & Hs & Hm & Hk)
  end.
  destruct (_ <? 0) eqn:E in Hrun; [lia|].
  eexists _, _. split; [exact Hrun|].
  split; [apply not_elem_of_dom, is_fresh|].
  split; [cbn [st]; rewrite Hk; apply lookup_insert_eq|].
  eapply remote_candidates_after; eauto.
Qed.

(** X10.  When the connectivity checks refuse the candidate,
    [nice_agent_add_remote_candidate] frees it and returns FALSE, but the
    candidate stays linked in the component's list of remote candidates:
    the last entry of the list, which [nice_agent_get_remote_candidates]
    hands out, points to a candidate that is no more. *)
Theorem nice_agent_add_remote_candidate_refused sid cid type address username
    password w sp cp c :
  agent_find_component sid cid w
  = Done (true, Assigned (Some sp), Assigned (Some cp)) w ->
  component_mem (st w) !! cp = Some c ->
  hd true (alloc_plan (st w)) = true ->
  hd true (tail (alloc_plan (st w))) = true ->
  NDEBUG = true \/ is_Some address ->
  leaves_candidates
    (conn_check_add_for_candidate sid cp (fresh (dom (candidate_mem (st w))))) ->
  (forall x,
     (conn_check_add_for_candidate sid cp
        (fresh (dom (candidate_mem (st w)))) x).1 < 0) ->
  exists w' cand,
    nice_agent_add_remote_candidate sid cid type address username password w
    = Done false w' /\
    candidate_mem (st w') !! cand = None /\
    nice_agent_get_remote_candidates sid cid w'
    = Done (remote_candidates c ++ [cand]) w' /\
    new_events w w'
    = [Call_conn_check_add_for_candidate sid cp cand;
       Call_nice_candidate_free cand].
Proof.
  intros Hfind Hc Hb1 Hb2 Haddr Hleaves Hrefused.
  pose proof (nice_agent_add_remote_candidate_run sid cid type address
                username password w sp cp c Hfind Hc Hb1 Hb2 Haddr) as Hrun.
  cbv zeta in Hrun.
  match type of Hrun with
  | context [conn_check_add_for_candidate sid cp ?cand ?x1] =>
      pose proof (Hrefused x1) as Hans;
      destruct (Hleaves x1) as (Hl & Hs & Hm & Hk)
  end.
  destruct (_ <? 0) eqn:E in Hrun; [|lia].
  eexists _, _. split; [exact Hrun|].
  split; [cbn [st candidate_mem set_candidate_mem]; apply lookup_delete_eq|].
  split.
  - eapply remote_candidates_after; eauto.
  - apply new_events_app. rewrite <- app_assoc. reflexivity.
Qed.

End RemoteCandidate.

Lemma nice_agent_add_remote_candidate_listed_witness :
  exists w' cand,
    nice_agent_add_remote_candidate (H := Loopback.env) 1 1
      NICE_CANDIDATE_TYPE_HOST (Some Loopback.sender) None None
      Loopback.one_stream
    = Done true w' /\
    candidate_mem (st w') !! cand
    = Some (added_remote_candidate 1 1 NICE_CANDIDATE_TYPE_HOST
              (Some Loopback.sender) None None) /\
    nice_agent_get_remote_candidates 1 1 w' = Done ([] ++ [cand]) w'.
Proof.
  destruct (nice_agent_add_remote_candidate_listed (H := Loopback.env) 1 1
              NICE_CANDIDATE_TYPE_HOST (Some Loopback.sender) None None
              Loopback.one_stream 1%positive 1%positive
              {| comp_id := 1;
                 comp_state := NICE_COMPONENT_STATE_DISCONNECTED;
                 local_candidates := []; remote_candidates := [];
                 sockets := []; gsources := [];
                 selected_pair := {| pair_local := None;
                                     pair_remote := None |};
                 media_after_tick := FALSE |})
    as (w' & cand & Hrun & _ & Hcand & Hget & _).
  - vm_compute. reflexivity.
  - vm_compute. reflexivity.
  - reflexivity.
  - reflexivity.
  - right. eauto.
  - intros x. repeat split.
  - intros x. cbn. lia.
  - exists w', cand. split; [exact Hrun|]. split; [exact Hcand | exact Hget].
Defined.

Lemma nice_agent_add_remote_candidate_refused_witness :
  exists w' cand,
    nice_agent_add_remote_candidate (H := Offline.env) 1 1
      NICE_CANDIDATE_TYPE_HOST (Some Loopback.sender) None None
      Loopback.one_stream
    = Done false w' /\
    candidate_mem (st w') !! cand = None /\
    nice_agent_get_remote_candidates 1 1 w' = Done ([] ++ [cand]) w'.
Proof.
  destruct (nice_agent_add_remote_candidate_refused (H := Offline.env) 1 1
              NICE_CANDIDATE_TYPE_HOST (Some Loopback.sender) None None
              Loopback.one_stream 1%positive 1%positive
              {| comp_id := 1;
                 comp_state := NICE_COMPONENT_STATE_DISCONNECTED;
                 local_candidates := []; remote_candidates := [];
                 sockets := []; gsources := [];
                 selected_pair := {| pair_local := None;
                                     pair_remote := None |};
                 media_after_tick := FALSE |})
    as (w' & cand & Hrun & Hcand & Hget & _).
  - vm_compute. reflexivity.
  - vm_compute. reflexivity.
  - reflexivity.
  - reflexivity.
  - right. eauto.
  - intros x. repeat split.
  - intros x. cbn. lia.
  - exists w', cand. split; [exact Hrun|]. split; [exact Hcand | exact Hget].
Defined.

Section StateChange.
Context `{Collaborators}.

(** ** Component state changes *)

Lemma component_state_of_value state :
  0 <= state < NICE_COMPONENT_STATE_LAST ->
  component_state_value (component_state_of state) = state.
Proof.
  unfold NICE_COMPONENT_STATE_LAST. intros Hs.
  assert (Hcases : state = 0 \/ state = 1 \/ state = 2 \/ state = 3 \/
                   state = 4 \/ state = 5) by lia.
  destruct Hcases as [->|[->|[->|[->|[->| ->]]]]]; reflexivity.
Qed.

(** X11.  On a component that exists,
    [agent_signal_component_state_change] does nothing, and emits nothing,
    when the state is the one the component is in or is not below
    [NICE_COMPONENT_STATE_LAST]; otherwise it writes the state into the
    component, touching nothing else, and emits one
    component-state-changed signal with the new state, and a second call
    with the same state emits nothing more. *)
Theorem agent_signal_component_state_change_once sid cid state w sp cp c :
  agent_find_component sid cid w
  = Done (true, Assigned (Some sp), Assigned (Some cp)) w ->
  component_mem (st w) !! cp = Some c ->
  0 <= state ->
  (state = component_state_value (comp_state c) \/
   NICE_COMPONENT_STATE_LAST <= state ->
   agent_signal_component_state_change sid cid state w = Done None w) /\
  (state <> component_state_value (comp_state c) /\
   state < NICE_COMPONENT_STATE_LAST ->
   let w' :=
     {| st := set_component_mem
                (fun m => <[cp := with_comp_state (component_state_of state)
                                    c]> m) (st w);
        log := log w |} in
   component_state_value (component_state_of state) = state /\
   agent_signal_component_state_change sid cid state w
   = Done (Some (Signal_component_state_changed sid cid
                   (component_state_of state))) w' /\
   agent_signal_component_state_change sid cid state w' = Done None w').
Proof.
  intros Hfind Hc Hstate. split.
  - intros Hsame. unfold agent_signal_component_state_change.
    rewrite (bind_done _ _ _ _ _ Hfind). cbn [negb deref]. repeat step.
    destruct Hsame as [->|Hlast].
    + rewrite Z.eqb_refl. reflexivity.
    + destruct (state <? NICE_COMPONENT_STATE_LAST) eqn:E; [lia|].
      rewrite andb_false_r. reflexivity.
  - intros [Hne Hlast] w'.
    pose proof (component_state_of_value state ltac:(lia)) as Hvalue.
    split; [exact Hvalue|]. split.
    + unfold agent_signal_component_state_change.
      rewrite (bind_done _ _ _ _ _ Hfind). cbn [negb deref]. repeat step.
      destruct (component_state_value (comp_state c) =? state) eqn:E1;
        [lia|].
      destruct (state <? NICE_COMPONENT_STATE_LAST) eqn:E2; [|lia].
      cbn [negb andb]. repeat step. reflexivity.
    + assert (Hfind' : agent_find_component sid cid w'
                = Done (true, Assigned (Some sp), Assigned (Some cp)) w').
      { apply (agent_find_component_ids sid cid w w'); auto.
        intros q. cbn. destruct (decide (cp = q)) as [<-|Hq].
        - rewrite lookup_insert_eq, Hc. reflexivity.
        - rewrite lookup_insert_ne by exact Hq. reflexivity. }
      unfold agent_signal_component_state_change.
      rewrite (bind_done _ _ _ _ _ Hfind'). cbn [negb deref]. repeat step.
      cbn [comp_state with_comp_state]. rewrite Hvalue, Z.eqb_refl.
      reflexivity.
Qed.

End StateChange.

Lemma agent_signal_component_state_change_once_witness :
  agent_signal_component_state_change 1 1 0 Loopback.one_stream
  = Done None Loopback.one_stream /\
  agent_signal_component_state_change 1 1 6 Loopback.one_stream
  = Done None Loopback.one_stream /\
  exists w',
    agent_signal_component_state_change 1 1 4 Loopback.one_stream
    = Done (Some (Signal_component_state_changed 1 1
                    NICE_COMPONENT_STATE_READY)) w' /\
    agent_signal_component_state_change 1 1 4 w' = Done None w'.
Proof.
  pose (c := {| comp_id := 1;
                comp_state := NICE_COMPONENT_STATE_DISCONNECTED;
                local_candidates := []; remote_candidates := [];
                sockets := []; gsources := [];
                selected_pair := {| pair_local := None;
                                    pair_remote := None |};
                media_after_tick := FALSE |}).
  assert (Hfind : agent_find_component 1 1 Loopback.one_stream
            = Done (true, Assigned (Some 1%positive),
                    Assigned (Some 1%positive)) Loopback.one_stream)
    by (vm_compute; reflexivity).
  assert (Hc : component_mem (st Loopback.one_stream) !! 1%positive = Some c)
    by (vm_compute; reflexivity).
  split; [|split].
  - apply (proj1 (agent_signal_component_state_change_once 1 1 0
                    Loopback.one_stream 1%positive 1%positive c Hfind Hc
                    ltac:(lia))).
    left. reflexivity.
  - apply (proj1 (agent_signal_component_state_change_once 1 1 6
                    Loopback.one_stream 1%positive 1%positive c Hfind Hc
                    ltac:(lia))).
    right. unfold NICE_COMPONENT_STATE_LAST. lia.
  - destruct (proj2 (agent_signal_component_state_change_once 1 1 4
                       Loopback.one_stream 1%positive 1%positive c Hfind Hc
                       ltac:(lia)))
      as (_ & Hrun & Hagain).
    + split; [discriminate | reflexivity].
    + eexists. split; [exact Hrun | exact Hagain].
Defined.

Section MainContext.
Context `{Collaborators}.

(** ** Attaching to the main context *)

Lemma only_sources_differ_refl x : only_sources_differ x x.
Proof. repeat split. Qed.

Lemma only_sources_differ_trans x1 x2 x3 :
  only_sources_differ x1 x2 -> only_sources_differ x2 x3 ->
  only_sources_differ x1 x3.
Proof.
  intros (A1 & A2 & A3 & A4) (B1 & B2 & B3 & B4).
  repeat (split; [congruence|]). intros q. rewrite B4. apply A4.
Qed.

Lemma only_sources_differ_alive x x' c :
  only_sources_differ x x' ->
  is_Some (component_mem x !! c) -> is_Some (component_mem x' !! c).
Proof.
  intros (_ & _ & _ & Hs) [k Hk]. specialize (Hs c). rewrite Hk in Hs.
  destruct (component_mem x' !! c); [eauto | discriminate].
Qed.

Lemma component_sockets_same x x' cs :
  only_sources_differ x x' ->
  component_sockets (component_mem x') cs
  = component_sockets (component_mem x) cs.
Proof.
  intros (_ & _ & _ & Hs). induction cs as [|c cs IH]; [reflexivity|].
  unfold component_sockets in *. cbn [flat_map]. rewrite IH. f_equal.
  specialize (Hs c).
  destruct (component_mem x' !! c), (component_mem x !! c);
    cbn in *; congruence.
Qed.

Lemma streams_sockets_same x x' l :
  only_sources_differ x x' -> streams_sockets x' l = streams_sockets x l.
Proof.
  intros Hx. pose proof Hx as (_ & Hs & _).
  induction l as [|sp l IH]; [reflexivity|].
  unfold streams_sockets in *. cbn [flat_map]. rewrite IH, Hs. f_equal.
  destruct (stream_mem x !! sp); [|reflexivity]. cbn.
  apply component_sockets_same. exact Hx.
Qed.

Lemma attach_sockets_attached c j w :
  alloc_plan (st w) = [] ->
  is_Some (component_mem (st w) !! c) ->
  exists w',
    attach_sockets c j w = Done true w' /\
    log w' = log w ++ map (fun s => Source_attach (watch s)) j /\
    only_sources_differ (st w) (st w').
Proof.
  revert w. induction j as [|sock next IH]; intros w Hplan [k Hc];
    cbn [attach_sockets].
  - exists w. split; [reflexivity|]. rewrite app_nil_r.
    split; [reflexivity | apply only_sources_differ_refl].
  - repeat step.
    match goal with |- context [attach_sockets c next ?w1] =>
      destruct (IH w1) as (w' & Hrun & Hlog & Hdiff) end.
    + exact Hplan.
    + state_simpl. rewrite lookup_insert_eq. eauto.
    + exists w'. split; [exact Hrun|]. split.
      * rewrite Hlog. cbn [log map]. rewrite <- app_assoc. reflexivity.
      * eapply only_sources_differ_trans; [|exact Hdiff].
        repeat (split; [reflexivity|]). intros q. state_simpl.
        destruct (decide (c = q)) as [<-|Hq].
        -- rewrite lookup_insert_eq, Hc. reflexivity.
        -- rewrite lookup_insert_ne by exact Hq. reflexivity.
Qed.

Lemma attach_components_attached i w :
  alloc_plan (st w) = [] ->
  Forall (fun c => is_Some (component_mem (st w) !! c)) i ->
  exists w',
    attach_components i w = Done true w' /\
    log w' = log w ++ map (fun s => Source_attach (watch s))
                        (component_sockets (component_mem (st w)) i) /\
    only_sources_differ (st w) (st w').
Proof.
  revert w. induction i as [|c next IH]; intros w Hplan Hall;
    cbn [attach_components].
  - exists w. split; [reflexivity|]. cbn. rewrite app_nil_r.
    split; [reflexivity | apply only_sources_differ_refl].
  - inversion Hall as [|? ? [k Hc] Hnext]; subst. step.
    destruct (attach_sockets_attached c (sockets k) w Hplan)
      as (w1 & Hrun & Hlog & Hdiff); [eauto|].
    rewrite (bind_done _ _ _ _ _ Hrun).
    destruct (IH w1) as (w' & Hrun' & Hlog' & Hdiff').
    + destruct Hdiff as (_ & _ & Hp & _). rewrite Hp. exact Hplan.
    + eapply Forall_impl; [exact Hnext|]. cbn. intros q.
      apply only_sources_differ_alive. exact Hdiff.
    + exists w'. split; [exact Hrun'|]. split.
      * rewrite Hlog', Hlog, (component_sockets_same _ _ _ Hdiff).
        unfold component_sockets. cbn [flat_map]. rewrite Hc. cbn.
        rewrite map_app, <- app_assoc. reflexivity.
      * eapply only_sources_differ_trans; eauto.
Qed.

Lemma alive_same x x' l :
  only_sources_differ x x' -> alive x l -> alive x' l.
Proof.
  intros Hx Hl. pose proof Hx as (_ & Hs & _). unfold alive in *.
  eapply Forall_impl; [exact Hl|]. cbn. intros sp (s & Hsp & Hcs). exists s.
  split; [rewrite Hs; exact Hsp|].
  eapply Forall_impl; [exact Hcs|]. cbn. intros q.
  apply only_sources_differ_alive. exact Hx.
Qed.

Lemma attach_streams_attached l w :
  alloc_plan (st w) = [] ->
  alive (st w) l ->
  exists w',
    attach_streams l w = Done true w' /\
    log w' = log w ++ map (fun s => Source_attach (watch s))
                        (streams_sockets (st w) l) /\
    only_sources_differ (st w) (st w').
Proof.
  revert w. induction l as [|sp l IH]; intros w Hplan Hall;
    cbn [attach_streams].
  - exists w. split; [reflexivity|]. cbn. rewrite app_nil_r.
    split; [reflexivity | apply only_sources_differ_refl].
  - inversion Hall as [|? ? (s & Hsp & Hcs) Hnext]; subst.
    unfold priv_attach_new_stream. repeat step.
    destruct (attach_components_attached (components s) w Hplan Hcs)
      as (w1 & Hrun & Hlog & Hdiff).
    assoc. rewrite (bind_done _ _ _ _ _ Hrun).
    destruct (IH w1) as (w' & Hrun' & Hlog' & Hdiff').
    + destruct Hdiff as (_ & _ & Hp & _). rewrite Hp. exact Hplan.
    + eapply alive_same; [exact Hdiff | exact Hnext].
    + exists w'. split; [exact Hrun'|]. split.
      * rewrite Hlog', Hlog, (streams_sockets_same _ _ _ Hdiff).
        unfold streams_sockets. cbn [flat_map]. rewrite Hsp. cbn.
        rewrite map_app, <- app_assoc. reflexivity.
      * eapply only_sources_differ_trans; eauto.
Qed.

(** X12.  On an agent that has no main context yet, with its streams and
    their components alive and no allocation failing,
    [nice_agent_main_context_attach] returns TRUE: one source is attached
    for every socket of every component of every stream, in the order of
    the lists; the context, the callback and its data are stored and
    [main_context_set] is set; streams and sockets are as before.  From
    then on the function returns FALSE without doing anything. *)
Theorem nice_agent_main_context_attach_once ctx func data r w :
  main_context_set (agent (st w)) = false ->
  alloc_plan (st w) = [] ->
  streams_alive (st w) ->
  let r' := {| socket_factory := socket_factory r;
               turn_server_ip := turn_server_ip r;
               main_context := ctx; read_func := func;
               read_func_data := data |} in
  exists w',
    nice_agent_main_context_attach ctx func data r w = Done (true, r') w' /\
    main_context_set (agent (st w')) = true /\
    new_events w w'
    = map (fun s => Source_attach (watch s)) (agent_sockets (st w)) /\
    streams (agent (st w')) = streams (agent (st w)) /\
    stream_mem (st w') = stream_mem (st w) /\
    agent_sockets (st w') = agent_sockets (st w) /\
    forall ctx' func' data',
      nice_agent_main_context_attach ctx' func' data' r' w'
      = Done (false, r') w'.
Proof.
  intros Hset Hplan Halive r'.
  destruct (attach_streams_attached (streams (agent (st w))) w Hplan Halive)
    as (w1 & Hrun & Hlog & Hdiff).
  pose proof Hdiff as (Hagent & Hmem & _ & _).
  eexists. split; [|split; [|split; [|split; [|split; [|split]]]]].
  - unfold nice_agent_main_context_attach. step. rewrite Hset.
    rewrite (bind_done _ _ _ _ _ Hrun). repeat step. reflexivity.
  - reflexivity.
  - apply new_events_app. cbn [log]. exact Hlog.
  - cbn. rewrite Hagent. reflexivity.
  - cbn. exact Hmem.
  - unfold agent_sockets. cbn [st agent set_agent with_main_context_set
                                streams].
    rewrite Hagent.
    change (streams_sockets (st w1) (streams (agent (st w)))
            = streams_sockets (st w) (streams (agent (st w)))).
    apply streams_sockets_same. exact Hdiff.
  - intros ctx' func' data'. unfold nice_agent_main_context_attach. step.
    reflexivity.
Qed.

End MainContext.

Lemma loopback_one_stream_alive : streams_alive (st Loopback.one_stream).
Proof.
  unfold streams_alive, alive.
  replace (streams (agent (st Loopback.one_stream))) with [1%positive]
    by (vm_compute; reflexivity).
  constructor; [|constructor].
  exists (Loopback.stream_at Loopback.one_stream 1%positive).
  split; [vm_compute; reflexivity|].
  replace (components (Loopback.stream_at Loopback.one_stream 1%positive))
    with [1%positive] by (vm_compute; reflexivity).
  constructor; [|constructor]. vm_compute. eauto.
Qed.

Lemma nice_agent_main_context_attach_once_witness :
  exists w',
    nice_agent_main_context_attach (Some 1%positive) (Some 2%positive) None
      {| socket_factory := None; turn_server_ip := None;
         main_context := None; read_func := None; read_func_data := None |}
      Loopback.one_stream
    = Done (true,
            {| socket_factory := None; turn_server_ip := None;
               main_context := Some 1%positive;
               read_func := Some 2%positive; read_func_data := None |}) w' /\
    main_context_set (agent (st w')) = true.
Proof.
  destruct (nice_agent_main_context_attach_once (Some 1%positive)
              (Some 2%positive) None
              {| socket_factory := None; turn_server_ip := None;
                 main_context := None; read_func := None;
                 read_func_data := None |} Loopback.one_stream)
    as (w' & Hrun & Hset & _).
  - vm_compute. reflexivity.
  - vm_compute. reflexivity.
  - exact loopback_one_stream_alive.
  - exists w'. split; [exact Hrun | exact Hset].
Defined.

Section AddRemove.
Context `{Collaborators}.
Context {cooperative : Cooperative}.
Hypothesis succeed : host_candidates_succeed.

(** ** Adding a stream and removing it again *)

Lemma g_slist_remove_last l (sp : addr) :
  sp ∉ l -> g_slist_remove (l ++ [sp]) sp = l.
Proof.
  induction l as [|q l IH]; intros Hsp; cbn.
  - rewrite decide_True by reflexivity. reflexivity.
  - apply not_elem_of_cons in Hsp as [Hne Hsp].
    rewrite decide_False by congruence. rewrite IH by exact Hsp.
    reflexivity.
Qed.

Lemma agent_find_stream_from_last l sp s id w :
  Forall (fun q => exists t, stream_mem (st w) !! q = Some t /\
                             stream_id t <> id) l ->
  stream_mem (st w) !! sp = Some s -> stream_id s = id ->
  agent_find_stream_from (l ++ [sp]) id w = Done (Some sp) w.
Proof.
  intros Hl Hs Hid. induction Hl as [|q l (t & Hq & Hne) _ IH];
    cbn [app agent_find_stream_from]; step.
  - rewrite Hid, Z.eqb_refl. reflexivity.
  - destruct (stream_id t =? id) eqn:E; [lia | exact IH].
Qed.

(** X13.  With nothing failing, on an agent whose streams are alive and
    none of which has the agent's next id, [nice_agent_add_stream] followed
    by [nice_agent_remove_stream] of the id it returned gives back the list
    of streams and the streams of before; the stream added is gone, and
    its id stays used: the stream id counter has moved on by one. *)
Theorem nice_agent_add_remove_stream n w :
  alloc_plan (st w) = [] ->
  local_addresses (agent (st w)) <> [] ->
  discovery_consistent (st w) ->
  Forall (fun q => exists t, stream_mem (st w) !! q = Some t /\
                             stream_id t <> next_stream_id (agent (st w)))
    (streams (agent (st w))) ->
  leaves_streams (conn_check_prune_stream (next_stream_id (agent (st w)))) ->
  leaves_streams (discovery_prune_stream (next_stream_id (agent (st w)))) ->
  exists w1 w2 sp,
    nice_agent_add_stream n w = Done (next_stream_id (agent (st w))) w1 /\
    nice_agent_remove_stream (next_stream_id (agent (st w))) w1
    = Done tt w2 /\
    streams (agent (st w1)) = streams (agent (st w)) ++ [sp] /\
    streams (agent (st w2)) = streams (agent (st w)) /\
    stream_mem (st w2) !! sp = None /\
    (forall q, q <> sp ->
       stream_mem (st w2) !! q = stream_mem (st w) !! q) /\
    next_stream_id (agent (st w2))
    = to_guint (next_stream_id (agent (st w)) + 1).
Proof.
  intros Hplan Hla Hd Hold Hcc Hdp.
  set (id := next_stream_id (agent (st w))) in *.
  destruct (nice_agent_add_stream_done succeed n w Hplan Hla Hd)
    as (w1 & Hadd & _ & _ & _ & Hnext1 & sp & cs & Hstreams1 & Hsp & Hcs).
  fold id in Hadd.
  destruct (nice_agent_add_stream_inv n w id w1 Hadd)
    as [[_ Hsame]|(sp' & cs' & x1 & s' & Hfresh & _ & Hagent & Hmem & Hstays
                   & _)].
  { exfalso. rewrite Hsame in Hstreams1. apply (f_equal length) in Hstreams1.
    rewrite length_app in Hstreams1. cbn in Hstreams1. lia. }
  destruct Hstays as (Hstreams & _ & _ & _ & Hstreams_mem).
  assert (sp' = sp) as ->.
  { rewrite Hstreams, Hagent in Hstreams1. cbn in Hstreams1.
    apply app_inj_tail in Hstreams1 as [_ E]. exact E. }
  assert (Hmem1 : forall q, q <> sp ->
            stream_mem (st w1) !! q = stream_mem (st w) !! q).
  { intros q Hq. destruct (Hstreams_mem q) as [E|[E _]]; [|contradiction].
    rewrite E, Hmem. apply lookup_insert_ne. congruence. }
  assert (Hnotin : sp ∉ streams (agent (st w))).
  { intros Hin. rewrite Forall_forall in Hold.
    destruct (Hold sp Hin) as (t & Ht & _). congruence. }
  assert (Hfind : agent_find_stream id w1 = Done (Some sp) w1).
  { unfold agent_find_stream. step. rewrite Hstreams1.
    eapply agent_find_stream_from_last; [|exact Hsp | reflexivity].
    rewrite Forall_forall in Hold. apply Forall_forall. intros q Hq.
    destruct (Hold q Hq) as (t & Ht & Hne). exists t.
    split; [|exact Hne]. rewrite Hmem1; [exact Ht|]. intros ->. auto. }
  pose proof (nice_agent_remove_stream_found id w1 sp _ Hfind Hsp Hcs Hcc Hdp)
    as Hremove.
  cbv zeta in Hremove. rewrite Hstreams1 in Hremove.
  rewrite (g_slist_remove_last _ _ Hnotin) in Hremove.
  destruct (Hcc (st w1)) as (_ & _ & Hcc3 & _).
  destruct (Hdp (conn_check_prune_stream id (st w1)).2) as (_ & _ & Hdp3 & _).
  destruct (conn_check_prune_settled id (st w1)) as (Hn1 & _).
  destruct (discovery_prune_settled id (conn_check_prune_stream id (st w1)).2)
    as (Hn2 & _).
  assert (Hpruned_mem : stream_mem (pruned id (st w1)) = stream_mem (st w1))
    by (unfold pruned; congruence).
  assert (Hpruned_next : next_stream_id (agent (pruned id (st w1)))
                         = next_stream_id (agent (st w1)))
    by (unfold pruned; congruence).
  eexists w1, _, sp. split; [exact Hadd|]. split; [exact Hremove|].
  split; [exact Hstreams1|].
  destruct (streams (agent (st w))) as [|q0 rest];
    [destruct (keepalive_timer_id (agent (st w1)) =? 0)|];
    (split; [reflexivity|];
     split; [cbn; rewrite Hpruned_mem; apply lookup_delete_eq|];
     split; [intros q Hq; cbn; rewrite lookup_delete_ne by congruence;
             rewrite Hpruned_mem; apply Hmem1; exact Hq|];
     cbn; rewrite Hpruned_next; exact Hnext1).
Qed.

End AddRemove.

Lemma nice_agent_add_remove_stream_witness :
  exists w1 w2 sp,
    nice_agent_add_stream (H := Loopback.env) 1 Loopback.one_stream
    = Done 2 w1 /\
    nice_agent_remove_stream (H := Loopback.env) 2 w1 = Done tt w2 /\
    streams (agent (st w2)) = [1%positive] /\
    stream_mem (st w2) !! sp = None /\
    next_stream_id (agent (st w2)) = 3.
Proof.
  destruct (nice_agent_add_remove_stream (H := Loopback.env)
              (cooperative := loopback_cooperative)
              loopback_host_candidates_succeed 1 Loopback.one_stream)
    as (w1 & w2 & sp & Hadd & Hremove & _ & Hstreams & Hgone & _ & Hnext).
  - vm_compute. reflexivity.
  - vm_compute. discriminate.
  - left. vm_compute. reflexivity.
  - replace (streams (agent (st Loopback.one_stream))) with [1%positive]
      by (vm_compute; reflexivity).
    constructor; [|constructor].
    exists (Loopback.stream_at Loopback.one_stream 1%positive).
    split; [vm_compute; reflexivity | vm_compute; discriminate].
  - intros x. repeat split.
  - intros x. repeat split.
  - replace (next_stream_id (agent (st Loopback.one_stream))) with 2
      in Hadd, Hremove, Hnext by (vm_compute; reflexivity).
    replace (streams (agent (st Loopback.one_stream))) with [1%positive]
      in Hstreams by (vm_compute; reflexivity).
    exists w1, w2, sp. auto.
Defined.

Section RemoteCandidates2.
Context `{Collaborators}.

(** ** Setting the remote candidates of a component *)

(** The run of [priv_add_remote_candidate] on a component that exists, with
    the two allocations granted, up to the answer of the connectivity
    checks. *)
Lemma priv_add_remote_candidate_run sid cid type address related transport
    priority username password foundation w sp cp c :
  agent_find_component sid cid w
  = Done (true, Assigned (Some sp), Assigned (Some cp)) w ->
  component_mem (st w) !! cp = Some c ->
  hd true (alloc_plan (st w)) = true ->
  hd true (tail (alloc_plan (st w))) = true ->
  NDEBUG = true \/ is_Some address ->
  let cand := fresh (dom (candidate_mem (st w))) in
  let x1 :=
    set_candidate_mem
      (fun m => <[cand := remote_candidate_of sid cid type address related
                            transport priority username password
                            foundation]> m)
      (set_component_mem
         (fun m => <[cp := with_remote_candidates
                             (remote_candidates c ++ [cand]) c]> m)
         (set_alloc_plan (tail (tail (alloc_plan (st w)))) (st w))) in
  let answer := conn_check_add_for_candidate sid cp cand x1 in
  let called := log w ++ [Call_conn_check_add_for_candidate sid cp cand] in
  priv_add_remote_candidate sid cid type address related transport priority
    username password foundation w
  = if answer.1 <? 0 then
      Done false
        {| st := set_candidate_mem (fun m => delete cand m) answer.2;
           log := called ++ [Call_nice_candidate_free cand] |}
    else Done true {| st := answer.2; log := called |}.
Proof.
  intros Hfind Hc Hb1 Hb2 Haddr cand x1 answer called.
  unfold priv_add_remote_candidate.
  rewrite (bind_done _ _ _ _ _ Hfind). cbn [negb].
  unfold nice_candidate_new. step_with allocate_any. rewrite Hb1.
  repeat step. step_with @g_slist_append_any. rewrite Hb2.
  repeat step.
  assert (Hdebug :
    forall w0, (if NDEBUG then ret tt
                else match address with
                     | Some _ => ret tt
                     | None => crash NullDereference
                     end) w0 = Done tt w0).
  { intros w0. destruct Haddr as [->|[a ->]]; [reflexivity|].
    destruct NDEBUG; reflexivity. }
  assoc. rewrite (bind_done _ _ _ _ _ (Hdebug _)). clear Hdebug.
  repeat step.
  match goal with
  | |- context [conn_check_add_for_candidate sid cp _ ?x] =>
      assert (Hx : x = x1)
        by (unfold x1, cand, remote_candidate_of, set_candidate_mem,
              set_component_mem, set_alloc_plan; state_simpl; cbn;
            rewrite insert_insert_eq; destruct foundation; reflexivity);
      rewrite Hx; clear Hx
  end.
  fold cand. fold answer. destruct (answer.1 <? 0).
  - unfold nice_candidate_free. repeat step. unfold called.
    rewrite <- app_assoc. reflexivity.
  - reflexivity.
Qed.

Lemma add_remote_desc_taken sid cid d w sp cp c :
  agent_find_component sid cid w
  = Done (true, Assigned (Some sp), Assigned (Some cp)) w ->
  component_mem (st w) !! cp = Some c ->
  alloc_plan (st w) = [] ->
  NDEBUG = true \/ is_Some (desc_addr d) ->
  takes_candidates sid cp ->
  let cand := fresh (dom (candidate_mem (st w))) in
  exists w1,
    add_remote_desc sid cid d w = Done true w1 /\
    component_mem (st w1)
    = <[cp := with_remote_candidates (remote_candidates c ++ [cand]) c]>
        (component_mem (st w)) /\
    candidate_mem (st w1)
    = <[cand := described_candidate sid cid d]> (candidate_mem (st w)) /\
    alloc_plan (st w1) = [] /\
    streams (agent (st w1)) = streams (agent (st w)) /\
    stream_mem (st w1) = stream_mem (st w).
Proof.
  intros Hfind Hc Hplan Haddr Htakes cand.
  pose proof (priv_add_remote_candidate_run sid cid (desc_type d)
                (desc_addr d) (desc_related_addr d) (desc_transport d)
                (desc_priority d) None None (desc_foundation d) w sp cp c
                Hfind Hc) as Hrun.
  rewrite Hplan in Hrun. specialize (Hrun eq_refl eq_refl Haddr).
  cbv zeta in Hrun. fold cand in Hrun.
  match type of Hrun with
  | context [conn_check_add_for_candidate sid cp cand ?x1] =>
      destruct (Htakes cand) as (Hleaves & Hans);
      destruct (Hleaves x1) as (Hl & Hs & Hm & Hk);
      destruct (Hans x1) as (Hpos & Hp)
  end.
  destruct (_ <? 0) eqn:E in Hrun; [lia|].
  eexists. split; [exact Hrun|]. cbn [st].
  rewrite Hm, Hk, Hp, Hl, Hs. repeat split.
Qed.

Lemma find_after_component_update sid cid w w' sp cp c c' :
  agent_find_component sid cid w
  = Done (true, Assigned (Some sp), Assigned (Some cp)) w ->
  component_mem (st w) !! cp = Some c ->
  streams (agent (st w')) = streams (agent (st w)) ->
  stream_mem (st w') = stream_mem (st w) ->
  component_mem (st w') = <[cp := c']> (component_mem (st w)) ->
  comp_id c' = comp_id c ->
  agent_find_component sid cid w'
  = Done (true, Assigned (Some sp), Assigned (Some cp)) w'.
Proof.
  intros Hfind Hc Hl Hs Hm Hid.
  apply (agent_find_component_ids sid cid w w'); auto.
  intros q. rewrite Hm. destruct (decide (cp = q)) as [<-|Hne].
  - rewrite lookup_insert_eq, Hc. cbn. congruence.
  - rewrite lookup_insert_ne by exact Hne. reflexivity.
Qed.

Lemma all_added_taken sid cid sp cp ds :
  takes_candidates sid cp ->
  NDEBUG = true \/ Forall (fun d => is_Some (desc_addr d)) ds ->
  forall w c,
    agent_find_component sid cid w
    = Done (true, Assigned (Some sp), Assigned (Some cp)) w ->
    component_mem (st w) !! cp = Some c ->
    alloc_plan (st w) = [] ->
    exists w' new,
      all_added sid cid ds w w' /\
      agent_find_component sid cid w'
      = Done (true, Assigned (Some sp), Assigned (Some cp)) w' /\
      component_mem (st w') !! cp
      = Some (with_remote_candidates (remote_candidates c ++ new) c) /\
      Forall2 (fun cand d => candidate_mem (st w') !! cand
                             = Some (described_candidate sid cid d)) new ds /\
      (forall k v, candidate_mem (st w) !! k = Some v ->
                   candidate_mem (st w') !! k = Some v).
Proof.
  intros Htakes. induction ds as [|d ds IH]; intros Haddr w c Hfind Hc Hplan.
  - exists w, []. split; [constructor|]. split; [exact Hfind|].
    split; [rewrite app_nil_r; destruct c; exact Hc|].
    split; [constructor | auto].
  - assert (Hd : NDEBUG = true \/ is_Some (desc_addr d)).
    { destruct Haddr as [?|Hall]; [left; assumption|]. right.
      inversion Hall; assumption. }
    assert (Hds : NDEBUG = true \/ Forall (fun d => is_Some (desc_addr d)) ds).
    { destruct Haddr as [?|Hall]; [left; assumption|]. right.
      inversion Hall; assumption. }
    destruct (add_remote_desc_taken sid cid d w sp cp c Hfind Hc Hplan Hd
                Htakes) as (w1 & Hadd & Hm & Hk & Hplan1 & Hl & Hs).
    set (cand := fresh (dom (candidate_mem (st w)))) in *.
    set (c1 := with_remote_candidates (remote_candidates c ++ [cand]) c) in *.
    assert (Hfind1 : agent_find_component sid cid w1
              = Done (true, Assigned (Some sp), Assigned (Some cp)) w1)
      by (eapply find_after_component_update; eauto).
    assert (Hc1 : component_mem (st w1) !! cp = Some c1)
      by (rewrite Hm; apply lookup_insert_eq).
    destruct (IH Hds w1 c1 Hfind1 Hc1 Hplan1)
      as (w' & new & Hall & Hfind' & Hc' & Hnew & Hkeep).
    exists w', (cand :: new). split; [econstructor; eauto|].
    split; [exact Hfind'|]. split.
    + rewrite Hc'. unfold c1. cbn [remote_candidates with_remote_candidates].
      rewrite <- app_assoc. reflexivity.
    + split.
      * constructor; [|exact Hnew]. apply Hkeep. rewrite Hk.
        apply lookup_insert_eq.
      * intros k v Hkv. apply Hkeep. rewrite Hk.
        rewrite lookup_insert_ne; [exact Hkv|]. intros <-.
        pose proof (is_fresh (dom (candidate_mem (st w)))) as Hfresh.
        apply not_elem_of_dom in Hfresh. fold cand in Hfresh. congruence.
Qed.

(** X14.  On a component that exists, with no allocation failing and the
    connectivity checks taking every candidate,
    [nice_agent_set_remote_candidates] returns the number of descriptors
    and appends one candidate for each, in the order of the list, to the
    remote candidates the component has: the candidates that were there
    stay, nothing is replaced.  A candidate has the type, addresses,
    transport, priority and foundation of its descriptor and the component
    id of the call; the component id in the descriptor is not looked at. *)
Theorem nice_agent_set_remote_candidates_appends sid cid ds w sp cp c :
  agent_find_component sid cid w
  = Done (true, Assigned (Some sp), Assigned (Some cp)) w ->
  component_mem (st w) !! cp = Some c ->
  alloc_plan (st w) = [] ->
  NDEBUG = true \/ Forall (fun d => is_Some (desc_addr d)) ds ->
  takes_candidates sid cp ->
  leaves_candidates conn_check_schedule_next ->
  Z.of_nat (length ds) <= G_MAXINT ->
  exists w' new,
    nice_agent_set_remote_candidates sid cid ds w
    = Done (Z.of_nat (length ds)) w' /\
    nice_agent_get_remote_candidates sid cid w'
    = Done (remote_candidates c ++ new) w' /\
    Forall2 (fun cand d => candidate_mem (st w') !! cand
                           = Some (described_candidate sid cid d)) new ds.
Proof.
  intros Hfind Hc Hplan Haddr Htakes Hsched Hfit.
  destruct (all_added_taken sid cid sp cp ds Htakes Haddr w c Hfind Hc Hplan)
    as (w1 & new & Hall & Hfind1 & Hc1 & Hnew & _).
  assert (Hget : forall w',
            streams (agent (st w')) = streams (agent (st w1)) ->
            stream_mem (st w') = stream_mem (st w1) ->
            component_mem (st w') = component_mem (st w1) ->
            nice_agent_get_remote_candidates sid cid w'
            = Done (remote_candidates c ++ new) w').
  { intros w' Hl Hs Hm.
    assert (Hfind' : agent_find_component sid cid w'
              = Done (true, Assigned (Some sp), Assigned (Some cp)) w').
    { apply (agent_find_component_ids sid cid w1 w'); auto.
      intros q. rewrite Hm. reflexivity. }
    unfold nice_agent_get_remote_candidates.
    rewrite (bind_done _ _ _ _ _ Hfind'). cbn [negb deref]. step.
    step_by ltac:(apply run_load_component; rewrite Hm; exact Hc1).
    reflexivity. }
  assert (Hrun : set_remote_candidates_from sid cid ds 0 w
                 = Done (Z.of_nat (length ds)) w1).
  { rewrite <- (app_nil_r ds) at 1.
    rewrite (set_remote_candidates_from_all_added _ _ _ _ _ Hall) by lia.
    reflexivity. }
  unfold nice_agent_set_remote_candidates.
  rewrite (bind_done _ _ _ _ _ Hrun).
  destruct (0 <? Z.of_nat (length ds)).
  - step. destruct (Hsched (st w1)) as (Hl & Hs & Hm & Hk).
    eexists _, new. split; [reflexivity|]. split.
    + apply Hget; assumption.
    + cbn [st]. rewrite Hk. exact Hnew.
  - exists w1, new. split; [reflexivity|]. split; [|exact Hnew].
    apply Hget; reflexivity.
Qed.

End RemoteCandidates2.


Lemma nice_agent_set_remote_candidates_appends_witness :
  exists w' new,
    nice_agent_set_remote_candidates (H := Loopback.env) 1 1
      [Loopback.remote_desc; Loopback.remote_desc] Loopback.paired
    = Done 2 w' /\
    nice_agent_get_remote_candidates 1 1 w'
    = Done ([2%positive] ++ new) w' /\
    length new = 2%nat.
Proof.
  destruct (nice_agent_set_remote_candidates_appends (H := Loopback.env) 1 1
              [Loopback.remote_desc; Loopback.remote_desc] Loopback.paired
              1%positive 1%positive Loopback.paired_component)
    as (w' & new & Hrun & Hget & Hnew).
  - vm_compute. reflexivity.
  - vm_compute. reflexivity.
  - vm_compute. reflexivity.
  - right. repeat constructor; cbn; eauto.
  - intros cand. split; [intros x; repeat split|].
    intros x. split; [cbn; lia | reflexivity].
  - intros x. repeat split.
  - cbn. unfold G_MAXINT. lia.
  - exists w', new. split; [exact Hrun|]. split; [exact Hget|].
    apply Forall2_length in Hnew. exact Hnew.
Defined.

Section GatheringRequests.
Context `{Collaborators}.
Context {cooperative : Cooperative}.
Hypothesis succeed : host_candidates_succeed.

(** ** The requests for host candidates *)

Lemma add_stream_components_requests sp s count n0 address w :
  ready sp s (st w) ->
  exists w',
    add_stream_components count n0 sp address w = Done tt w' /\
    fenced (st w) (st w') /\
    log w' = log w ++
      map (fun k => Call_discovery_add_local_host_candidate (stream_id s)
                      (n0 + Z.of_nat k + 1) address)
        (seq 0 count).
Proof.
  revert n0 w. induction count as [|count IH]; intros n0 w Hready;
    cbn [add_stream_components].
  - exists w. split; [reflexivity|]. split; [apply fenced_refl|].
    cbn. rewrite app_nil_r. reflexivity.
  - pose proof Hready as (Hplan & Hs & Hcs & Hd).
    repeat step.
    pose proof (host_candidate_fenced (stream_id s) (n0 + 1) address (st w))
      as Hf.
    pose proof (host_candidate_valid (stream_id s) (n0 + 1) address (st w))
      as Hv.
    pose proof (succeed (stream_id s) (n0 + 1) address (st w)) as Hsome.
    destruct (discovery_add_local_host_candidate (stream_id s) (n0 + 1)
                address (st w)) as [[hc|] x']; [|contradiction].
    cbn [fst snd] in *. clear Hsome.
    destruct (Hv hc eq_refl) as (c & sock & Hc & Hsock).
    pose proof (ready_fenced sp s _ _ Hf Hready) as Hready'.
    step.
    assert (Hlog : forall l : list event,
              (l ++ [Call_discovery_add_local_host_candidate (stream_id s)
                       (n0 + 1) address]) ++
              map (fun k => Call_discovery_add_local_host_candidate
                              (stream_id s) (n0 + 1 + Z.of_nat k + 1) address)
                (seq 0 count)
              = l ++
                map (fun k => Call_discovery_add_local_host_candidate
                                (stream_id s) (n0 + Z.of_nat k + 1) address)
                  (seq 0 (S count))).
    { intros l. rewrite <- app_assoc. f_equal. cbn [seq map app].
      rewrite Z.add_0_r. f_equal. rewrite <- seq_shift, map_map.
      apply map_ext. intros k. f_equal. lia. }
    assert (Hgo : forall w1, st w1 = x' ->
              log w1 = log w ++ [Call_discovery_add_local_host_candidate
                                   (stream_id s) (n0 + 1) address] ->
              exists w',
                add_stream_components count (n0 + 1) sp address w1
                = Done tt w' /\
                fenced (st w) (st w') /\
                log w' = log w ++
                  map (fun k => Call_discovery_add_local_host_candidate
                                  (stream_id s) (n0 + Z.of_nat k + 1) address)
                    (seq 0 (S count))).
    { intros w1 E Elog. destruct (IH (n0 + 1) w1) as (w' & Hrun & Hf' & Hl');
        [rewrite E; exact Hready'|].
      exists w'. split; [exact Hrun|]. split.
      - eapply fenced_trans; [exact Hf|]. rewrite <- E. exact Hf'.
      - rewrite Hl', Elog. apply Hlog. }
    destruct (full_mode (agent x')); [|apply Hgo; reflexivity].
    destruct (stun_server_ip (agent x')) as [ip|]; [|apply Hgo; reflexivity].
    destruct Hready' as (Hplan' & Hs' & Hcs' & Hd').
    match goal with
    | |- context [bind (priv_add_srv_rfx_candidate_discovery hc ip ?port sp
                          ?cid address) _ ?w1] =>
        destruct (find_component_by_id_from_done (components s) cid w1 Hcs')
          as (comp & Hfind);
        destruct (priv_add_srv_rfx_candidate_discovery_appends_twice
                    hc ip port sp cid address w1 c sock comp Hplan' Hc Hsock)
          as (w2 & Hrun & _ & _ & _ & Hlog2 & Hf2);
          [unfold stream_find_component_by_id; step; exact Hfind|]
    end.
    rewrite (bind_done _ _ _ _ _ Hrun).
    destruct (IH (n0 + 1) w2) as (w' & Hrun' & Hf' & Hl').
    { eapply ready_fenced; [exact Hf2|]. repeat split; assumption. }
    exists w'. split; [exact Hrun'|]. split.
    + eapply fenced_trans; [exact Hf|].
      eapply fenced_trans; [exact Hf2 | exact Hf'].
    + rewrite Hl', Hlog2. cbn [log]. apply Hlog.
Qed.

Lemma add_stream_addresses_requests sp s i n w :
  ready sp s (st w) ->
  exists w',
    add_stream_addresses i n sp w = Done tt w' /\
    fenced (st w) (st w') /\
    log w' = log w ++ host_candidate_requests (stream_id s) n i.
Proof.
  revert w. induction i as [|address next IH]; intros w Hready;
    cbn [add_stream_addresses].
  - exists w. split; [reflexivity|]. split; [apply fenced_refl|].
    cbn. rewrite app_nil_r. reflexivity.
  - destruct (add_stream_components_requests sp s (Z.to_nat n) 0 address w
                Hready) as (w1 & Hrun & Hf & Hlog).
    rewrite (bind_done _ _ _ _ _ Hrun).
    destruct (IH w1) as (w' & Hrun' & Hf' & Hlog');
      [eapply ready_fenced; eauto|].
    exists w'. split; [exact Hrun'|].
    split; [eapply fenced_trans; eauto|].
    rewrite Hlog', Hlog, <- app_assoc. reflexivity.
Qed.

Lemma attach_sockets_no_request component j :
  logs not_request (attach_sockets component j).
Proof.
  induction j as [|udp_socket next IH]; cbn.
  - auto with agent_reads agent_logs.
  - logs_walk ltac:(exact I); try apply IH.
Qed.

Lemma attach_components_no_request i : logs not_request (attach_components i).
Proof.
  induction i as [|component next IH]; cbn.
  - auto with agent_reads agent_logs.
  - pose proof (attach_sockets_no_request component).
    logs_walk idtac; try apply IH.
Qed.

Lemma add_stream_attach_no_request stream :
  logs not_request (add_stream_attach stream).
Proof.
  unfold add_stream_attach, priv_attach_new_stream.
  pose proof attach_components_no_request. logs_walk idtac.
Qed.

(** X15.  When every allocation succeeds, the agent has a local address, the
    discovery bookkeeping is consistent and the discovery module delivers
    every host candidate, [nice_agent_add_stream] asks for the host
    candidates before anything else it reports: one request per local
    address and component, the addresses in the order they were added and
    for each address the components 1 to [n_components], all with the id
    the call returns; what it reports after them holds no further
    request. *)
Theorem nice_agent_add_stream_requests n w :
  alloc_plan (st w) = [] ->
  local_addresses (agent (st w)) <> [] ->
  discovery_consistent (st w) ->
  exists w' rest,
    nice_agent_add_stream n w = Done (next_stream_id (agent (st w))) w' /\
    new_events w w'
    = host_candidate_requests (next_stream_id (agent (st w))) n
        (local_addresses (agent (st w))) ++ rest /\
    Forall not_request rest.
Proof.
  intros Hplan Hla Hd.
  destruct (add_stream_allocate_done n w Hla) as (sp & w1 & Halloc);
    [rewrite Hplan; reflexivity | rewrite Hplan; reflexivity |].
  destruct (add_stream_allocate_some n w sp w1 Halloc)
    as (cs & _ & _ & Hagent & Hmem & Hcs & Hplan1 & Hlog1).
  set (s := linked_stream (agent (st w)) cs) in *.
  assert (Hready : ready sp s (st w1)).
  { split; [rewrite Hplan1, Hplan; reflexivity|].
    split; [rewrite Hmem; apply lookup_insert_eq|].
    split; [exact Hcs|]. unfold discovery_consistent. rewrite Hagent.
    exact Hd. }
  unfold nice_agent_add_stream, add_stream_gather. assoc.
  rewrite (bind_done _ _ _ _ _ Halloc). repeat step.
  destruct (add_stream_addresses_requests sp s
              (local_addresses (agent (st w1))) n w1 Hready)
    as (w2 & Hrun2 & Hf2 & Hlog2).
  assoc. rewrite (bind_done _ _ _ _ _ Hrun2).
  pose proof (ready_fenced sp s _ _ Hf2 Hready) as Hready2.
  destruct (add_stream_attach_done sp s w2 Hready2) as (w3 & Hrun3 & Hf3).
  destruct (add_stream_attach_no_request sp w2 tt w3 Hrun3)
    as (evs & Hlog3 & Hevs).
  assoc. rewrite (bind_done _ _ _ _ _ Hrun3). repeat step.
  pose proof (ready_fenced sp s _ _ Hf3 Hready2) as Hready3.
  destruct (add_stream_conclude_done sp s w3 Hready3) as (w' & Hrun & Hf).
  pose proof (add_stream_conclude_log sp w3 _ w' Hrun) as Hlog.
  eexists w', (evs ++ _). split; [exact Hrun|].
  split.
  - unfold new_events. rewrite Hlog, Hlog3, Hlog2, Hlog1, Hagent.
    rewrite <- !app_assoc, drop_app_length. reflexivity.
  - apply Forall_app. split; [exact Hevs|].
    destruct (discovery_unsched_items (agent (st w3)) =? 0);
      [|destruct (discovery_schedule_signals_done (st w3))];
      repeat constructor.
Qed.

End GatheringRequests.

Lemma nice_agent_add_stream_requests_witness :
  exists w' rest,
    nice_agent_add_stream (H := Loopback.env) 2 Loopback.with_address
    = Done (next_stream_id (agent (st Loopback.with_address))) w' /\
    new_events Loopback.with_address w'
    = host_candidate_requests
        (next_stream_id (agent (st Loopback.with_address))) 2
        (local_addresses (agent (st Loopback.with_address))) ++ rest /\
    Forall not_request rest.
Proof.
  apply (nice_agent_add_stream_requests (H := Loopback.env)
           (cooperative := loopback_cooperative)
           loopback_host_candidates_succeed 2 Loopback.with_address).
  - vm_compute. reflexivity.
  - vm_compute. discriminate.
  - left. vm_compute. reflexivity.
Defined.

Section AttachDetach.
Context `{Collaborators}.

(** ** The sources of a stream, from attaching to removing *)

Lemma with_gsources_twice l1 l2 k :
  with_gsources l1 (with_gsources l2 k) = with_gsources l1 k.
Proof. destruct k. reflexivity. Qed.

Lemma attach_sockets_sources c j w k :
  alloc_plan (st w) = [] ->
  component_mem (st w) !! c = Some k ->
  exists w',
    attach_sockets c j w = Done true w' /\
    only_sources_differ (st w) (st w') /\
    component_mem (st w') !! c
    = Some (with_gsources (gsources k ++ map watch j) k) /\
    forall q, q <> c -> component_mem (st w') !! q = component_mem (st w) !! q.
Proof.
  revert w k. induction j as [|sock next IH]; intros w k Hplan Hc;
    cbn [attach_sockets].
  - exists w. split; [reflexivity|].
    split; [apply only_sources_differ_refl|]. split; [|reflexivity].
    cbn. rewrite app_nil_r, Hc. destruct k. reflexivity.
  - repeat step.
    match goal with |- context [attach_sockets c next ?w1] =>
      destruct (IH w1 (with_gsources (gsources k ++ [watch sock]) k))
        as (w' & Hrun & Hdiff & Hc' & Hother) end.
    + exact Hplan.
    + state_simpl. rewrite lookup_insert_eq. reflexivity.
    + exists w'. split; [exact Hrun|]. split; [|split].
      * eapply only_sources_differ_trans; [|exact Hdiff].
        repeat (split; [reflexivity|]). intros q. state_simpl.
        destruct (decide (c = q)) as [<-|Hq].
        -- rewrite lookup_insert_eq, Hc. reflexivity.
        -- rewrite lookup_insert_ne by exact Hq. reflexivity.
      * rewrite Hc', with_gsources_twice. destruct k. cbn.
        rewrite <- app_assoc. reflexivity.
      * intros q Hq. rewrite (Hother q Hq). state_simpl.
        apply lookup_insert_ne. congruence.
Qed.

Lemma attach_components_sources i w :
  alloc_plan (st w) = [] ->
  Forall (fun c => is_Some (component_mem (st w) !! c)) i ->
  exists w',
    attach_components i w = Done true w' /\
    only_sources_differ (st w) (st w') /\
    (forall q, q ∉ i -> component_mem (st w') !! q = component_mem (st w) !! q)
    /\
    (NoDup i ->
     forall c k, c ∈ i -> component_mem (st w) !! c = Some k ->
       component_mem (st w') !! c
       = Some (with_gsources (gsources k ++ map watch (sockets k)) k)).
Proof.
  revert w. induction i as [|c next IH]; intros w Hplan Hall;
    cbn [attach_components].
  - exists w. split; [reflexivity|].
    split; [apply only_sources_differ_refl|]. split; [reflexivity|].
    intros _ c k Hc. apply elem_of_nil in Hc as [].
  - inversion Hall as [|? ? [k Hc] Hnext]; subst. step.
    destruct (attach_sockets_sources c (sockets k) w k Hplan Hc)
      as (w1 & Hrun & Hdiff & Hc1 & Hother).
    rewrite (bind_done _ _ _ _ _ Hrun).
    destruct (IH w1) as (w' & Hrun' & Hdiff' & Hother' & Hin').
    + destruct Hdiff as (_ & _ & Hp & _). rewrite Hp. exact Hplan.
    + eapply Forall_impl; [exact Hnext|]. cbn. intros q.
      apply only_sources_differ_alive. exact Hdiff.
    + exists w'. split; [exact Hrun'|].
      split; [eapply only_sources_differ_trans; eauto|]. split.
      * intros q Hq. apply not_elem_of_cons in Hq as [Hne Hq].
        rewrite (Hother' q Hq). apply Hother. exact Hne.
      * intros Hnodup q kq Hq Hkq. apply NoDup_cons in Hnodup as [Hc' Hnodup].
        apply elem_of_cons in Hq as [->|Hq].
        -- rewrite (Hother' c Hc'), Hc1. congruence.
        -- apply (Hin' Hnodup q kq Hq). rewrite Hother; [exact Hkq|].
           intros ->. contradiction.
Qed.

Lemma attach_streams_sources l w :
  alloc_plan (st w) = [] ->
  alive (st w) l ->
  exists w',
    attach_streams l w = Done true w' /\
    only_sources_differ (st w) (st w') /\
    (forall q, q ∉ streams_components (st w) l ->
       component_mem (st w') !! q = component_mem (st w) !! q) /\
    (NoDup (streams_components (st w) l) ->
     forall c k, c ∈ streams_components (st w) l ->
       component_mem (st w) !! c = Some k ->
       component_mem (st w') !! c
       = Some (with_gsources (gsources k ++ map watch (sockets k)) k)).
Proof.
  revert w. induction l as [|sp l IH]; intros w Hplan Hall;
    cbn [attach_streams].
  - exists w. split; [reflexivity|].
    split; [apply only_sources_differ_refl|]. split; [reflexivity|].
    intros _ c k Hc. apply elem_of_nil in Hc as [].
  - inversion Hall as [|? ? (s & Hsp & Hcs) Hnext]; subst.
    unfold priv_attach_new_stream. repeat step.
    destruct (attach_components_sources (components s) w Hplan Hcs)
      as (w1 & Hrun & Hdiff & Hother & Hin).
    assoc. rewrite (bind_done _ _ _ _ _ Hrun).
    destruct (IH w1) as (w' & Hrun' & Hdiff' & Hother' & Hin').
    + destruct Hdiff as (_ & _ & Hp & _). rewrite Hp. exact Hplan.
    + eapply alive_same; [exact Hdiff | exact Hnext].
    + assert (Hsame : streams_components (st w1) l
                      = streams_components (st w) l).
      { destruct Hdiff as (_ & Hs & _). unfold streams_components.
        rewrite Hs. reflexivity. }
      rewrite Hsame in Hin', Hother'.
      exists w'. split; [exact Hrun'|].
      split; [eapply only_sources_differ_trans; eauto|].
      unfold streams_components. cbn [flat_map]. rewrite Hsp. cbn [from_option].
      fold (streams_components (st w) l).
      split.
      { intros q Hq. apply not_elem_of_app in Hq as [Hq1 Hq2].
        rewrite (Hother' q Hq2). apply Hother. exact Hq1. }
      intros Hnodup c k Hc Hk.
      apply NoDup_app in Hnodup as (Hnodup1 & Hdisjoint & Hnodup2).
      apply elem_of_app in Hc as [Hc|Hc].
      * assert (Hc1 : component_mem (st w1) !! c
                      = Some (with_gsources
                                (gsources k ++ map watch (sockets k)) k))
          by (apply (Hin Hnodup1 c k Hc Hk)).
        rewrite Hother'; [exact Hc1|]. exact (Hdisjoint c Hc).
      * apply (Hin' Hnodup2 c k Hc). rewrite Hother; [exact Hk|].
        intros Hc'. exact (Hdisjoint c Hc' Hc).
Qed.

Lemma component_sockets_insert_other c k (m : gmap addr Component) cs :
  c ∉ cs -> component_sockets (<[c := k]> m) cs = component_sockets m cs.
Proof.
  induction cs as [|q cs IH]; intros Hc; [reflexivity|].
  apply not_elem_of_cons in Hc as [Hne Hc].
  unfold component_sockets in *. cbn [flat_map].
  rewrite (IH Hc), lookup_insert_ne by exact Hne. reflexivity.
Qed.

Lemma detach_events_attached cs (m : gmap addr Component) :
  NoDup cs ->
  (forall c, c ∈ cs ->
     exists k, m !! c = Some k /\ gsources k = map watch (sockets k)) ->
  detach_events cs m
  = map (fun s => Source_destroy (watch s)) (component_sockets m cs).
Proof.
  revert m. induction cs as [|c rest IH]; intros m Hnodup Hall;
    [reflexivity|].
  apply NoDup_cons in Hnodup as [Hc Hnodup].
  destruct (Hall c) as (k & Hk & Hsources); [apply list_elem_of_here|].
  cbn [detach_events]. rewrite Hk, Hsources, IH.
  - rewrite (component_sockets_insert_other _ _ _ _ Hc).
    unfold component_sockets. cbn [flat_map]. rewrite Hk. cbn [from_option].
    rewrite map_app, map_map. reflexivity.
  - exact Hnodup.
  - intros q Hq. rewrite lookup_insert_ne by (intros ->; contradiction).
    apply Hall. apply list_elem_of_further. exact Hq.
Qed.

Lemma agent_find_stream_from_elem l id w sp w' :
  agent_find_stream_from l id w = Done (Some sp) w' -> sp ∈ l.
Proof.
  induction l as [|p l IH]; cbn [agent_find_stream_from].
  - unfold ret. discriminate.
  - unfold bind, load_stream, load.
    destruct (stream_mem (st w) !! p) as [s|]; [|discriminate].
    destruct (stream_id s =? id).
    + unfold ret. intros E. injection E as -> _. apply list_elem_of_here.
    + intros E. apply list_elem_of_further. exact (IH E).
Qed.

Lemma streams_components_of x l sp s :
  sp ∈ l -> stream_mem x !! sp = Some s ->
  (forall c, c ∈ components s -> c ∈ streams_components x l) /\
  (NoDup (streams_components x l) -> NoDup (components s)).
Proof.
  intros Hsp Hs. induction l as [|q l IH]; [apply elem_of_nil in Hsp as []|].
  unfold streams_components in *. cbn [flat_map].
  apply elem_of_cons in Hsp as [<-|Hsp].
  - rewrite Hs. cbn [from_option]. split.
    + intros c Hc. apply elem_of_app. left. exact Hc.
    + intros Hnodup. apply NoDup_app in Hnodup as (Hn & _). exact Hn.
  - destruct (IH Hsp) as [Hin Hn]. split.
    + intros c Hc. apply elem_of_app. right. exact (Hin c Hc).
    + intros Hnodup. apply NoDup_app in Hnodup as (_ & _ & Hn'). exact (Hn Hn').
Qed.

(** X16.  On an agent that has no main context yet, with its streams and
    their components alive, every component in one stream only and once,
    no component with a source, and no allocation failing:
    after [nice_agent_main_context_attach] has attached a source for every
    socket of the agent, [nice_agent_remove_stream] of a stream the agent
    has destroys exactly the sources attached for the sockets of that
    stream's components, in the order they were attached, after the two
    pruning calls and before the stream is freed; all that can follow is
    the removal of the keepalive timer. *)
Theorem nice_agent_remove_stream_destroys_attached ctx func data r id sp s w :
  main_context_set (agent (st w)) = false ->
  alloc_plan (st w) = [] ->
  streams_alive (st w) ->
  NoDup (agent_components (st w)) ->
  no_sources (st w) ->
  agent_find_stream id w = Done (Some sp) w ->
  stream_mem (st w) !! sp = Some s ->
  leaves_streams (conn_check_prune_stream id) ->
  leaves_streams (discovery_prune_stream id) ->
  exists r' w1 w2 rest,
    nice_agent_main_context_attach ctx func data r w = Done (true, r') w1 /\
    new_events w w1
    = map (fun k => Source_attach (watch k)) (agent_sockets (st w)) /\
    nice_agent_remove_stream id w1 = Done tt w2 /\
    new_events w1 w2
    = [Call_conn_check_prune_stream id; Call_discovery_prune_stream id]
      ++ map (fun k => Source_destroy (watch k))
           (component_sockets (component_mem (st w)) (components s))
      ++ Call_stream_free sp :: rest /\
    (rest = [] \/
     rest = [Source_remove (keepalive_timer_id (agent (st w)))]).
Proof.
  intros Hset Hplan Halive Hnodup Hnone Hfind Hs Hcc Hdp.
  destruct (attach_streams_sources (streams (agent (st w))) w Hplan Halive)
    as (w0 & Hrun & Hdiff & _ & Hin).
  destruct (attach_streams_attached (streams (agent (st w))) w Hplan Halive)
    as (w0' & Hrun' & Hlog & _).
  assert (w0' = w0) as -> by congruence. clear Hrun'.
  pose proof Hdiff as (Hagent & Hmem & _ & _).
  fold (agent_components (st w)) in Hin. specialize (Hin Hnodup).
  set (w1 := {| st := set_agent (with_main_context_set true) (st w0);
                log := log w0 |}).
  assert (Hattach : nice_agent_main_context_attach ctx func data r w
                    = Done (true, {| socket_factory := socket_factory r;
                                     turn_server_ip := turn_server_ip r;
                                     main_context := ctx; read_func := func;
                                     read_func_data := data |}) w1).
  { unfold nice_agent_main_context_attach. step. rewrite Hset.
    rewrite (bind_done _ _ _ _ _ Hrun). repeat step. reflexivity. }
  assert (Hsp : sp ∈ streams (agent (st w))).
  { unfold agent_find_stream in Hfind.
    rewrite (bind_done _ _ _ _ _ (run_get_agent w)) in Hfind.
    eapply agent_find_stream_from_elem. exact Hfind. }
  destruct (streams_components_of (st w) _ sp s Hsp Hs) as [Hcin Hcnodup].
  specialize (Hcnodup Hnodup).
  assert (Hcs : Forall (fun c => is_Some (component_mem (st w) !! c))
                  (components s)).
  { unfold streams_alive, alive in Halive. rewrite Forall_forall in Halive.
    destruct (Halive sp Hsp) as (s' & Hs' & Hcs). congruence. }
  assert (Hfind1 : agent_find_stream id w1 = Done (Some sp) w1).
  { unfold agent_find_stream in *.
    rewrite (bind_done _ _ _ _ _ (run_get_agent w)) in Hfind.
    step.
    replace (streams (agent (st w1))) with (streams (agent (st w)))
      by (unfold w1; state_simpl; rewrite Hagent; reflexivity).
    apply (agent_find_stream_from_frame _ _ w w1); [|exact Hfind].
    unfold w1. state_simpl. symmetry. exact Hmem. }
  assert (Hs1 : stream_mem (st w1) !! sp = Some s)
    by (unfold w1; state_simpl; rewrite Hmem; exact Hs).
  assert (Hcm1 : component_mem (st w1) = component_mem (st w0))
    by (unfold w1; state_simpl; reflexivity).
  assert (Hcs1 : Forall (fun c => is_Some (component_mem (st w1) !! c))
                   (components s)).
  { rewrite Hcm1. eapply Forall_impl; [exact Hcs|]. cbn. intros q.
    apply only_sources_differ_alive. exact Hdiff. }
  pose proof (nice_agent_remove_stream_found id w1 sp s Hfind1 Hs1 Hcs1 Hcc Hdp)
    as Hremove.
  cbv zeta in Hremove. rewrite Hcm1 in Hremove.
  rewrite detach_events_attached in Hremove; [|exact Hcnodup|].
  2:{ intros c Hc. rewrite Forall_forall in Hcs.
      destruct (Hcs c Hc) as [k Hk].
      exists (with_gsources (gsources k ++ map watch (sockets k)) k).
      split; [apply (Hin c k (Hcin c Hc) Hk)|].
      unfold no_sources in Hnone. rewrite Forall_forall in Hnone.
      rewrite (Hnone c (Hcin c Hc) k Hk). destruct k. reflexivity. }
  rewrite (component_sockets_same _ _ _ Hdiff) in Hremove.
  replace (keepalive_timer_id (agent (st w1)))
    with (keepalive_timer_id (agent (st w))) in Hremove
    by (unfold w1; state_simpl; rewrite Hagent; reflexivity).
  assert (Hlog1 : new_events w w1
                  = map (fun k => Source_attach (watch k))
                      (agent_sockets (st w)))
    by (apply new_events_app; unfold w1; cbn [log]; exact Hlog).
  destruct (g_slist_remove (streams (agent (st w1))) sp) as [|q remaining];
    [destruct (keepalive_timer_id (agent (st w)) =? 0)|];
    eexists _, w1, _, _;
    (split; [exact Hattach|]); (split; [exact Hlog1|]);
    (split; [exact Hremove|]).
  - split; [apply new_events_app; cbn [log]; reflexivity|].
    left. reflexivity.
  - split; [|right; reflexivity].
    apply new_events_app. cbn [log]. rewrite <- !app_assoc. reflexivity.
  - split; [apply new_events_app; cbn [log]; reflexivity|]. left. reflexivity.
Qed.

End AttachDetach.

Lemma loopback_listening_alive :
  streams_alive (st Loopback.listening) /\
  NoDup (agent_components (st Loopback.listening)) /\
  no_sources (st Loopback.listening).
Proof.
  unfold streams_alive, alive, no_sources.
  replace (agent_components (st Loopback.listening)) with [1%positive]
    by (vm_compute; reflexivity).
  replace (streams (agent (st Loopback.listening))) with [1%positive]
    by (vm_compute; reflexivity).
  split; [|split; [apply NoDup_singleton|]].
  - constructor; [|constructor].
    exists (Loopback.stream_at Loopback.listening 1%positive).
    split; [vm_compute; reflexivity|].
    replace (components (Loopback.stream_at Loopback.listening 1%positive))
      with [1%positive] by (vm_compute; reflexivity).
    constructor; [|constructor]. vm_compute. eauto.
  - constructor; [|constructor]. intros k Hk. vm_compute in Hk.
    injection Hk as <-. reflexivity.
Qed.

Lemma nice_agent_remove_stream_destroys_attached_witness :
  exists r' w1 w2 rest,
    nice_agent_main_context_attach (Some 1%positive) (Some 2%positive) None
      {| socket_factory := None; turn_server_ip := None;
         main_context := None; read_func := None; read_func_data := None |}
      Loopback.listening
    = Done (true, r') w1 /\
    nice_agent_remove_stream (H := Loopback.env) 1 w1 = Done tt w2 /\
    new_events w1 w2
    = [Call_conn_check_prune_stream 1; Call_discovery_prune_stream 1]
      ++ map (fun k => Source_destroy (watch k))
           (component_sockets (component_mem (st Loopback.listening))
              (components (Loopback.stream_at Loopback.listening 1%positive)))
      ++ Call_stream_free 1%positive :: rest.
Proof.
  destruct (nice_agent_remove_stream_destroys_attached (H := Loopback.env)
              (Some 1%positive) (Some 2%positive) None
              {| socket_factory := None; turn_server_ip := None;
                 main_context := None; read_func := None;
                 read_func_data := None |}
              1 1%positive
              (Loopback.stream_at Loopback.listening 1%positive)
              Loopback.listening)
    as (r' & w1 & w2 & rest & Hattach & _ & Hremove & Hlog & _).
  - vm_compute. reflexivity.
  - vm_compute. reflexivity.
  - exact (proj1 loopback_listening_alive).
  - exact (proj1 (proj2 loopback_listening_alive)).
  - exact (proj2 (proj2 loopback_listening_alive)).
  - vm_compute. reflexivity.
  - vm_compute. reflexivity.
  - intros x. repeat split.
  - intros x. repeat split.
  - exists r', w1, w2, rest. auto.
Defined.
